(** * Mars Credit miner supervisor: a shallow embedding of the Electron
    main-process services and the properties checked against them.

    Sources embedded (miner-app/electron):
    - utils/paths.ts, utils/logger.ts
    - services/NetworkService.ts   (weiToMars, the JSON-RPC client)
    - services/WalletService.ts    (address-only target, mnemonic store)
    - services/GenesisInit.ts      (initMinerDataDir)
    - services/MinerInstance.ts    (ports, start/stop, health check)
    - services/MinerService.ts     (tab registry)
    - main.ts                      (sleep and wake)

    Conventions.  JavaScript numbers that hold tab indices, ports, pids and
    counters are integers and are modelled by [Z], which is exact as long
    as they are safe integers.  A JavaScript string is represented by the
    bytes of its UTF-8 encoding ([string]); this is exact for well-formed
    text.  Code that throws returns [Throw]; code that touches the
    filesystem or the OS threads a [World].  An [async] function is
    followed up to the point where its caller goes on, what Node runs in
    between included. *)

From Stdlib Require Import ZArith List String Ascii Bool Lia DecimalString.
From Stdlib Require Import DecimalZ DecimalPos.
From Stdlib.Strings Require Import Byte.
From stdpp Require Import gmap strings list fin_maps sorting.

Local Open Scope Z_scope.
Local Open Scope string_scope.
Local Open Scope list_scope.

(** ** JavaScript built-ins used by the services *)

Module Js.

(** [Number.MAX_SAFE_INTEGER]: up to this magnitude every integer is a
    number, and sums and products that stay within it are exact. *)
Definition MAX_SAFE_INTEGER : Z := 2 ^ 53 - 1.

(** [String(n)] and template interpolation of an integer [n]: decimal
    digits, with a leading minus sign for negative values.  This is what
    JavaScript prints for every safe integer; beyond [MAX_SAFE_INTEGER] a
    number is printed with the fewest digits that identify it, which is
    not modelled. *)
Definition String_of_number (n : Z) : string :=
  NilZero.string_of_int (Z.to_int n).

Definition code (c : ascii) : N := N_of_ascii c.

(** White space removed by [String.prototype.trim]: the ASCII code units
    [\t \n \v \f \r] and space ... *)
Definition is_ascii_space (c : ascii) : bool :=
  let n := code c in
  ((9 <=? n) && (n <=? 13) || (n =? 32))%N.

(** ... and the UTF-8 forms of U+00A0, U+1680, U+2000..U+200A, U+2028,
    U+2029, U+202F, U+205F, U+3000 and U+FEFF. *)
Definition is_space2 (c1 c2 : ascii) : bool :=
  ((code c1 =? 194) && (code c2 =? 160))%N.

Definition is_space3 (c1 c2 c3 : ascii) : bool :=
  let '(a, b, c) := (code c1, code c2, code c3) in
  ((a =? 225) && (b =? 154) && (c =? 128)
   || (a =? 226) && (b =? 128)
      && ((128 <=? c) && (c <=? 138) || (c =? 168) || (c =? 169) || (c =? 175))
   || (a =? 226) && (b =? 129) && (c =? 159)
   || (a =? 227) && (b =? 128) && (c =? 128)
   || (a =? 239) && (b =? 187) && (c =? 191))%N.

Fixpoint trimStart (s : string) : string :=
  match s with
  | String c1 r1 =>
      if is_ascii_space c1 then trimStart r1
      else match r1 with
           | String c2 r2 =>
               if is_space2 c1 c2 then trimStart r2
               else match r2 with
                    | String c3 r3 =>
                        if is_space3 c1 c2 c3 then trimStart r3 else s
                    | EmptyString => s
                    end
           | EmptyString => s
           end
  | EmptyString => s
  end.

(** [trimEndRev] works on the reversed list of code units. *)
Fixpoint trimEndRev (l : list ascii) : list ascii :=
  match l with
  | c1 :: r1 =>
      if is_ascii_space c1 then trimEndRev r1
      else match r1 with
           | c2 :: r2 =>
               if is_space2 c2 c1 then trimEndRev r2
               else match r2 with
                    | c3 :: r3 =>
                        if is_space3 c3 c2 c1 then trimEndRev r3 else l
                    | [] => l
                    end
           | [] => l
           end
  | [] => l
  end.

Definition trimEnd (s : string) : string :=
  string_of_list_ascii (rev (trimEndRev (rev (list_ascii_of_string s)))).

Definition trim (s : string) : string := trimEnd (trimStart s).

(** [s.startsWith(p)] *)
Definition startsWith (s p : string) : bool := String.prefix p s.

(** [s.padStart(n, '0')] *)
Definition padStart0 (n : nat) (s : string) : string :=
  string_of_list_ascii (repeat "0"%char (n - String.length s)) +:+ s.

(** [s.slice(0, n)] for [0 <= n] *)
Definition slice0 (n : nat) (s : string) : string := String.substring 0 n s.

(** [s.replace(/0+$/, '')] *)
Fixpoint dropZerosRev (l : list ascii) : list ascii :=
  match l with
  | c :: r => if Ascii.eqb c "0" then dropZerosRev r else l
  | [] => []
  end.

Definition stripTrailingZeros (s : string) : string :=
  string_of_list_ascii (rev (dropZerosRev (rev (list_ascii_of_string s)))).

(** Digit value of a code unit in the given radix. *)
Definition digitValue (radix : N) (c : ascii) : option N :=
  let n := code c in
  let v := (if (48 <=? n) && (n <=? 57) then Some (n - 48)
            else if (97 <=? n) && (n <=? 122) then Some (n - 87)
            else if (65 <=? n) && (n <=? 90) then Some (n - 55)
            else None)%N in
  match v with
  | Some d => if (d <? radix)%N then Some d else None
  | None => None
  end.

Fixpoint digitsValue (radix : N) (acc : N) (s : string) : option N :=
  match s with
  | EmptyString => Some acc
  | String c r =>
      match digitValue radix c with
      | Some d => digitsValue radix (acc * radix + d)%N r
      | None => None
      end
  end.

(** A non-empty run of digits. *)
Definition numeral (radix : N) (s : string) : option Z :=
  match s with
  | EmptyString => None
  | _ => Z.of_N <$> digitsValue radix 0%N s
  end.

(** [BigInt(s)] for a string argument (StringToBigInt): surrounding white
    space is ignored, the empty string is [0n], a [0x]/[0o]/[0b] prefix
    selects the radix, a sign is accepted before decimal digits only;
    [None] stands for the SyntaxError thrown otherwise. *)
Definition BigInt_of_string (s : string) : option Z :=
  match trim s with
  | EmptyString => Some 0
  | String "0" (String "x" r) | String "0" (String "X" r) => numeral 16 r
  | String "0" (String "o" r) | String "0" (String "O" r) => numeral 8 r
  | String "0" (String "b" r) | String "0" (String "B" r) => numeral 2 r
  | String "-" r => Z.opp <$> numeral 10 r
  | String "+" r => numeral 10 r
  | t => numeral 10 t
  end.

End Js.

(** ** Results of fallible code *)

Inductive error := Error (message : string).

Inductive result (A : Type) :=
| Ok (a : A)
| Throw (e : error).
Arguments Ok {A} a.
Arguments Throw {A} e.

(** ** The filesystem as the services see it *)

Module Fs.

(** A path is the list of its components below the filesystem root;
    [path.join] appends components. *)
Abbreviation path := (list string) (only parsing).

Inductive node :=
| Dir
| File (content : string).

(** The root always exists and is a directory. *)
Definition stat (fs : gmap (list string) node) (p : path) : option node :=
  match p with
  | [] => Some Dir
  | _ => fs !! p
  end.

(** [fs.existsSync(p)] *)
Definition existsSync (fs : gmap (list string) node) (p : path) : bool :=
  match stat fs p with Some _ => true | None => false end.

(** [path.join(p, ...names)] and [path.dirname(p)] *)
Definition join (p : path) (names : list string) : path := app p names.

Definition dirname (p : path) : path := removelast p.

(** The path as the string handed to other programs. *)
Definition toString (p : path) : string :=
  fold_right (fun n acc => "/" +:+ n +:+ acc) "" p.

(** [fs.mkdirSync(p, { recursive: true })]: creates the missing
    directories from the root down; fails when a component exists and is
    not a directory: with [ENOTDIR] when a file stands on the way, with
    [EEXIST] when the path itself is a file. *)
Fixpoint mkdirFrom (cur : path) (todo : list string)
    (fs : gmap (list string) node) : result (gmap (list string) node) :=
  match todo with
  | [] => Ok fs
  | n :: todo' =>
      let q := join cur [n] in
      match stat fs q with
      | Some Dir => mkdirFrom q todo' fs
      | Some (File _) =>
          Throw (Error match todo' with [] => "EEXIST" | _ => "ENOTDIR" end)
      | None => mkdirFrom q todo' (<[q := Dir]> fs)
      end
  end.

Definition mkdirSync (p : path) (fs : gmap (list string) node) :
    result (gmap (list string) node) :=
  mkdirFrom [] p fs.

(** [fs.writeFileSync(p, data, 'utf8')]: the parent must be a directory and
    [p] must not be one; the file is created or replaced. *)
Definition writeFileSync (p : path) (data : string)
    (fs : gmap (list string) node) : result (gmap (list string) node) :=
  match p with
  | [] => Throw (Error "EISDIR")
  | _ =>
      match stat fs (dirname p) with
      | Some Dir =>
          match stat fs p with
          | Some Dir => Throw (Error "EISDIR")
          | _ => Ok (<[p := File data]> fs)
          end
      | Some (File _) => Throw (Error "ENOTDIR")
      | None => Throw (Error "ENOENT")
      end
  end.

(** [fs.appendFileSync(p, data)] *)
Definition appendFileSync (p : path) (data : string)
    (fs : gmap (list string) node) : result (gmap (list string) node) :=
  match p with
  | [] => Throw (Error "EISDIR")
  | _ =>
      match stat fs (dirname p) with
      | Some Dir =>
          match stat fs p with
          | Some Dir => Throw (Error "EISDIR")
          | Some (File old) => Ok (<[p := File (old +:+ data)]> fs)
          | None => Ok (<[p := File data]> fs)
          end
      | Some (File _) => Throw (Error "ENOTDIR")
      | None => Throw (Error "ENOENT")
      end
  end.

(** [fs.readFileSync(p, 'utf8')] *)
Definition readFileSync (p : path) (fs : gmap (list string) node) :
    result string :=
  match stat fs p with
  | Some (File c) => Ok c
  | Some Dir => Throw (Error "EISDIR")
  | None => Throw (Error "ENOENT")
  end.

(** [fs.unlinkSync(p)] *)
Definition unlinkSync (p : path) (fs : gmap (list string) node) :
    result (gmap (list string) node) :=
  match stat fs p with
  | Some (File _) => Ok (delete p fs)
  | Some Dir => Throw (Error "EPERM")
  | None => Throw (Error "ENOENT")
  end.

(** [fs.chmodSync(p, mode)]: permission bits are not part of the model;
    the call fails when [p] does not exist. *)
Definition chmodSync (p : path) (fs : gmap (list string) node) :
    result (gmap (list string) node) :=
  match stat fs p with
  | Some _ => Ok fs
  | None => Throw (Error "ENOENT")
  end.

(** The entry name of [q] when [q] is a direct child of [p]. *)
Fixpoint childName (p q : path) : option string :=
  match p, q with
  | [], [n] => Some n
  | a :: p', b :: q' => if String.eqb a b then childName p' q' else None
  | _, _ => None
  end.

(** [fs.readdirSync(p)]: the names of the entries of directory [p], in the
    order in which the host enumerates them. *)
Definition readdirSync (p : path) (fs : gmap (list string) node) :
    result (list string) :=
  match stat fs p with
  | Some Dir => Ok (omap (fun kv => childName p (fst kv)) (map_to_list fs))
  | Some (File _) => Throw (Error "ENOTDIR")
  | None => Throw (Error "ENOENT")
  end.

End Fs.

(** ** The world outside the supervisor *)

Inductive Signal := SIGTERM | SIGKILL.

(** One [child_process.spawn] call and the pid the OS gave the child
    ([None] when the spawn failed and the handle has no pid). *)
Record SpawnCall := {
  spawnCommand : string;
  spawnArgs : list string;
  spawnCwd : Fs.path;
  spawnDetached : bool;
  spawnPid : option Z;
}.

(** One synchronous [geth --datadir <dataDir> init <genesis>] run. *)
Record InitCall := {
  initBinary : string;
  initDataDir : Fs.path;
  initGenesis : Fs.path;
}.

Record World := {
  fs : gmap (list string) Fs.node;      (* files and directories *)
  logDirSet : bool;                     (* logger.ts: [logDir] is not null
                                           any more; it is [getLogsDir()] *)
  execs : list InitCall;                (* execSync calls made so far *)
  spawned : list SpawnCall;             (* spawn calls made so far *)
  signalled : list (option Z * Signal); (* signals sent so far *)
  killTimers : list (option Z);         (* pending forced-kill timeouts *)
  uncaught : list error;                (* errors thrown out of an event
                                           handler, caught by nobody *)
}.

Definition set_fs (f : gmap (list string) Fs.node) (w : World) : World :=
  {| fs := f; logDirSet := logDirSet w; execs := execs w; spawned := spawned w;
     signalled := signalled w; killTimers := killTimers w;
     uncaught := uncaught w |}.

Definition set_logDirSet (b : bool) (w : World) : World :=
  {| fs := fs w; logDirSet := b; execs := execs w; spawned := spawned w;
     signalled := signalled w; killTimers := killTimers w;
     uncaught := uncaught w |}.

Definition add_exec (c : InitCall) (w : World) : World :=
  {| fs := fs w; logDirSet := logDirSet w; execs := execs w ++ [c];
     spawned := spawned w; signalled := signalled w;
     killTimers := killTimers w; uncaught := uncaught w |}.

Definition add_spawn (c : SpawnCall) (w : World) : World :=
  {| fs := fs w; logDirSet := logDirSet w; execs := execs w;
     spawned := spawned w ++ [c]; signalled := signalled w;
     killTimers := killTimers w; uncaught := uncaught w |}.

Definition add_signal (pid : option Z) (s : Signal) (w : World) : World :=
  {| fs := fs w; logDirSet := logDirSet w; execs := execs w;
     spawned := spawned w; signalled := signalled w ++ [(pid, s)];
     killTimers := killTimers w; uncaught := uncaught w |}.

Definition add_killTimer (pid : option Z) (w : World) : World :=
  {| fs := fs w; logDirSet := logDirSet w; execs := execs w;
     spawned := spawned w; signalled := signalled w;
     killTimers := killTimers w ++ [pid]; uncaught := uncaught w |}.

Definition add_uncaught (e : error) (w : World) : World :=
  {| fs := fs w; logDirSet := logDirSet w; execs := execs w;
     spawned := spawned w; signalled := signalled w;
     killTimers := killTimers w; uncaught := uncaught w ++ [e] |}.

Inductive LogLevel := LInfo | LWarn | LError | LDebug.

(** What the host decides: identity of the machine and of the Electron
    application, and the behaviour of the programs and libraries the
    supervisor calls but does not contain. *)
Record Host := {
  homedir : Fs.path;                (* os.homedir() *)
  win32 : bool;                     (* process.platform === 'win32' *)
  isPackaged : bool;                (* app.isPackaged *)
  resourcesPath : option Fs.path;   (* process.resourcesPath *)
  appPath : Fs.path;                (* app.getAppPath() *)
  servicesDir : Fs.path;            (* __dirname of GenesisInit *)
  (* JSON.stringify({ timestamp, level, message, ...meta }) + '\n' *)
  logLine : LogLevel -> string -> string;
  (* what a run of geth init does to the files: the new filesystem on
     exit status 0, the error message otherwise *)
  gethInit : InitCall -> gmap (list string) Fs.node ->
             result (gmap (list string) Fs.node);
  (* the pid the OS assigns at spawn, if the spawn succeeds *)
  assignPid : string -> list string -> World -> option Z;
  (* what Node reports, one tick later, of a spawn of this file that
     failed: the error number (-2 for ENOENT) and the Error it emits *)
  spawnFailure : string -> World -> Z * error;
  (* whether process.kill(pid, signal) throws (no such process) *)
  killThrows : Z -> Signal -> World -> bool;
  (* JSON.parse(content).address: [Ok None] when absent or empty *)
  jsonAddress : string -> result (option string);
}.

(** State and exceptions: a computation may change the world and either
    returns or throws. *)
Definition M (A : Type) : Type := World -> result A * World.

Definition ret {A} (a : A) : M A := fun w => (Ok a, w).

Definition throw {A} (e : error) : M A := fun w => (Throw e, w).

Definition bind {A B} (m : M A) (k : A -> M B) : M B :=
  fun w =>
    match m w with
    | (Ok a, w') => k a w'
    | (Throw e, w') => (Throw e, w')
    end.

(** [try { m } catch (e) { h e }] *)
Definition catch {A} (m : M A) (h : error -> M A) : M A :=
  fun w =>
    match m w with
    | (Ok a, w') => (Ok a, w')
    | (Throw e, w') => h e w'
    end.

Definition message (e : error) : string :=
  match e with Error m => m end.

Notation "'do' x <- m ; k" := (bind m (fun x => k))
  (at level 10, x name, m at level 100, k at level 200).
Notation "'run' m ; k" := (bind m (fun _ => k))
  (at level 10, m at level 100, k at level 200).

(** A filesystem call made on the current world. *)
Definition onFs (f : gmap (list string) Fs.node ->
                     result (gmap (list string) Fs.node)) : M unit :=
  fun w =>
    match f (fs w) with
    | Ok fs' => (Ok tt, set_fs fs' w)
    | Throw e => (Throw e, w)
    end.

Definition readFs {A} (f : gmap (list string) Fs.node -> result A) : M A :=
  fun w => (f (fs w), w).

Definition existsSync (p : Fs.path) : M bool :=
  fun w => (Ok (Fs.existsSync (fs w) p), w).

(** ** utils/paths.ts *)

Module Paths.
Section WithHost.
Variable h : Host.

Definition MARS_DIR_NAME : string := ".marscredit".

Definition getMarsCreditDir : Fs.path :=
  Fs.join (homedir h) [MARS_DIR_NAME].

Definition getMinerDataDir (minerIndex : Z) : Fs.path :=
  Fs.join getMarsCreditDir ["miners"; Js.String_of_number minerIndex].

Definition getMinerKeystoreDir (minerIndex : Z) : Fs.path :=
  Fs.join (getMinerDataDir minerIndex) ["keystore"].

Definition getMinerLogsDir (minerIndex : Z) : Fs.path :=
  Fs.join (getMinerDataDir minerIndex) ["logs"].

Definition getMinerPidPath (minerIndex : Z) : Fs.path :=
  Fs.join (getMinerDataDir minerIndex) ["geth.pid"].

Definition getWalletEncPath : Fs.path :=
  Fs.join getMarsCreditDir ["wallet.enc"].

Definition getLogsDir : Fs.path :=
  Fs.join getMarsCreditDir ["logs"].

Definition getBinDir : Fs.path :=
  Fs.join getMarsCreditDir ["bin"].

Definition getGethBinaryPath : Fs.path :=
  Fs.join getBinDir [if win32 h then "geth.exe" else "geth"].

End WithHost.
End Paths.

(** ** utils/logger.ts *)

Module Logger.
Section WithHost.
Variable h : Host.

Definition ensureLogDir : M Fs.path :=
  fun w =>
    let d := Paths.getLogsDir h in
    if logDirSet w then (Ok d, w)
    else
      let w1 := set_logDirSet true w in
      if Fs.existsSync (fs w1) d then (Ok d, w1)
      else match Fs.mkdirSync d (fs w1) with
           | Ok fs' => (Ok d, set_fs fs' w1)
           | Throw e => (Throw e, w1)
           end.

(** [log(level, message, meta)]; a failed append is ignored.  Console
    output is not part of the world. *)
Definition log (level : LogLevel) (message : string) : M unit :=
  let line := logLine h level message in
  do dir <- ensureLogDir;
  let file := Fs.join dir ["app.log"] in
  catch (onFs (Fs.appendFileSync file line)) (fun _ => ret tt).

Definition info := log LInfo.
Definition warn := log LWarn.
Definition error := log LError.
Definition debug := log LDebug.

End WithHost.
End Logger.

(** ** services/NetworkService.ts *)

Module NetworkService.

(** Truthiness of a string: only the empty string is falsy. *)
Definition truthy (s : string) : bool :=
  match s with EmptyString => false | _ => true end.

(** [a || b] on strings *)
Definition orElse (a b : string) : string := if truthy a then a else b.

(** Format wei (hex) to MARS (human). 18 decimals.  BigInt division
    truncates and [%] takes the sign of the dividend. *)
Definition weiToMars (weiHex : string) : result string :=
  match Js.BigInt_of_string weiHex with
  | None => Throw (Error "SyntaxError: Cannot convert to a BigInt")
  | Some wei =>
      let divisor := 10 ^ 18 in
      let whole := Z.quot wei divisor in
      let frac := Z.rem wei divisor in
      let fracStr :=
        orElse (Js.stripTrailingZeros
                  (Js.slice0 6 (Js.padStart0 18 (Js.String_of_number frac))))
               "0" in
      Ok (if truthy fracStr
          then Js.String_of_number whole +:+ "." +:+ fracStr
          else Js.String_of_number whole)
  end.

(** *** The JSON-RPC client *)

Definition REMOTE_RPC : string := "https://rpc.marscredit.xyz".

(** The values that travel as parameters and results. *)
Inductive JsonValue :=
| JUndefined
| JNull
| JBool (b : bool)
| JNumber (n : Z)
| JString (s : string)
| JStructured (json : string).    (* an array or an object, as its text *)

(** The body of one POST: [{ jsonrpc: '2.0', method, params, id }], and the
    URL it is sent to. *)
Record RpcRequest := {
  reqUrl : string;
  reqMethod : string;
  reqParams : list JsonValue;
  reqId : Z;
}.

(** The parsed body of a response: [data.result], and the message of
    [data.error] when [data.error] is truthy (the empty string when it has
    none). *)
Record RpcBody := {
  bodyResult : JsonValue;
  bodyError : option string;
}.

(** What [fetch] does: the promise rejects, or there is a response, whose
    body may fail to parse. *)
Inductive FetchOutcome :=
| FetchRejected (e : error)
| FetchResponse (ok : bool) (status : Z) (statusText : string)
                (json : result RpcBody).

(** The module's state: the counter [rpcId] (a number, exact below 2^53),
    and the requests sent so far. *)
Record Net := {
  rpcId : Z;
  sent : list RpcRequest;
}.

(** A call of one of the exported functions. *)
Inductive ApiCall :=
| MinerSetEtherbase (rpcUrl address : string)
| MinerStart (rpcUrl : string) (threads : option Z)
| MinerStop (rpcUrl : string)
| EthMining (rpcUrl : string)
| EthHashrate (rpcUrl : string)
| EthBlockNumber (rpcUrl : string)
| EthSyncing (rpcUrl : string)
| EthGetBalance (rpcUrl address : string)
| NetPeerCount (rpcUrl : string)
| NetVersion (rpcUrl : string)
| GetBalancePreferLocal (localRpcUrl : option string) (address : string).

Section WithNetwork.
(** The answer of the network to a request, given the requests before it. *)
Variable fetch : list RpcRequest -> RpcRequest -> FetchOutcome.

Definition rpc (url method : string) (params : list JsonValue) (n : Net) :
    result JsonValue * Net :=
  let id := rpcId n + 1 in
  let req := {| reqUrl := url; reqMethod := method; reqParams := params;
                reqId := id |} in
  let n1 := {| rpcId := id; sent := sent n ++ [req] |} in
  match fetch (sent n) req with
  | FetchRejected e => (Throw e, n1)
  | FetchResponse ok status statusText json =>
      if negb ok
      then (Throw (Error ("RPC HTTP " +:+ Js.String_of_number status
                          +:+ ": " +:+ statusText)), n1)
      else match json with
           | Throw e => (Throw e, n1)
           | Ok data =>
               match bodyError data with
               | Some m => (Throw (Error (orElse m "RPC error")), n1)
               | None => (Ok (bodyResult data), n1)
               end
           end
  end.

(** Set mining reward address (etherbase). *)
Definition minerSetEtherbase (rpcUrl address : string) :=
  rpc rpcUrl "miner_setEtherbase" [JString address].

(** [await m] in a function declared [Promise<void>]: the value is
    dropped and the caller gets [undefined]. *)
Definition void (r : result JsonValue * Net) : result JsonValue * Net :=
  match r with
  | (Ok _, n) => (Ok JUndefined, n)
  | (Throw e, n) => (Throw e, n)
  end.

(** Start mining with N threads; [None] is an omitted argument. *)
Definition minerStart (rpcUrl : string) (threads : option Z) (n : Net) :=
  void (rpc rpcUrl "miner_start" [JNumber (default 1 threads)] n).

(** Stop mining. *)
Definition minerStop (rpcUrl : string) (n : Net) :=
  void (rpc rpcUrl "miner_stop" [] n).
Definition ethMining (rpcUrl : string) := rpc rpcUrl "eth_mining" [].
Definition ethHashrate (rpcUrl : string) := rpc rpcUrl "eth_hashrate" [].
Definition ethBlockNumber (rpcUrl : string) := rpc rpcUrl "eth_blockNumber" [].
Definition ethSyncing (rpcUrl : string) := rpc rpcUrl "eth_syncing" [].

(** Get balance in wei (hex). *)
Definition ethGetBalance (rpcUrl address : string) :=
  rpc rpcUrl "eth_getBalance" [JString address; JString "latest"].

Definition netPeerCount (rpcUrl : string) := rpc rpcUrl "net_peerCount" [].
Definition netVersion (rpcUrl : string) := rpc rpcUrl "net_version" [].

Definition getRemoteRpcUrl : string := REMOTE_RPC.

(** Prefer local RPC; if it fails, use remote for read-only calls. *)
Definition getBalancePreferLocal (localRpcUrl : option string)
    (address : string) (n : Net) : result JsonValue * Net :=
  let remote := ethGetBalance REMOTE_RPC address in
  match localRpcUrl with
  | Some url =>
      if truthy url
      then match ethGetBalance url address n with
           | (Ok wei, n1) => (Ok wei, n1)
           | (Throw _, n1) => remote n1
           end
      else remote n
  | None => remote n
  end.

Definition call (c : ApiCall) (n : Net) : result JsonValue * Net :=
  match c with
  | MinerSetEtherbase u a => minerSetEtherbase u a n
  | MinerStart u t => minerStart u t n
  | MinerStop u => minerStop u n
  | EthMining u => ethMining u n
  | EthHashrate u => ethHashrate u n
  | EthBlockNumber u => ethBlockNumber u n
  | EthSyncing u => ethSyncing u n
  | EthGetBalance u a => ethGetBalance u a n
  | NetPeerCount u => netPeerCount u n
  | NetVersion u => netVersion u n
  | GetBalancePreferLocal u a => getBalancePreferLocal u a n
  end.

(** Calls made one after the other, each awaited; the state they leave. *)
Fixpoint session (cs : list ApiCall) (n : Net) : Net :=
  match cs with
  | [] => n
  | c :: rest => session rest (snd (call c n))
  end.

End WithNetwork.

(** The module as loaded: no request sent, [rpcId] is 0. *)
Definition initialNet : Net := {| rpcId := 0; sent := [] |}.

End NetworkService.

(** ** Buffers: bytes, XOR and base64 *)

Module Buffer.

Definition bits8 : Type :=
  (bool * (bool * (bool * (bool * (bool * (bool * (bool * bool)))))))%type.

(** [a ^ b] on two bytes *)
Definition xor (a b : byte) : byte :=
  let '(a0, (a1, (a2, (a3, (a4, (a5, (a6, a7))))))) := Byte.to_bits a in
  let '(b0, (b1, (b2, (b3, (b4, (b5, (b6, b7))))))) := Byte.to_bits b in
  Byte.of_bits (xorb a0 b0, (xorb a1 b1, (xorb a2 b2, (xorb a3 b3,
               (xorb a4 b4, (xorb a5 b5, (xorb a6 b6, xorb a7 b7))))))).

(** [Buffer.from(s, 'utf8')] and [buf.toString('utf8')].  A string being
    the bytes of its UTF-8 encoding, both are the identity on well-formed
    text.  Bytes that are not well-formed UTF-8 stand for no string: Node
    decodes them to U+FFFD, which this representation does not follow. *)
Definition from_utf8 (s : string) : list byte := list_byte_of_string s.
Definition toString_utf8 (buf : list byte) : string := string_of_list_byte buf.

(** A base64 digit: six bits, most significant first. *)
Definition sextet : Type := (bool * bool * bool * bool * bool * bool)%type.

Definition sextetIndex (s : sextet) : nat :=
  let '(b5, b4, b3, b2, b1, b0) := s in
  (Nat.b2n b5 * 32 + Nat.b2n b4 * 16 + Nat.b2n b3 * 8
   + Nat.b2n b2 * 4 + Nat.b2n b1 * 2 + Nat.b2n b0)%nat.

Definition alphabet : string :=
  "ABCDEFGHIJKLMNOPQRSTUVWXYZabcdefghijklmnopqrstuvwxyz0123456789+/".

Definition sextetChar (s : sextet) : ascii :=
  match String.get (sextetIndex s) alphabet with
  | Some c => c
  | None => "A"%char
  end.

Definition indexSextet (n : N) : sextet :=
  (N.testbit n 5, N.testbit n 4, N.testbit n 3,
   N.testbit n 2, N.testbit n 1, N.testbit n 0).

(** The digit a character stands for; the decoder also reads the URL-safe
    characters [-] and [_]. *)
Definition charSextet (c : ascii) : option sextet :=
  let n := N_of_ascii c in
  (if (65 <=? n) && (n <=? 90) then Some (indexSextet (n - 65))
   else if (97 <=? n) && (n <=? 122) then Some (indexSextet (n - 71))
   else if (48 <=? n) && (n <=? 57) then Some (indexSextet (n + 4))
   else if (n =? 43) || (n =? 45) then Some (indexSextet 62)
   else if (n =? 47) || (n =? 95) then Some (indexSextet 63)
   else None)%N.

Definition bits (b : byte) : bits8 := Byte.to_bits b.

(** [buf.toString('base64')]: three bytes give four digits; a final group
    of one or two bytes is padded with [=]. *)
Fixpoint toString_base64 (buf : list byte) : string :=
  match buf with
  | x :: y :: z :: rest =>
      let '(x0, (x1, (x2, (x3, (x4, (x5, (x6, x7))))))) := bits x in
      let '(y0, (y1, (y2, (y3, (y4, (y5, (y6, y7))))))) := bits y in
      let '(z0, (z1, (z2, (z3, (z4, (z5, (z6, z7))))))) := bits z in
      String (sextetChar (x7, x6, x5, x4, x3, x2))
     (String (sextetChar (x1, x0, y7, y6, y5, y4))
     (String (sextetChar (y3, y2, y1, y0, z7, z6))
     (String (sextetChar (z5, z4, z3, z2, z1, z0))
             (toString_base64 rest))))
  | [x; y] =>
      let '(x0, (x1, (x2, (x3, (x4, (x5, (x6, x7))))))) := bits x in
      let '(y0, (y1, (y2, (y3, (y4, (y5, (y6, y7))))))) := bits y in
      String (sextetChar (x7, x6, x5, x4, x3, x2))
     (String (sextetChar (x1, x0, y7, y6, y5, y4))
     (String (sextetChar (y3, y2, y1, y0, false, false)) "="))
  | [x] =>
      let '(x0, (x1, (x2, (x3, (x4, (x5, (x6, x7))))))) := bits x in
      String (sextetChar (x7, x6, x5, x4, x3, x2))
     (String (sextetChar (x1, x0, false, false, false, false)) "==")
  | [] => ""
  end.

(** The digits of an encoded string: reading stops at the first [=];
    characters outside the alphabet are skipped. *)
Fixpoint digits (s : string) : list sextet :=
  match s with
  | EmptyString => []
  | String c r =>
      if Ascii.eqb c "=" then []
      else match charSextet c with
           | Some d => d :: digits r
           | None => digits r
           end
  end.

(** Four digits give three bytes; three give two; two give one. *)
Fixpoint pack (ds : list sextet) : list byte :=
  match ds with
  | (a5, a4, a3, a2, a1, a0) :: (b5, b4, b3, b2, b1, b0)
    :: (c5, c4, c3, c2, c1, c0) :: (d5, d4, d3, d2, d1, d0) :: rest =>
      Byte.of_bits (b4, (b5, (a0, (a1, (a2, (a3, (a4, a5)))))))
      :: Byte.of_bits (c2, (c3, (c4, (c5, (b0, (b1, (b2, b3)))))))
      :: Byte.of_bits (d0, (d1, (d2, (d3, (d4, (d5, (c0, c1)))))))
      :: pack rest
  | [(a5, a4, a3, a2, a1, a0); (b5, b4, b3, b2, b1, b0);
     (c5, c4, c3, c2, c1, c0)] =>
      [Byte.of_bits (b4, (b5, (a0, (a1, (a2, (a3, (a4, a5)))))));
       Byte.of_bits (c2, (c3, (c4, (c5, (b0, (b1, (b2, b3)))))))]
  | [(a5, a4, a3, a2, a1, a0); (b5, b4, b3, b2, b1, b0)] =>
      [Byte.of_bits (b4, (b5, (a0, (a1, (a2, (a3, (a4, a5)))))))]
  | _ => []
  end.

(** [Buffer.from(s, 'base64')] *)
Definition from_base64 (s : string) : list byte := pack (digits s).

End Buffer.

(** ** services/WalletService.ts *)

Inductive WalletMode := full | address_only.

Record WalletInfo := {
  wiAddress : string;
  wiMode : WalletMode;
  wiHasMnemonic : bool;
  wiHasPrivateKey : bool;
}.

Module WalletService.

(** The character class [[a-fA-F0-9]] *)
Definition isHexDigit (c : ascii) : bool :=
  let n := N_of_ascii c in
  ((97 <=? n) && (n <=? 102) || (65 <=? n) && (n <=? 70)
   || (48 <=? n) && (n <=? 57))%N.

(** [[a-fA-F0-9]{n}$]: exactly [n] hex digits up to the end of input *)
Fixpoint hexDigitsToEnd (n : nat) (s : string) : bool :=
  match n, s with
  | O, EmptyString => true
  | S n', String c r => isHexDigit c && hexDigitsToEnd n' r
  | _, _ => false
  end.

(** Validate an Ethereum address: [/^0x[a-fA-F0-9]{40}$/.test(address)] *)
Definition isValidAddress (address : string) : bool :=
  match address with
  | String "0" (String "x" r) => hexDigitsToEnd 40 r
  | _ => false
  end.

(** The loop [for (i = 0; i < buf.length; i++) buf[i] ^= key[i % key.length]];
    when [key] is empty [key[NaN]] is undefined and the byte is unchanged. *)
Fixpoint xorLoop (key : list byte) (i : nat) (buf : list byte) : list byte :=
  match buf with
  | [] => []
  | b :: r =>
      Buffer.xor b (nth (i mod List.length key) key x00)
      :: xorLoop key (S i) r
  end.

Definition simpleObfuscate (data password : string) : string :=
  let buf := Buffer.from_utf8 data in
  let key := Buffer.from_utf8 password in
  Buffer.toString_base64 (xorLoop key 0 buf).

Definition simpleDeobfuscate (encoded password : string) : string :=
  let buf := Buffer.from_base64 encoded in
  let key := Buffer.from_utf8 password in
  Buffer.toString_utf8 (xorLoop key 0 buf).

Section WithHost.
Variable h : Host.

Definition miningAddressFile : Fs.path :=
  Fs.join (Paths.getMarsCreditDir h) ["mining_address.txt"].

(** Address-only: no keys stored, just the address for miner etherbase. *)
Definition setAddressOnly (address : string) : M unit :=
  if negb (isValidAddress address) then throw (Error "Invalid address")
  else
    let dir := Paths.getMarsCreditDir h in
    run onFs (Fs.mkdirSync dir);
    let file := Fs.join dir ["mining_address.txt"] in
    run onFs (Fs.writeFileSync file address);
    Logger.info h "Address-only mining address set".

(** [parsed.address ? (startsWith('0x') ? address : '0x' + address) : null] *)
Definition canonical (address : option string) : option string :=
  match address with
  | Some a =>
      if NetworkService.truthy a
      then Some (if Js.startsWith a "0x" then a else "0x" +:+ a)
      else None
  | None => None
  end.

(** Get stored mining address (from address-only file or first keystore in
    a miner). *)
Definition getStoredMiningAddress (minerIndex : option Z) : M (option string) :=
  let dir := Paths.getMarsCreditDir h in
  let addressFile := Fs.join dir ["mining_address.txt"] in
  do present <- existsSync addressFile;
  if present then
    do content <- readFs (Fs.readFileSync addressFile);
    ret (Some (Js.trim content))
  else
    match minerIndex with
    | Some i =>
        let keystoreDir := Paths.getMinerKeystoreDir h i in
        do hasDir <- existsSync keystoreDir;
        if hasDir then
          do names <- readFs (Fs.readdirSync keystoreDir);
          match List.filter (fun f => Js.startsWith f "UTC--") names with
          | first :: _ =>
              let file := Fs.join keystoreDir [first] in
              do content <- readFs (Fs.readFileSync file);
              do address <- (fun w => (jsonAddress h content, w));
              ret (canonical address)
          | [] => ret None
          end
        else ret None
    | None => ret None
    end.

(** Save mnemonic to encrypted file (simple obfuscation with password). *)
Definition saveMnemonic (mnemonic password : string) : M unit :=
  let encPath := Paths.getWalletEncPath h in
  let dir := Fs.dirname encPath in
  run onFs (Fs.mkdirSync dir);
  let encoded := simpleObfuscate mnemonic password in
  run onFs (Fs.writeFileSync encPath encoded);
  run onFs (Fs.chmodSync encPath);
  Logger.info h "Mnemonic saved to encrypted store".

(** Load mnemonic from encrypted file; [None] is [null]. *)
Definition loadMnemonic (password : string) : M (option string) :=
  let encPath := Paths.getWalletEncPath h in
  do present <- existsSync encPath;
  if negb present then ret None
  else
    catch (do encoded <- readFs (Fs.readFileSync encPath);
           ret (Some (simpleDeobfuscate encoded password)))
          (fun _ => ret None).

(** Get wallet info for UI (address, mode, whether we have mnemonic/key);
    [None] is [null]. *)
Definition getWalletInfo (minerIndex : option Z) : M (option WalletInfo) :=
  do address <- getStoredMiningAddress minerIndex;
  match address with
  | None => ret None
  | Some a =>
      if negb (NetworkService.truthy a) then ret None
      else
        let encPath := Paths.getWalletEncPath h in
        do hasMnemonic <- existsSync encPath;
        do hasKeystore <-
          match minerIndex with
          | Some i =>
              let keystoreDir := Paths.getMinerKeystoreDir h i in
              do present <- existsSync keystoreDir;
              if present then
                do names <- readFs (Fs.readdirSync keystoreDir);
                ret (existsb (fun f => Js.startsWith f "UTC--") names)
              else ret false
          | None => ret false
          end;
        ret (Some {| wiAddress := a;
                     wiMode := if hasKeystore || hasMnemonic
                               then full else address_only;
                     wiHasMnemonic := hasMnemonic;
                     wiHasPrivateKey := hasKeystore |})
  end.

End WithHost.
End WalletService.

(** ** services/GenesisInit.ts *)

Module GenesisInit.
Section WithHost.
Variable h : Host.

Definition CHAINDATA_DIR : list string := ["geth"; "chaindata"].

(** Resolve path to genesis.json (packaged resources first, then the
    application directory, then relative to the service's own directory). *)
Definition getGenesisPath : M Fs.path :=
  fun w =>
    let packaged :=
      match isPackaged h, resourcesPath h with
      | true, Some r =>
          let p := Fs.join r ["genesis.json"] in
          if Fs.existsSync (fs w) p then Some p else None
      | _, _ => None
      end in
    match packaged with
    | Some p => (Ok p, w)
    | None =>
        let fromApp := Fs.join (appPath h) ["resources"; "genesis.json"] in
        if Fs.existsSync (fs w) fromApp then (Ok fromApp, w)
        else
          let fromDir :=
            Fs.join (Fs.dirname (Fs.dirname (servicesDir h)))
                    ["resources"; "genesis.json"] in
          if Fs.existsSync (fs w) fromDir then (Ok fromDir, w)
          else (Throw (Error "genesis.json not found in resources"), w)
    end.

(** [execSync] of geth init: the run is recorded, and the host decides
    what it does to the files and whether it exits with status 0. *)
Definition execGethInit (c : InitCall) : M unit :=
  fun w =>
    let w1 := add_exec c w in
    match gethInit h c (fs w1) with
    | Ok fs' => (Ok tt, set_fs fs' w1)
    | Throw e => (Throw e, w1)
    end.

(** Ensure miner data dir exists and run geth init if chaindata does not
    exist. *)
Definition initMinerDataDir (gethBinaryPath : string) (minerIndex : Z)
    (genesisPath : option Fs.path) : M unit :=
  let dataDir := Paths.getMinerDataDir h minerIndex in
  let chaindataDir := Fs.join dataDir CHAINDATA_DIR in
  do initialised <- existsSync chaindataDir;
  if initialised then
    Logger.debug h "Chaindata exists, skipping genesis init"
  else
    do genesis <- match genesisPath with
                  | Some g => ret g
                  | None => getGenesisPath
                  end;
    do found <- existsSync genesis;
    if negb found
    then throw (Error ("Genesis file not found: " +:+ Fs.toString genesis))
    else
      run onFs (Fs.mkdirSync dataDir);
      run onFs (Fs.mkdirSync (Fs.join dataDir ["keystore"]));
      run onFs (Fs.mkdirSync (Fs.join dataDir ["logs"]));
      run Logger.info h "Initializing miner data dir with Mars Credit genesis";
      catch
        (run execGethInit {| initBinary := gethBinaryPath;
                             initDataDir := dataDir;
                             initGenesis := genesis |};
         Logger.info h "Genesis initialization successful")
        (fun e =>
           run Logger.error h "Genesis init failed";
           throw (Error ("geth init failed: " +:+ message e))).

End WithHost.
End GenesisInit.

(** ** services/MinerInstance.ts *)

Record MinerInstanceConfig := {
  minerIndex : Z;
  gethBinaryPath : string;
  minerThreads : option Z;
  cacheMB : option Z;
  etherbase : option string;
}.

(** A property of a partial configuration object: missing, or present with
    a value ([None] when the value is [undefined]). *)
Inductive property (A : Type) :=
| Absent
| Present (v : option A).
Arguments Absent {A}.
Arguments Present {A} v.

(** [Partial<MinerInstanceConfig>], the configuration object that
    [getOrCreateInstance], [addTab] and [startMiner] accept and hand to
    [updateConfig] as it is.  [minerIndex] and [gethBinaryPath] are
    declared [number] and [string]: an object that carries one of them
    carries a value.  The three optional properties may also be present
    with the value [undefined]. *)
Record ConfigUpdates := {
  uMinerIndex : option Z;
  uGethBinaryPath : option string;
  uMinerThreads : property Z;
  uCacheMB : property Z;
  uEtherbase : property string;
}.

(** The handle returned by [spawn].  When the spawn fails the handle has
    no pid, and Node gives it its exit code, the negative error number,
    on the next tick. *)
Record ChildProcess := {
  pid : option Z;
  exitCode : option Z;
}.

Record MinerInstance := {
  config : MinerInstanceConfig;
  process : option ChildProcess;
  healthCheckTimer : bool;        (* an interval is set *)
  healthFailures : Z;
}.

Record Ports := { http : Z; ws : Z; p2p : Z }.

(** The outcome of the health probe's [fetch]: a response with its [ok]
    flag (status 200..299), or a rejected promise. *)
Inductive ProbeReply :=
| Responded (ok : bool)
| Rejected.

Module MinerInstance.

Definition NETWORK_ID : Z := 110110.

Definition BOOTNODES : string :=
  "enode://bf93a274569cd009e4172c1a41b8bde1fb8d8e7cff1e5130707a0cf5be4ce0fc673c8a138ecb7705025ea4069da8c1d4b7ffc66e8666f7936aa432ce57693353@roundhouse.proxy.rlwy.net:50590," +:+
  "enode://ca3639067a580a0f1db7412aeeef6d5d5e93606ed7f236a5343fe0d1115fb8c2bea2a22fa86e9794b544f886a4cb0de1afcbccf60960802bf00d81dab9553ec9@monorail.proxy.rlwy.net:26254," +:+
  "enode://7f2ee75a1c112735aaa43de1e5a6c4d7e07d03a5352b5782ed8e0c7cc046a8c8839ad093b09649e0b4a6ed8900211fb4438765c99d07bb00006ef080a1aa9ab6@viaduct.proxy.rlwy.net:30270," +:+
  "enode://98710174f4798dae1931e417944ac7a7fb3268d38ef8d3941c8fcc44fe178b118003d8b3d61d85af39c561235a1708f8dd61f8ba47df4c4a6b9156e272af2cfc@monorail.proxy.rlwy.net:29138".

Definition getPorts (minerIndex : Z) : Ports :=
  let i := minerIndex - 1 in
  {| http := 8546 + i * 2;
     ws := 8547 + i * 2;
     p2p := 30304 + i |}.

Definition maxHealthFailures : Z := 3.
Definition healthCheckIntervalMs : Z := 5000.

(** [new MinerInstance(config)] *)
Definition new (config : MinerInstanceConfig) : MinerInstance :=
  {| config := config; process := None;
     healthCheckTimer := false; healthFailures := 0 |}.

Definition set_config (c : MinerInstanceConfig) (inst : MinerInstance) :=
  {| config := c; process := process inst;
     healthCheckTimer := healthCheckTimer inst;
     healthFailures := healthFailures inst |}.

Definition set_process (p : option ChildProcess) (inst : MinerInstance) :=
  {| config := config inst; process := p;
     healthCheckTimer := healthCheckTimer inst;
     healthFailures := healthFailures inst |}.

Definition set_healthCheckTimer (t : bool) (inst : MinerInstance) :=
  {| config := config inst; process := process inst;
     healthCheckTimer := t;
     healthFailures := healthFailures inst |}.

Definition set_healthFailures (n : Z) (inst : MinerInstance) :=
  {| config := config inst; process := process inst;
     healthCheckTimer := healthCheckTimer inst;
     healthFailures := n |}.

(** [get minerIndex()] *)
Definition getMinerIndex (inst : MinerInstance) : Z :=
  minerIndex (config inst).

Definition httpPort (inst : MinerInstance) : Z :=
  http (getPorts (minerIndex (config inst))).

Definition rpcUrl (inst : MinerInstance) : string :=
  "http://localhost:" +:+ Js.String_of_number (httpPort inst).

Definition isRunning (inst : MinerInstance) : bool :=
  match process inst with
  | Some p => match exitCode p with None => true | Some _ => false end
  | None => false
  end.

Definition getPid (inst : MinerInstance) : option Z :=
  match process inst with
  | Some p => pid p
  | None => None
  end.

(** Whether the instance owns the handle of a spawn that failed and has
    not been told so yet. *)
Definition spawnErrorPending (inst : MinerInstance) : bool :=
  match process inst with
  | Some p =>
      match pid p, exitCode p with
      | None, None => true
      | _, _ => false
      end
  | None => false
  end.

(** Truthiness of an optional number ([undefined], and [0], are falsy). *)
Definition truthyNumber (n : option Z) : bool :=
  match n with
  | Some v => negb (Z.eqb v 0)
  | None => false
  end.

(** The argument vector composed in [start]. *)
Definition gethArgs (dataDir keystoreDir : Fs.path) (c : MinerInstanceConfig) :
    list string :=
  let ports := getPorts (minerIndex c) in
  let threads := default 1 (minerThreads c) in
  let cache := default 4096 (cacheMB c) in
  [ "--datadir"; Fs.toString dataDir;
    "--keystore"; Fs.toString keystoreDir;
    "--syncmode"; "full";
    "--gcmode"; "full";
    "--http"; "--http.addr"; "localhost"; "--http.port";
      Js.String_of_number (http ports);
    "--http.api"; "personal,eth,net,web3,miner,admin,debug";
    "--http.vhosts"; "*"; "--http.corsdomain"; "*";
    "--ws"; "--ws.addr"; "localhost"; "--ws.port";
      Js.String_of_number (ws ports);
    "--ws.api"; "personal,eth,net,web3,miner,admin,debug";
    "--port"; Js.String_of_number (p2p ports);
    "--networkid"; Js.String_of_number NETWORK_ID;
    "--bootnodes"; BOOTNODES;
    "--nat"; "any";
    "--mine"; "--miner.threads"; Js.String_of_number threads;
    "--verbosity"; "3";
    "--maxpeers"; "50";
    "--cache"; Js.String_of_number cache;
    "--cache.database"; "75";
    "--cache.trie"; "25";
    "--cache.gc"; "25";
    "--cache.snapshot"; "10";
    "--txpool.globalslots"; "8192";
    "--txpool.globalqueue"; "2048";
    "--nousb";
    "--metrics";
    "--allow-insecure-unlock";
    "--snapshot" ]
  ++ match etherbase c with
     | Some e => if NetworkService.truthy e
                 then ["--miner.etherbase"; e] else []
     | None => []
     end.

Definition startHealthCheck (inst : MinerInstance) : MinerInstance :=
  set_healthCheckTimer true (set_healthFailures 0 inst).

Definition stopHealthCheck (inst : MinerInstance) : MinerInstance :=
  if healthCheckTimer inst then set_healthCheckTimer false inst else inst.

(** [{ ...this.config, ...updates }]: every property present in [updates]
    replaces the current value, also when its value is [undefined].  The
    parameter of [updateConfig] is declared with the three optional
    properties, but [getOrCreateInstance] passes the whole object it was
    given, and the spread copies whatever the object carries. *)
Definition spread {A} (current : option A) (u : property A) : option A :=
  match u with
  | Absent => current
  | Present v => v
  end.

Definition updateConfig (updates : ConfigUpdates) (inst : MinerInstance) :
    MinerInstance :=
  let c := config inst in
  set_config
    {| minerIndex := default (minerIndex c) (uMinerIndex updates);
       gethBinaryPath := default (gethBinaryPath c) (uGethBinaryPath updates);
       minerThreads := spread (minerThreads c) (uMinerThreads updates);
       cacheMB := spread (cacheMB c) (uCacheMB updates);
       etherbase := spread (etherbase c) (uEtherbase updates) |}
    inst.

Section WithHost.
Variable h : Host.

(** [if (fs.existsSync(pidPath)) { try { fs.unlinkSync(pidPath) } catch {} }] *)
Definition removePidFile (pidPath : Fs.path) : World -> World :=
  fun w =>
    if Fs.existsSync (fs w) pidPath
    then match Fs.unlinkSync pidPath (fs w) with
         | Ok fs' => set_fs fs' w
         | Throw _ => w
         end
    else w.

(** Start Geth. Ensures genesis init, then spawns process.  The instance
    is returned as the call leaves it, also when the call throws.  A spawn
    that fails does not throw: the handle has no pid, and the failure is
    delivered on the next tick ([onSpawnError]). *)
Definition start (inst : MinerInstance) (w : World) :
    result unit * MinerInstance * World :=
  match process inst with
  | Some _ =>
      let '(r, w1) := Logger.warn h "MinerInstance already running" w in
      (r, inst, w1)
  | None =>
      let c := config inst in
      let dataDir := Paths.getMinerDataDir h (minerIndex c) in
      let keystoreDir := Paths.getMinerKeystoreDir h (minerIndex c) in
      let logsDir := Paths.getMinerLogsDir h (minerIndex c) in
      let args := gethArgs dataDir keystoreDir c in
      let prepare : M unit :=
        run GenesisInit.initMinerDataDir h (gethBinaryPath c) (minerIndex c) None;
        run onFs (Fs.mkdirSync logsDir);
        Logger.info h "Spawning Geth" in
      match prepare w with
      | (Throw e, w1) => (Throw e, inst, w1)
      | (Ok _, w1) =>
          let newPid := assignPid h (gethBinaryPath c) args w1 in
          let proc := {| pid := newPid; exitCode := None |} in
          let w2 := add_spawn {| spawnCommand := gethBinaryPath c;
                                 spawnArgs := args;
                                 spawnCwd := dataDir;
                                 spawnDetached := negb (win32 h);
                                 spawnPid := newPid |} w1 in
          let inst1 := set_process (Some proc) inst in
          let pidPath := Paths.getMinerPidPath h (minerIndex c) in
          let writePid : M unit :=
            match newPid with
            | Some n =>
                if truthyNumber newPid
                then onFs (Fs.writeFileSync pidPath (Js.String_of_number n))
                else ret tt
            | None => ret tt
            end in
          match writePid w2 with
          | (Throw e, w3) => (Throw e, inst1, w3)
          | (Ok _, w3) => (Ok tt, startHealthCheck inst1, w3)
          end
      end
  end.

(** Graceful shutdown: SIGTERM, then SIGKILL after 5s. *)
Definition stop (inst : MinerInstance) (w : World) : MinerInstance * World :=
  match process inst with
  | None => (inst, w)
  | Some proc =>
      let inst1 := stopHealthCheck (set_process None inst) in
      let pidPath := Paths.getMinerPidPath h (minerIndex (config inst)) in
      let w1 := removePidFile pidPath w in
      let w2 :=
        match pid proc with
        | Some n =>
            if truthyNumber (pid proc) && negb (win32 h)
            then if killThrows h n SIGTERM w1
                 then add_signal (pid proc) SIGKILL w1
                 else add_signal (pid proc) SIGTERM w1
            else add_signal (pid proc) SIGTERM w1
        | None => add_signal None SIGTERM w1
        end in
      (inst1, add_killTimer (pid proc) w2)
  end.

(** The handler registered with [proc.on('exit', ...)]. *)
Definition onExit (inst : MinerInstance) (w : World) :
    result unit * MinerInstance * World :=
  let inst1 := stopHealthCheck (set_process None inst) in
  let pidPath := Paths.getMinerPidPath h (minerIndex (config inst)) in
  let w1 := removePidFile pidPath w in
  let '(r, w2) := Logger.info h "MinerInstance exited" w1 in
  (r, inst1, w2).

(** The tick after a [spawn] that failed.  Node gives the handle its exit
    code and emits ['error'] on it; the handler registered with
    [proc.on('error', ...)] logs, then emits ['error'] on the instance,
    where no listener is registered: the emitter throws the error, and
    nobody catches it (nor what the logger may have thrown before);
    Electron reports such an error and goes on.  [failure] is the error
    number and the error; the instance still owns the handle. *)
Definition onSpawnError (failure : Z * error) (inst : MinerInstance)
    (w : World) : MinerInstance * World :=
  let '(errno, err) := failure in
  let inst1 :=
    match process inst with
    | Some p =>
        set_process (Some {| pid := pid p; exitCode := Some errno |}) inst
    | None => inst
    end in
  match Logger.error h "MinerInstance process error" w with
  | (Ok _, w1) => (inst1, add_uncaught err w1)
  | (Throw e, w1) => (inst1, add_uncaught e w1)
  end.

(** What Node runs between the return of [start] and the moment a caller
    that awaits it, from an event handler, goes on: the tick of the spawn,
    if it failed. *)
Definition nextTick (inst : MinerInstance) (w : World) :
    MinerInstance * World :=
  if spawnErrorPending inst
  then onSpawnError (spawnFailure h (gethBinaryPath (config inst)) w) inst w
  else (inst, w).

(** [checkHealth], first part: the guard evaluated when the interval
    fires.  [true] when the probe is sent. *)
Definition checkHealthGuard (inst : MinerInstance) : bool :=
  match process inst with
  | None => false
  | Some p => match exitCode p with Some _ => false | None => true end
  end.

(** [checkHealth], second part: what runs once the probe has been
    answered.  The boolean tells whether [this.stop()] was invoked. *)
Definition checkHealthResume (reply : ProbeReply) (inst : MinerInstance)
    (w : World) : result bool * MinerInstance * World :=
  match reply with
  | Responded true => (Ok false, set_healthFailures 0 inst, w)
  | _ =>
      let inst1 := set_healthFailures (healthFailures inst + 1) inst in
      if Z.leb maxHealthFailures (healthFailures inst1)
      then match Logger.warn h
                   "MinerInstance health check failed repeatedly, stopping" w with
           | (Ok _, w1) =>
               let '(inst2, w2) := stop inst1 w1 in
               (Ok true, inst2, w2)
           | (Throw e, w1) => (Throw e, inst1, w1)
           end
      else (Ok false, inst1, w)
  end.

End WithHost.
End MinerInstance.

(** ** services/MinerService.ts *)

(** An entry of [configCache]. *)
Record CachedConfig := {
  cMinerThreads : Z;
  cCacheMB : Z;
  cEtherbase : option string;
}.

Record MinerTabState := {
  tsMinerIndex : Z;
  tsRunning : bool;
  tsPid : option Z;
  tsRpcUrl : string;
  tsConfig : CachedConfig;
}.

(** The ['minerState'] events the service emits. *)
Inductive ServiceEvent :=
| Started (minerIndex : Z) (pid : option Z) (rpcUrl : string)
          (config : CachedConfig)
| Stopped (minerIndex : Z).

Record MinerService := {
  instances : gmap Z MinerInstance;
  configCache : gmap Z CachedConfig;
  gethPath : string;
  emitted : list ServiceEvent;
}.

Module MinerService.

Definition defaultConfig : CachedConfig :=
  {| cMinerThreads := 1; cCacheMB := 4096; cEtherbase := None |}.

Definition set_instances (m : gmap Z MinerInstance) (s : MinerService) :=
  {| instances := m; configCache := configCache s;
     gethPath := gethPath s; emitted := emitted s |}.

Definition set_configCache (m : gmap Z CachedConfig) (s : MinerService) :=
  {| instances := instances s; configCache := m;
     gethPath := gethPath s; emitted := emitted s |}.

Definition emit (e : ServiceEvent) (s : MinerService) :=
  {| instances := instances s; configCache := configCache s;
     gethPath := gethPath s; emitted := emitted s ++ [e] |}.

(** Set path to Geth binary (e.g. after download). *)
Definition setGethPath (path : string) (s : MinerService) :=
  {| instances := instances s; configCache := configCache s;
     gethPath := path; emitted := emitted s |}.

(** [config?.field]: the value read from an optional partial config. *)
Definition read {A} (config : option ConfigUpdates)
    (field : ConfigUpdates -> property A) : option A :=
  match config with
  | Some c => match field c with Present v => v | Absent => None end
  | None => None
  end.

(** [a ?? b] *)
Definition nullish {A} (a : option A) (b : A) : A :=
  match a with Some v => v | None => b end.

Definition nullishOpt {A} (a b : option A) : option A :=
  match a with Some v => Some v | None => b end.

(** Get or create miner instance. Tab indices are 1-based. *)
Definition getOrCreateInstance (minerIndex : Z) (config : option ConfigUpdates)
    (s : MinerService) : MinerInstance * MinerService :=
  let cached := nullish (configCache s !! minerIndex) defaultConfig in
  let merged :=
    {| cMinerThreads := nullish (read config uMinerThreads) (cMinerThreads cached);
       cCacheMB := nullish (read config uCacheMB) (cCacheMB cached);
       cEtherbase := nullishOpt (read config uEtherbase) (cEtherbase cached) |} in
  let s1 := set_configCache (<[minerIndex := merged]> (configCache s)) s in
  match instances s1 !! minerIndex with
  | None =>
      let inst :=
        MinerInstance.new
          {| minerIndex := minerIndex;
             gethBinaryPath := gethPath s1;
             minerThreads := Some (cMinerThreads merged);
             cacheMB := Some (cCacheMB merged);
             etherbase := cEtherbase merged |} in
      (inst, set_instances (<[minerIndex := inst]> (instances s1)) s1)
  | Some inst =>
      match config with
      | Some c =>
          let inst1 := MinerInstance.updateConfig c inst in
          (inst1, set_instances (<[minerIndex := inst1]> (instances s1)) s1)
      | None => (inst, s1)
      end
  end.

(** Ascending insertion, the comparator being [(a, b) => a - b]. *)
Fixpoint insertSorted (x : Z) (l : list Z) : list Z :=
  match l with
  | [] => [x]
  | y :: r => if Z.leb x y then x :: l else y :: insertSorted x r
  end.

(** [Array.from(this.instances.keys()).sort((a, b) => a - b)] *)
Definition getTabIndices (s : MinerService) : list Z :=
  fold_right insertSorted [] (fst <$> map_to_list (instances s)).

(** [Math.max(x, ...xs)] *)
Definition Math_max (x : Z) (xs : list Z) : Z := fold_left Z.max xs x.

(** Add a new miner tab. Returns the new miner index. *)
Definition addTab (config : option ConfigUpdates) (s : MinerService) :
    Z * MinerService :=
  let existing := getTabIndices s in
  let nextIndex :=
    match existing with
    | [] => 1
    | x :: xs => Math_max x xs + 1
    end in
  (nextIndex, snd (getOrCreateInstance nextIndex config s)).

(** Get state for a miner; [None] is [null]. *)
Definition getMinerState (minerIndex : Z) (s : MinerService) :
    option MinerTabState :=
  match instances s !! minerIndex with
  | None => None
  | Some inst =>
      let cached := nullish (configCache s !! minerIndex) defaultConfig in
      Some {| tsMinerIndex := MinerInstance.getMinerIndex inst;
              tsRunning := MinerInstance.isRunning inst;
              tsPid := MinerInstance.getPid inst;
              tsRpcUrl := MinerInstance.rpcUrl inst;
              tsConfig := {| cMinerThreads := cMinerThreads cached;
                             cCacheMB := cCacheMB cached;
                             cEtherbase := cEtherbase cached |} |}
  end.

(** Get RPC URL for a miner (for NetworkService). *)
Definition getRpcUrl (minerIndex : Z) (s : MinerService) : option string :=
  MinerInstance.rpcUrl <$> instances s !! minerIndex.

(** The entries of [this.instances] as an iteration visits them.  A [Map]
    iterates in insertion order, which the registry does not record:
    [order] is that enumeration of the keys. *)
Definition entries (order : list Z) (s : MinerService) :
    list (Z * MinerInstance) :=
  omap (fun idx => (fun inst => (idx, inst)) <$> instances s !! idx) order.

(** Get indices of miners that are currently running (for sleep/wake
    resume). *)
Definition getRunningMinerIndices (order : list Z) (s : MinerService) :
    list Z :=
  fst <$> List.filter (fun e => MinerInstance.isRunning (snd e))
                      (entries order s).

Section WithHost.
Variable h : Host.

(** The service's initial state: no tab, the default binary path. *)
Definition initial : MinerService :=
  {| instances := ∅; configCache := ∅;
     gethPath := Fs.toString (Paths.getGethBinaryPath h);
     emitted := [] |}.

(** Remove a miner tab. Stops the miner if running. *)
Definition removeTab (minerIndex : Z) (s : MinerService) (w : World) :
    MinerService * World :=
  match instances s !! minerIndex with
  | Some inst =>
      let '(_, w1) := MinerInstance.stop h inst w in
      (set_configCache (delete minerIndex (configCache s))
         (set_instances (delete minerIndex (instances s)) s), w1)
  | None => (s, w)
  end.

(** Start a miner by index: the function up to [await inst.start()].
    [Ok true] when it is suspended there on a fulfilled promise, [Ok false]
    when it has returned because the miner is running, [Throw e] when its
    promise will be rejected. *)
Definition startMinerBegin (minerIndex : Z) (config : option ConfigUpdates)
    (s : MinerService) (w : World) : result bool * MinerService * World :=
  let '(inst, s1) := getOrCreateInstance minerIndex config s in
  if MinerInstance.isRunning inst then
    let '(r, w1) := Logger.info h "Miner already running" w in
    (match r with Ok _ => Ok false | Throw e => Throw e end, s1, w1)
  else
    let '(r, inst1, w1) := MinerInstance.start h inst w in
    let s2 := set_instances (<[minerIndex := inst1]> (instances s1)) s1 in
    (match r with Ok _ => Ok true | Throw e => Throw e end, s2, w1).

(** The tick Node runs for the instance of tab [minerIndex] before a
    suspended [startMiner] goes on. *)
Definition spawnTick (minerIndex : Z) (s : MinerService) (w : World) :
    MinerService * World :=
  match instances s !! minerIndex with
  | Some inst =>
      let '(inst1, w1) := MinerInstance.nextTick h inst w in
      (set_instances (<[minerIndex := inst1]> (instances s)) s, w1)
  | None => (s, w)
  end.

(** [startMiner] from the [await] on: the ['minerState'] event, which
    says [running: true] whatever the instance says.  The instance the
    function holds is the one the registry has for the tab. *)
Definition startMinerEnd (minerIndex : Z) (s : MinerService) : MinerService :=
  match instances s !! minerIndex with
  | Some inst =>
      let cached := nullish (configCache s !! minerIndex) defaultConfig in
      emit (Started minerIndex (MinerInstance.getPid inst)
                    (MinerInstance.rpcUrl inst) cached) s
  | None => s
  end.

(** Start a miner by index, awaited by an event handler. *)
Definition startMiner (minerIndex : Z) (config : option ConfigUpdates)
    (s : MinerService) (w : World) : result unit * MinerService * World :=
  let '(r, s1, w1) := startMinerBegin minerIndex config s w in
  match r with
  | Ok true =>
      let '(s2, w2) := spawnTick minerIndex s1 w1 in
      (Ok tt, startMinerEnd minerIndex s2, w2)
  | Ok false => (Ok tt, s1, w1)
  | Throw e => (Throw e, s1, w1)
  end.

(** Stop a miner by index. *)
Definition stopMiner (minerIndex : Z) (s : MinerService) (w : World) :
    MinerService * World :=
  match instances s !! minerIndex with
  | Some inst =>
      let '(inst1, w1) := MinerInstance.stop h inst w in
      (emit (Stopped minerIndex)
         (set_instances (<[minerIndex := inst1]> (instances s)) s), w1)
  | None => (s, w)
  end.

(** Stop all miners (e.g. on app quit): the loop over the entries of
    [this.instances], visited in [order]. *)
Fixpoint stopAll (order : list Z) (s : MinerService) (w : World) :
    MinerService * World :=
  match order with
  | [] => (s, w)
  | idx :: rest =>
      match instances s !! idx with
      | Some inst =>
          let '(inst1, w1) := MinerInstance.stop h inst w in
          stopAll rest
            (emit (Stopped idx)
               (set_instances (<[idx := inst1]> (instances s)) s))
            w1
      | None => stopAll rest s w
      end
  end.

(** The child of tab [minerIndex] exits: the instance's handler runs, then
    the service's own ['exit'] listener emits the state event. *)
Definition childExited (minerIndex : Z) (s : MinerService) (w : World) :
    MinerService * World :=
  match instances s !! minerIndex with
  | Some inst =>
      let '(r, inst1, w1) := MinerInstance.onExit h inst w in
      let s1 := set_instances (<[minerIndex := inst1]> (instances s)) s in
      (match r with Ok _ => emit (Stopped minerIndex) s1 | Throw _ => s1 end,
       w1)
  | None => (s, w)
  end.

(** A health probe of tab [minerIndex] is answered. *)
Definition probeAnswered (minerIndex : Z) (reply : ProbeReply)
    (s : MinerService) (w : World) : MinerService * World :=
  match instances s !! minerIndex with
  | Some inst =>
      let '(_, inst1, w1) := MinerInstance.checkHealthResume h reply inst w in
      (set_instances (<[minerIndex := inst1]> (instances s)) s, w1)
  | None => (s, w)
  end.

End WithHost.
End MinerService.

(** ** main.ts: sleep and wake *)


Module Main.
Section WithHost.
Variable h : Host.






End WithHost.
End Main.

(** ** The health checker as an event-driven machine

    [setInterval] fires [checkHealth] every five seconds; each run sends a
    probe and resumes when the probe is answered, so several probes can be
    in flight.  The events below are the points at which code of the
    instance runs. *)

Inductive HealthEvent :=
| IntervalFired
| ProbeAnswered (reply : ProbeReply)
| ChildExited
| SpawnFailed (failure : Z * error).

Record Monitor := {
  instance : MinerInstance;
  world : World;
  inFlight : nat;        (* probes sent and not yet answered *)
  stopCalls : nat;       (* invocations of [this.stop()] by [checkHealth] *)
}.

Module Health.
Section WithHost.
Variable h : Host.

(** One event; [None] when the event cannot occur in that state (the
    interval has been cleared, no probe is in flight, the handle owned is
    not one of a failed spawn).  The exit handler runs when the child
    exits, whether the instance still owns it or has released it in
    [stop]. *)
Definition step (m : Monitor) (e : HealthEvent) : option Monitor :=
  match e with
  | IntervalFired =>
      if healthCheckTimer (instance m) then
        Some {| instance := instance m; world := world m;
                inFlight := if MinerInstance.checkHealthGuard (instance m)
                            then S (inFlight m) else inFlight m;
                stopCalls := stopCalls m |}
      else None
  | ProbeAnswered reply =>
      match inFlight m with
      | O => None
      | S n =>
          let '(r, inst1, w1) :=
            MinerInstance.checkHealthResume h reply (instance m) (world m) in
          Some {| instance := inst1; world := w1; inFlight := n;
                  stopCalls := match r with
                               | Ok true => S (stopCalls m)
                               | _ => stopCalls m
                               end |}
      end
  | ChildExited =>
      let '(_, inst1, w1) :=
        MinerInstance.onExit h (instance m) (world m) in
      Some {| instance := inst1; world := w1; inFlight := inFlight m;
              stopCalls := stopCalls m |}
  | SpawnFailed failure =>
      if MinerInstance.spawnErrorPending (instance m) then
        let '(inst1, w1) :=
          MinerInstance.onSpawnError h failure (instance m) (world m) in
        Some {| instance := inst1; world := w1; inFlight := inFlight m;
                stopCalls := stopCalls m |}
      else None
  end.

Fixpoint steps (m : Monitor) (es : list HealthEvent) : option Monitor :=
  match es with
  | [] => Some m
  | e :: es' =>
      match step m e with
      | Some m' => steps m' es'
      | None => None
      end
  end.

(** The machine right after [start] has called [startHealthCheck] on an
    instance owning the new child [proc]; [pending] probes sent during an
    earlier run of the instance may still be unanswered. *)
Definition started (c : MinerInstanceConfig) (proc : ChildProcess) (w : World)
    (pending : nat) : Monitor :=
  {| instance :=
       MinerInstance.startHealthCheck
         (MinerInstance.set_process (Some proc) (MinerInstance.new c));
     world := w; inFlight := pending; stopCalls := O |}.

End WithHost.

(** The number of consecutive failures at the end of a history of answered
    probes: a 2xx answer clears it, any other answer adds one. *)
Definition failed (reply : ProbeReply) : bool :=
  match reply with
  | Responded true => false
  | _ => true
  end.

Definition count (n : Z) (e : HealthEvent) : Z :=
  match e with
  | ProbeAnswered reply => if failed reply then n + 1 else 0
  | _ => n
  end.

Definition consecutiveFailures (es : list HealthEvent) : Z :=
  fold_left count es 0.

End Health.

(** ** Vocabulary of the statements *)

(** The supervisor's structured log, [logs/app.log] under the data root. *)
Definition appLog (h : Host) : Fs.path :=
  Fs.join (Paths.getLogsDir h) ["app.log"].

(** The part of the filesystem the logger may create or change: the log
    file, and the directories leading to it. *)
Definition logArea (h : Host) (q : Fs.path) : Prop :=
  q = appLog h \/ q `prefix_of` Paths.getLogsDir h.

(** Every entry lies in a directory. *)
Definition treeShaped (files : gmap (list string) Fs.node) : Prop :=
  forall p n x, files !! (p ++ [n]) = Some x -> Fs.stat files p = Some Fs.Dir.

(** [miners/<i>/geth/chaindata] *)
Definition chaindataDir (h : Host) (i : Z) : Fs.path :=
  Fs.join (Paths.getMinerDataDir h i) GenesisInit.CHAINDATA_DIR.

(** What is expected of geth: a run of [geth init] that exits with status
    0 has created [geth/chaindata] under the data directory. *)
Definition gethInitCreatesChaindata (h : Host) : Prop :=
  forall c files files',
    gethInit h c files = Ok files' ->
    Fs.existsSync files' (Fs.join (initDataDir c) GenesisInit.CHAINDATA_DIR)
    = true.

(** Everything the two worlds hold besides files. *)
Definition sameProcesses (w w' : World) : Prop :=
  execs w' = execs w /\ spawned w' = spawned w
  /\ signalled w' = signalled w /\ killTimers w' = killTimers w.

(** The pattern [^0x[0-9a-fA-F]{40}$] read as a set of strings: ["0x"]
    followed by exactly forty characters, each a decimal digit or a letter
    [a]..[f] in either case. *)
Definition hexCharacters : list ascii :=
  list_ascii_of_string "0123456789abcdefABCDEF".

Definition matchesAddressPattern (a : string) : Prop :=
  exists ds : list ascii,
    a = "0x" +:+ string_of_list_ascii ds
    /\ List.length ds = 40%nat
    /\ Forall (fun c => c ∈ hexCharacters) ds.

(** [order] lists every tab of the registry once. *)
Definition enumerates (order : list Z) (s : MinerService) : Prop :=
  NoDup order /\ forall i, i ∈ order <-> is_Some (instances s !! i).

(** A tab index in the range the application uses, all of whose ports
    are safe integers. *)
Definition safeIndex (i : Z) : Prop :=
  1 <= i /\ 8547 + 2 * (i - 1) <= Js.MAX_SAFE_INTEGER.

(** Every instance is stored under its own miner index. *)
Definition keyedByIndex (s : MinerService) : Prop :=
  forall i inst, instances s !! i = Some inst -> minerIndex (config inst) = i.

(** The places where [getGenesisPath] looks, in order. *)
Definition genesisCandidates (h : Host) : list (list string) :=
  match isPackaged h, resourcesPath h with
  | true, Some r => [Fs.join r ["genesis.json"]]
  | _, _ => []
  end
  ++ [ Fs.join (appPath h) ["resources"; "genesis.json"];
       Fs.join (Fs.dirname (Fs.dirname (servicesDir h)))
               ["resources"; "genesis.json"] ].

(** The ids of the requests sent are 1, 2, ..., [rpcId]. *)
Definition idsConsecutive (n : NetworkService.Net) : Prop :=
  NetworkService.reqId <$> NetworkService.sent n
  = seqZ 1 (NetworkService.rpcId n)
  /\ NetworkService.rpcId n
     = Z.of_nat (List.length (NetworkService.sent n)).

(** ** Sessions of the service

    What can happen to the service between its creation and any later
    moment: the calls of its public methods and the events delivered to
    its instances.  ([stopAll] is [stopMiner] on every tab.) *)

Inductive ServiceCall :=
| SetGethPath (path : string)
| GetOrCreateInstance (minerIndex : Z) (config : option ConfigUpdates)
| AddTab (config : option ConfigUpdates)
| RemoveTab (minerIndex : Z)
| StartMiner (minerIndex : Z) (config : option ConfigUpdates)
| StopMiner (minerIndex : Z)
| ChildExit (minerIndex : Z)
| ProbeAnswer (minerIndex : Z) (reply : ProbeReply).

Definition perform (h : Host) (c : ServiceCall) (s : MinerService) (w : World) :
    MinerService * World :=
  match c with
  | SetGethPath path => (MinerService.setGethPath path s, w)
  | GetOrCreateInstance i config =>
      (snd (MinerService.getOrCreateInstance i config s), w)
  | AddTab config => (snd (MinerService.addTab config s), w)
  | RemoveTab i => MinerService.removeTab h i s w
  | StartMiner i config =>
      let '(_, s', w') := MinerService.startMiner h i config s w in (s', w')
  | StopMiner i => MinerService.stopMiner h i s w
  | ChildExit i => MinerService.childExited h i s w
  | ProbeAnswer i reply => MinerService.probeAnswered h i reply s w
  end.

(** The states of the service in a session; the world may be changed by
    others between two steps. *)
Inductive reachable (h : Host) : MinerService -> Prop :=
| reachable_initial : reachable h (MinerService.initial h)
| reachable_perform s w c :
    reachable h s -> reachable h (fst (perform h c s w)).

(** A call that leaves every tab its index: the configuration object it
    passes for tab [i], if any, carries no [minerIndex], or [i] itself.
    ([addTab] only creates instances, and a new instance takes the index
    of its tab whatever the object carries.) *)
Definition keepsIndex (c : ServiceCall) : Prop :=
  match c with
  | GetOrCreateInstance i (Some u) | StartMiner i (Some u) =>
      uMinerIndex u = None \/ uMinerIndex u = Some i
  | _ => True
  end.

(** The states of a session all of whose calls satisfy [P]. *)
Inductive reachableBy (h : Host) (P : ServiceCall -> Prop) :
    MinerService -> Prop :=
| reachableBy_initial : reachableBy h P (MinerService.initial h)
| reachableBy_perform s w c :
    reachableBy h P s -> P c -> reachableBy h P (fst (perform h c s w)).

(** [k] is the largest tab index of the registry. *)
Definition isMaxIndex (s : MinerService) (k : Z) : Prop :=
  is_Some (instances s !! k)
  /\ forall j, is_Some (instances s !! j) -> j <= k.

(** [addTab] called once per element of [configs]; the indices returned,
    in order. *)
Fixpoint addTabs (configs : list (option ConfigUpdates)) (s : MinerService) :
    list Z * MinerService :=
  match configs with
  | [] => ([], s)
  | c :: rest =>
      let '(i, s1) := MinerService.addTab c s in
      let '(more, s2) := addTabs rest s1 in
      (i :: more, s2)
  end.

(** A computation all of whose runs relate the world before to the world
    after by [R]. *)
Definition preserves {A} (R : World -> World -> Prop) (m : M A) : Prop :=
  forall w r w', m w = (r, w') -> R w w'.

(** No child was spawned or signalled and no kill timer was armed. *)
Definition sameChildren (w w' : World) : Prop :=
  spawned w' = spawned w /\ signalled w' = signalled w
  /\ killTimers w' = killTimers w.

(** No error was thrown out of an event handler. *)
Definition sameUncaught (w w' : World) : Prop :=
  uncaught w' = uncaught w.

(** The state carried along a run of the health checker: the counter
    equals [n]; the logger is set up; and as long as the instance owns its
    child the counter is below 3 and [stop] has not been invoked. *)
Definition healthy (m : Monitor) (n : Z) : Prop :=
  healthFailures (instance m) = n
  /\ 0 <= n
  /\ logDirSet (world m) = true
  /\ (process (instance m) <> None -> stopCalls m = O /\ n < 3).

(** Every index with a cached configuration has an instance. *)
Definition cacheCovered (s : MinerService) : Prop :=
  forall i, instances s !! i = None -> configCache s !! i = None.

(** The configuration of an instance created from the defaults. *)
Definition defaultInstanceConfig (i : Z) (path : string) :
    MinerInstanceConfig :=
  {| minerIndex := i; gethBinaryPath := path;
     minerThreads := Some 1; cacheMB := Some 4096; etherbase := None |}.

(** ** A concrete host and worlds, used to run the model *)

Module Demo.

Definition home : Fs.path := ["home"; "miner"].

(** A host on which geth init creates [geth/chaindata] below the data
    directory and pids are handed out in sequence. *)
Definition host : Host :=
  {| homedir := home;
     win32 := false;
     isPackaged := false;
     resourcesPath := None;
     appPath := ["opt"; "marscredit"];
     servicesDir := ["opt"; "marscredit"; "dist"; "services"];
     logLine := fun _ msg => msg +:+ ";";
     gethInit := fun c files =>
       Fs.mkdirSync (Fs.join (initDataDir c) ["geth"; "chaindata"]) files;
     assignPid := fun _ _ w => Some (4000 + Z.of_nat (List.length (spawned w)));
     spawnFailure := fun file _ =>
       (-2, Error ("spawn " +:+ file +:+ " ENOENT"));
     killThrows := fun _ _ _ => false;
     jsonAddress := fun _ => Ok None |}.

Definition world (files : gmap (list string) Fs.node) (ready : bool) : World :=
  {| fs := files; logDirSet := ready; execs := []; spawned := [];
     signalled := []; killTimers := []; uncaught := [] |}.

(** Only the home directory and the bundled genesis file exist. *)
Definition freshFiles : gmap (list string) Fs.node :=
  <[ ["opt"; "marscredit"; "resources"; "genesis.json"] := Fs.File "{}" ]>
  (<[ ["opt"; "marscredit"; "resources"] := Fs.Dir ]>
  (<[ ["opt"; "marscredit"] := Fs.Dir ]>
  (<[ ["opt"] := Fs.Dir ]>
  (<[ ["home"; "miner"] := Fs.Dir ]>
  (<[ ["home"] := Fs.Dir ]> ∅))))).

Definition fresh : World := world freshFiles false.

Definition config (i : Z) : MinerInstanceConfig :=
  {| minerIndex := i; gethBinaryPath := "/home/miner/.marscredit/bin/geth";
     minerThreads := Some 1; cacheMB := Some 4096; etherbase := None |}.

Definition deadAddress : string :=
  "0x000000000000000000000000000000000000dEaD".

(** Miner 1 has been initialised in an earlier session; the supervisor's
    own [logs] directory does not exist. *)
Definition syncedFiles : gmap (list string) Fs.node :=
  <[ ["home"; "miner"; ".marscredit"; "miners"; "1"; "geth"; "chaindata"]
     := Fs.Dir ]>
  (<[ ["home"; "miner"; ".marscredit"; "miners"; "1"; "geth"] := Fs.Dir ]>
  (<[ ["home"; "miner"; ".marscredit"; "miners"; "1"] := Fs.Dir ]>
  (<[ ["home"; "miner"; ".marscredit"; "miners"] := Fs.Dir ]>
  (<[ ["home"; "miner"; ".marscredit"] := Fs.Dir ]> freshFiles)))).

Definition synced : World := world syncedFiles false.

(** Miner 1 started on the fresh machine: the instance as [start] leaves
    it, and the world at that moment. *)
Definition runningInstance : MinerInstance :=
  snd (fst (MinerInstance.start host (MinerInstance.new (config 1)) fresh)).

Definition runningWorld : World :=
  snd (MinerInstance.start host (MinerInstance.new (config 1)) fresh).

(** Miner 1 under the health checker, and a history in which two probes
    have failed and a third is in flight. *)
Definition monitored : Monitor :=
  Health.started (config 1) {| pid := Some 4000; exitCode := None |}
    (world ∅ true) 0.

Definition twoFailures : list HealthEvent :=
  [ IntervalFired; ProbeAnswered Rejected;
    IntervalFired; ProbeAnswered (Responded false);
    IntervalFired ].

(** Tab 1 started with four threads and a reward address. *)
Definition tuned : ConfigUpdates :=
  {| uMinerIndex := None; uGethBinaryPath := None;
     uMinerThreads := Present (Some 4); uCacheMB := Absent;
     uEtherbase := Present (Some "0x000000000000000000000000000000000000dEaD") |}.

Definition tunedService : MinerService :=
  fst (perform host (StartMiner 1 (Some tuned)) (MinerService.initial host) fresh).

(** The service after two calls of [addTab]: tabs 1 and 2. *)
Definition twoTabs : MinerService :=
  snd (MinerService.addTab None
         (snd (MinerService.addTab None (MinerService.initial host)))).

(** A host whose keystore files all carry the address [11...11], and a
    filesystem in which miner 1 has such a keystore file. *)
Definition keystoreHost : Host :=
  {| homedir := home;
     win32 := false;
     isPackaged := false;
     resourcesPath := None;
     appPath := ["opt"; "marscredit"];
     servicesDir := ["opt"; "marscredit"; "dist"; "services"];
     logLine := fun _ msg => msg +:+ ";";
     gethInit := gethInit host;
     assignPid := assignPid host;
     spawnFailure := spawnFailure host;
     killThrows := fun _ _ _ => false;
     jsonAddress := fun _ =>
       Ok (Some "1111111111111111111111111111111111111111") |}.

Definition keystoreFiles : gmap (list string) Fs.node :=
  <[ ["home"; "miner"; ".marscredit"; "miners"; "1"; "keystore"; "UTC--2026--11"]
     := Fs.File "{}" ]>
  (<[ ["home"; "miner"; ".marscredit"; "miners"; "1"; "keystore"] := Fs.Dir ]>
  (<[ ["home"; "miner"; ".marscredit"; "miners"; "1"] := Fs.Dir ]>
  (<[ ["home"; "miner"; ".marscredit"; "miners"] := Fs.Dir ]>
  (<[ ["home"; "miner"; ".marscredit"] := Fs.Dir ]> freshFiles)))).

Definition keystoreWorld : World := world keystoreFiles false.

(** The same machine without a geth binary: every spawn fails. *)
Definition noGeth : Host :=
  {| homedir := home;
     win32 := false;
     isPackaged := false;
     resourcesPath := None;
     appPath := ["opt"; "marscredit"];
     servicesDir := ["opt"; "marscredit"; "dist"; "services"];
     logLine := fun _ msg => msg +:+ ";";
     gethInit := gethInit host;
     assignPid := fun _ _ _ => None;
     spawnFailure := spawnFailure host;
     killThrows := fun _ _ _ => false;
     jsonAddress := fun _ => Ok None |}.

(** Miner 1 has chain data, and its [geth.pid] is a directory. *)
Definition blockedPidFiles : gmap (list string) Fs.node :=
  <[ ["home"; "miner"; ".marscredit"; "miners"; "1"; "geth.pid"] := Fs.Dir ]>
  syncedFiles.

(** A network on which only the remote endpoint answers. *)
Definition remoteOnly (_ : list NetworkService.RpcRequest)
    (req : NetworkService.RpcRequest) : NetworkService.FetchOutcome :=
  if String.eqb (NetworkService.reqUrl req) NetworkService.REMOTE_RPC
  then NetworkService.FetchResponse true 200 "OK"
         (Ok {| NetworkService.bodyResult :=
                  NetworkService.JString "0xde0b6b3a7640000";
                NetworkService.bodyError := None |})
  else NetworkService.FetchRejected (Error "ECONNREFUSED").

End Demo.

(** * Properties *)

(** ** Ports (MinerInstance.ts) *)

Lemma updateConfig_minerIndex u inst :
  minerIndex (config (MinerInstance.updateConfig u inst))
  = default (minerIndex (config inst)) (uMinerIndex u).
Proof. reflexivity. Qed.

Lemma stop_config h inst w :
  config (fst (MinerInstance.stop h inst w)) = config inst.
Proof.
  unfold MinerInstance.stop. destruct (process inst); [|done].
  simpl. unfold MinerInstance.stopHealthCheck. simpl.
  by destruct (healthCheckTimer inst).
Qed.

Lemma start_config h inst w :
  config (snd (fst (MinerInstance.start h inst w))) = config inst.
Proof.
  unfold MinerInstance.start.
  repeat case_match; simplify_eq; simpl; try done.
  all: unfold MinerInstance.startHealthCheck; simpl; done.
Qed.

(** C1.  For an instance with miner index [i >= 1], small enough for its
    ports to be safe integers, the port triple is
    [http = 8546 + 2(i-1)], [ws = 8547 + 2(i-1)], [p2p = 30304 + (i-1)];
    the RPC URL is ["http://localhost:<http>"]; these are the ports put on
    the geth command line; and the triple is a function of [i] alone: it
    is the same for every instance with that index, [start] and [stop]
    never change it, and [updateConfig] leaves it alone unless the object
    it is given carries [minerIndex] itself, in which case the instance
    takes the index carried, and with it the ports of that index. *)
Theorem ports_determined_by_index (h : Host) (inst : MinerInstance) (i : Z) :
  1 <= i ->
  8547 + 2 * (i - 1) <= Js.MAX_SAFE_INTEGER ->
  minerIndex (config inst) = i ->
  MinerInstance.getPorts i
    = {| http := 8546 + 2 * (i - 1);
         ws := 8547 + 2 * (i - 1);
         p2p := 30304 + (i - 1) |}
  /\ MinerInstance.httpPort inst = 8546 + 2 * (i - 1)
  /\ MinerInstance.rpcUrl inst
     = "http://localhost:" +:+ Js.String_of_number (8546 + 2 * (i - 1))
  /\ (forall dataDir keystoreDir,
        let args := MinerInstance.gethArgs dataDir keystoreDir (config inst) in
        args !! 12%nat = Some (Js.String_of_number (8546 + 2 * (i - 1)))
        /\ args !! 23%nat = Some (Js.String_of_number (8547 + 2 * (i - 1)))
        /\ args !! 27%nat = Some (Js.String_of_number (30304 + (i - 1))))
  /\ (forall inst', minerIndex (config inst') = i ->
        MinerInstance.rpcUrl inst' = MinerInstance.rpcUrl inst)
  /\ (forall u, uMinerIndex u = None \/ uMinerIndex u = Some i ->
        MinerInstance.rpcUrl (MinerInstance.updateConfig u inst)
        = MinerInstance.rpcUrl inst)
  /\ (forall u j, uMinerIndex u = Some j ->
        minerIndex (config (MinerInstance.updateConfig u inst)) = j
        /\ MinerInstance.httpPort (MinerInstance.updateConfig u inst)
           = http (MinerInstance.getPorts j))
  /\ (forall w, MinerInstance.rpcUrl (fst (MinerInstance.stop h inst w))
                = MinerInstance.rpcUrl inst)
  /\ (forall w, MinerInstance.rpcUrl (snd (fst (MinerInstance.start h inst w)))
                = MinerInstance.rpcUrl inst).
Proof.
  intros _ _ Hi.
  assert (E1 : 8546 + (i - 1) * 2 = 8546 + 2 * (i - 1)) by lia.
  assert (E2 : 8547 + (i - 1) * 2 = 8547 + 2 * (i - 1)) by lia.
  split_and!.
  - unfold MinerInstance.getPorts. cbv zeta. by rewrite E1, E2.
  - unfold MinerInstance.httpPort, MinerInstance.getPorts. simpl. by rewrite Hi.
  - unfold MinerInstance.rpcUrl, MinerInstance.httpPort, MinerInstance.getPorts.
    simpl. by rewrite Hi, E1.
  - intros dataDir keystoreDir args. subst args.
    unfold MinerInstance.gethArgs, MinerInstance.getPorts. simpl.
    by rewrite Hi, E1, E2.
  - intros inst' Hi'. unfold MinerInstance.rpcUrl, MinerInstance.httpPort.
    by rewrite Hi, Hi'.
  - intros u Hu. unfold MinerInstance.rpcUrl, MinerInstance.httpPort.
    rewrite updateConfig_minerIndex.
    destruct Hu as [-> | ->]; simpl; by rewrite ?Hi.
  - intros u j Hu. unfold MinerInstance.httpPort.
    rewrite updateConfig_minerIndex, Hu. done.
  - intros w. unfold MinerInstance.rpcUrl, MinerInstance.httpPort.
    by rewrite stop_config.
  - intros w. unfold MinerInstance.rpcUrl, MinerInstance.httpPort.
    by rewrite start_config.
Qed.

Lemma ports_determined_by_index_witness :
  1 <= 2
  /\ 8547 + 2 * (2 - 1) <= Js.MAX_SAFE_INTEGER
  /\ MinerInstance.rpcUrl (MinerInstance.new (Demo.config 2))
     = "http://localhost:8548".
Proof.
  split; [lia|]. split; [unfold Js.MAX_SAFE_INTEGER; lia|].
  exact (proj1 (proj2 (proj2
    (ports_determined_by_index Demo.host (MinerInstance.new (Demo.config 2)) 2
       ltac:(lia) ltac:(unfold Js.MAX_SAFE_INTEGER; lia) eq_refl)))).
Defined.

(** ** The filesystem model *)

Ltac unfold_M :=
  unfold bind, ret, throw, catch, onFs, readFs, existsSync in *.

Section FsFacts.
Implicit Types (files : gmap (list string) Fs.node) (p q : Fs.path).

Lemma stat_snoc files p n : Fs.stat files (p ++ [n]) = files !! (p ++ [n]).
Proof. by destruct p. Qed.

Lemma stat_lookup files p x :
  files !! p = Some x -> p <> [] -> Fs.stat files p = Some x.
Proof. by destruct p. Qed.

Lemma existsSync_true files p :
  Fs.existsSync files p = true <-> is_Some (Fs.stat files p).
Proof.
  unfold Fs.existsSync. destruct (Fs.stat files p); split; intros H; eauto.
  - discriminate.
  - by destruct H.
Qed.

(** [mkdirSync] only adds entries ... *)
Lemma mkdirFrom_subseteq todo : forall cur files files',
  Fs.mkdirFrom cur todo files = Ok files' -> files ⊆ files'.
Proof.
  induction todo as [|n todo IH]; intros cur files files' H; simpl in H.
  - by simplify_eq.
  - unfold Fs.join in H. rewrite stat_snoc in H.
    destruct (files !! (cur ++ [n])) as [[|c]|] eqn:E; [eauto|done|].
    apply IH in H. etrans; [|exact H]. by apply insert_subseteq.
Qed.

(** ... the added entries are directories lying on the path ... *)
Lemma mkdirFrom_added todo : forall cur files files' q x,
  Fs.mkdirFrom cur todo files = Ok files' ->
  files' !! q = Some x ->
  files !! q = Some x \/ (x = Fs.Dir /\ q `prefix_of` cur ++ todo).
Proof.
  induction todo as [|n todo IH]; intros cur files files' q x H Hq; simpl in H.
  - simplify_eq. by left.
  - unfold Fs.join in H. rewrite stat_snoc in H.
    assert (Hp : forall q', q' `prefix_of` (cur ++ [n]) ++ todo ->
                            q' `prefix_of` cur ++ n :: todo).
    { intros q'. by rewrite <- app_assoc. }
    destruct (files !! (cur ++ [n])) as [[|c]|] eqn:E; [|done|].
    + destruct (IH _ _ _ _ _ H Hq) as [?|[? ?]]; [by left|right; eauto].
    + destruct (IH _ _ _ _ _ H Hq) as [Hl|[? ?]]; [|right; eauto].
      destruct (decide (q = cur ++ [n])) as [->|Hne].
      * rewrite lookup_insert_eq in Hl. simplify_eq. right. split; [done|].
        apply Hp, prefix_app_r. done.
      * rewrite lookup_insert_ne in Hl by done. by left.
Qed.

(** ... and the path itself is a directory afterwards. *)
Lemma mkdirFrom_dir todo : forall cur files files',
  Fs.mkdirFrom cur todo files = Ok files' ->
  Fs.stat files cur = Some Fs.Dir ->
  Fs.stat files' (cur ++ todo) = Some Fs.Dir.
Proof.
  induction todo as [|n todo IH]; intros cur files files' H Hc; simpl in H.
  - simplify_eq. by rewrite app_nil_r.
  - unfold Fs.join in H. rewrite stat_snoc in H.
    replace (cur ++ n :: todo) with ((cur ++ [n]) ++ todo)
      by (by rewrite <- app_assoc).
    destruct (files !! (cur ++ [n])) as [[|c]|] eqn:E; [|done|].
    + apply (IH _ _ _ H). by rewrite stat_snoc.
    + apply (IH _ _ _ H). by rewrite stat_snoc, lookup_insert_eq.
Qed.

Lemma mkdirSync_dir p files files' :
  Fs.mkdirSync p files = Ok files' -> Fs.stat files' p = Some Fs.Dir.
Proof. intros H. by apply (mkdirFrom_dir p [] files files'). Qed.

Lemma mkdirSync_subseteq p files files' :
  Fs.mkdirSync p files = Ok files' -> files ⊆ files'.
Proof. apply mkdirFrom_subseteq. Qed.

Lemma mkdirSync_added p files files' q x :
  Fs.mkdirSync p files = Ok files' ->
  files' !! q = Some x ->
  files !! q = Some x \/ (x = Fs.Dir /\ q `prefix_of` p).
Proof. apply (mkdirFrom_added p []). Qed.

(** [mkdirSync] succeeds unless a regular file lies on the path. *)
Lemma mkdirFrom_succeeds todo : forall cur files,
  (forall q c, q `prefix_of` cur ++ todo ->
               Fs.stat files q <> Some (Fs.File c)) ->
  exists files', Fs.mkdirFrom cur todo files = Ok files'.
Proof.
  induction todo as [|n todo IH]; intros cur files Hno; simpl; [eauto|].
  unfold Fs.join.
  assert (Hpre : cur ++ [n] `prefix_of` cur ++ n :: todo).
  { exists todo. by rewrite <- app_assoc. }
  destruct (Fs.stat files (cur ++ [n])) as [[|c]|] eqn:E.
  - apply IH. intros q c Hq. apply Hno. by rewrite <- app_assoc in Hq.
  - by destruct (Hno _ c Hpre).
  - apply IH. intros q c Hq.
    destruct q as [|a q]; [done|]. simpl.
    destruct (decide (a :: q = cur ++ [n])) as [->|Hne].
    + by rewrite lookup_insert_eq.
    + rewrite lookup_insert_ne by done.
      apply (Hno (a :: q) c). by rewrite <- app_assoc in Hq.
Qed.

(** After [mkdirSync p] every prefix of [p] is a directory. *)
Lemma mkdirFrom_prefix_dirs todo : forall cur files files' k,
  Fs.mkdirFrom cur todo files = Ok files' ->
  k <> [] -> k `prefix_of` todo ->
  Fs.stat files' (cur ++ k) = Some Fs.Dir.
Proof.
  induction todo as [|n todo IH]; intros cur files files' k H Hk Hpre.
  - by apply prefix_nil_inv in Hpre.
  - destruct k as [|a k]; [done|].
    apply prefix_cons_inv_1 in Hpre as Ha.
    apply prefix_cons_inv_2 in Hpre as Hrest. subst a.
    simpl in H. unfold Fs.join in H. rewrite stat_snoc in H.
    replace (cur ++ n :: k) with ((cur ++ [n]) ++ k)
      by (by rewrite <- app_assoc).
    destruct (files !! (cur ++ [n])) as [[|c]|] eqn:E; [|done|].
    + destruct k as [|b k].
      * rewrite app_nil_r, stat_snoc.
        eapply lookup_weaken; [exact E|by eapply mkdirFrom_subseteq].
      * by apply (IH _ _ _ _ H).
    + destruct k as [|b k].
      * rewrite app_nil_r, stat_snoc.
        eapply lookup_weaken; [|by eapply mkdirFrom_subseteq].
        apply lookup_insert_eq.
      * by apply (IH _ _ _ _ H).
Qed.

Lemma mkdirSync_prefix_dirs p files files' q :
  Fs.mkdirSync p files = Ok files' ->
  q `prefix_of` p -> Fs.stat files' q = Some Fs.Dir.
Proof.
  intros H Hq. destruct q as [|a q]; [done|].
  by apply (mkdirFrom_prefix_dirs p [] files files' (a :: q)).
Qed.

Lemma prefix_snoc_cases (q l : list string) x :
  q `prefix_of` l ++ [x] -> q = l ++ [x] \/ q `prefix_of` l.
Proof.
  intros [k Hk]. destruct k as [|y k _] using rev_ind.
  - left. by rewrite app_nil_r in Hk.
  - right. rewrite app_assoc in Hk. apply app_inj_tail in Hk as [-> _].
    by exists k.
Qed.

(** In a tree-shaped filesystem everything above an entry is a
    directory. *)
Lemma ancestors_are_dirs files q : forall p,
  treeShaped files -> q <> [] ->
  is_Some (Fs.stat files (p ++ q)) -> Fs.stat files p = Some Fs.Dir.
Proof.
  induction q as [|n q IH] using rev_ind; intros p Ht Hq [x Hx]; [done|].
  rewrite app_assoc, stat_snoc in Hx. apply Ht in Hx.
  destruct q as [|a q]; [by rewrite app_nil_r in Hx|].
  apply IH; [done|done|]. rewrite Hx. eauto.
Qed.

End FsFacts.

(** ** The logger *)

Section LoggerFacts.
Variable h : Host.

Lemma appendFileSync_inv (p : Fs.path) (data : string)
    (files files' : gmap (list string) Fs.node) :
  Fs.appendFileSync p data files = Ok files' ->
  exists c, files' = <[p := Fs.File c]> files.
Proof.
  unfold Fs.appendFileSync. intros H.
  repeat case_match; simplify_eq; eauto.
Qed.

Lemma ensureLogDir_effect w r w' :
  Logger.ensureLogDir h w = (r, w') ->
  logDirSet w' = true /\ sameProcesses w w'
  /\ fs w ⊆ fs w'
  /\ (forall q x, fs w' !! q = Some x ->
        fs w !! q = Some x
        \/ (x = Fs.Dir /\ q `prefix_of` Paths.getLogsDir h))
  /\ (logDirSet w = true -> r = Ok (Paths.getLogsDir h) /\ w' = w)
  /\ (forall e, r = Throw e -> fs w' = fs w)
  /\ (forall d, r = Ok d -> d = Paths.getLogsDir h).
Proof.
  unfold Logger.ensureLogDir, sameProcesses. intros H.
  destruct (logDirSet w) eqn:Hs.
  { simplify_eq. split_and!; eauto; try done; by intros; simplify_eq. }
  simpl in H.
  destruct (Fs.existsSync (fs w) (Paths.getLogsDir h)).
  { simplify_eq. simpl. split_and!; eauto; try done; by intros; simplify_eq. }
  destruct (Fs.mkdirSync _ _) as [files'|e] eqn:Hm; simplify_eq; simpl.
  - split_and!; eauto; try done; try (by intros; simplify_eq).
    + by eapply mkdirSync_subseteq.
    + intros q x Hq. by eapply mkdirSync_added.
  - split_and!; eauto; try done; by intros; simplify_eq.
Qed.

(** A log call changes nothing but the log file and, the first time, the
    directories leading to it; it never removes or alters another entry. *)
Lemma log_effect level msg w r w' :
  Logger.log h level msg w = (r, w') ->
  logDirSet w' = true /\ sameProcesses w w'
  /\ (forall q x, q <> appLog h -> fs w !! q = Some x -> fs w' !! q = Some x)
  /\ (forall q, ~ logArea h q -> fs w' !! q = fs w !! q).
Proof.
  unfold Logger.log. unfold_M. intros H.
  destruct (Logger.ensureLogDir h w) as [[d|e] w1] eqn:He;
    apply ensureLogDir_effect in He
      as (Hset & Hsame & Hsub & Hadd & _ & _ & Hd).
  2:{ simplify_eq. split_and!; try done.
      - intros q x _ Hq. by eapply lookup_weaken.
      - intros q Hq. destruct (fs w' !! q) as [x|] eqn:E.
        + destruct (Hadd _ _ E) as [?|[_ ?]]; [done|].
          destruct Hq. by right.
        + destruct (fs w !! q) as [x|] eqn:E'; [|done].
          eapply lookup_weaken in E'; [|exact Hsub]. congruence. }
  rewrite (Hd d eq_refl) in H. fold (appLog h) in H.
  assert (Hframe : forall q, ~ logArea h q -> fs w1 !! q = fs w !! q).
  { intros q Hq. destruct (fs w1 !! q) as [x|] eqn:E.
    - destruct (Hadd _ _ E) as [?|[_ ?]]; [done|]. destruct Hq. by right.
    - destruct (fs w !! q) as [x|] eqn:E'; [|done].
      eapply lookup_weaken in E'; [|exact Hsub]. congruence. }
  destruct (Fs.appendFileSync (appLog h) _ (fs w1)) as [files'|e] eqn:Ha;
    simplify_eq.
  - apply appendFileSync_inv in Ha as [c ->]. simpl.
    split_and!; try done.
    + intros q x Hne Hq. rewrite lookup_insert_ne by done.
      by eapply lookup_weaken.
    + intros q Hq. rewrite lookup_insert_ne; [by apply Hframe|].
      intros <-. apply Hq. by left.
  - split_and!; try done.
    intros q x _ Hq. by eapply lookup_weaken.
Qed.

(** Once the logger has resolved its directory a log call cannot throw. *)
Lemma log_returns level msg w :
  logDirSet w = true ->
  exists w', Logger.log h level msg w = (Ok tt, w').
Proof.
  intros Hs. unfold Logger.log, Logger.ensureLogDir. unfold_M.
  rewrite Hs. destruct (Fs.appendFileSync _ _ _); eauto.
Qed.

(** The logger throws nothing out of an event handler. *)
Lemma log_uncaught level msg w r w' :
  Logger.log h level msg w = (r, w') -> uncaught w' = uncaught w.
Proof.
  unfold Logger.log, Logger.ensureLogDir. unfold_M. intros H.
  repeat case_match; by simplify_eq.
Qed.

End LoggerFacts.

(** ** Address validation (WalletService.ts) *)

Lemma isHexDigit_spec c :
  WalletService.isHexDigit c = bool_decide (c ∈ hexCharacters).
Proof.
  destruct c as [[] [] [] [] [] [] [] []]; vm_compute; reflexivity.
Qed.

Lemma hexDigitsToEnd_spec n : forall s,
  WalletService.hexDigitsToEnd n s = true
  <-> List.length (list_ascii_of_string s) = n
      /\ Forall (fun c => c ∈ hexCharacters) (list_ascii_of_string s).
Proof.
  induction n as [|n IH]; intros [|c r]; simpl; try (split; [done|]).
  - done.
  - intros [? _]. done.
  - intros [? _]. done.
  - rewrite andb_true_iff, IH, isHexDigit_spec, bool_decide_eq_true.
    rewrite Forall_cons. split; [intros (? & ? & ?)|intros (? & ? & ?)];
      split_and!; try done; lia.
Qed.

(** The validity test of the source accepts exactly the strings of the
    pattern. *)
Lemma isValidAddress_spec a :
  WalletService.isValidAddress a = true <-> matchesAddressPattern a.
Proof.
  unfold matchesAddressPattern. split.
  - destruct a as [|c0 [|c1 r]]; simpl; try done.
    { by repeat case_match. }
    intros H.
    assert (c0 = "0"%char /\ c1 = "x"%char /\ WalletService.hexDigitsToEnd 40 r = true)
      as (-> & -> & Hr).
    { destruct c0 as [[] [] [] [] [] [] [] []]; try done.
      destruct c1 as [[] [] [] [] [] [] [] []]; try done. }
    apply hexDigitsToEnd_spec in Hr as [Hlen Hall].
    exists (list_ascii_of_string r).
    by rewrite string_of_list_ascii_of_string.
  - intros (ds & -> & Hlen & Hall).
    change (WalletService.hexDigitsToEnd 40 (string_of_list_ascii ds) = true).
    apply hexDigitsToEnd_spec.
    by rewrite list_ascii_of_string_of_list_ascii.
Qed.

Lemma hex_not_space c :
  WalletService.isHexDigit c = true ->
  Js.is_ascii_space c = false
  /\ (forall c2, Js.is_space2 c2 c = false)
  /\ (forall c3 c2, Js.is_space3 c3 c2 c = false).
Proof.
  intros Hc.
  assert (Hn : (Js.code c < 128)%N /\ Js.is_ascii_space c = false).
  { destruct c as [[] [] [] [] [] [] [] []]; try done; vm_compute; done. }
  destruct Hn as [Hn Hs]. split_and!; [done| |].
  - intros c2. unfold Js.is_space2.
    apply andb_false_intro2, N.eqb_neq. lia.
  - intros c3 c2. unfold Js.is_space3.
    apply not_true_is_false. intros H.
    rewrite !orb_true_iff, !andb_true_iff, !orb_true_iff, !andb_true_iff in H.
    rewrite ?N.eqb_eq, ?N.leb_le in H. lia.
Qed.

Lemma trimStart_0x r :
  Js.trimStart (String "0" (String "x" r)) = String "0" (String "x" r).
Proof. destruct r; reflexivity. Qed.

(** [trim] leaves a valid address as it is. *)
Lemma trim_valid_address a :
  WalletService.isValidAddress a = true -> Js.trim a = a.
Proof.
  intros H. apply isValidAddress_spec in H as (ds & -> & Hlen & Hall).
  unfold Js.trim.
  change ("0x" +:+ string_of_list_ascii ds)
    with (String "0" (String "x" (string_of_list_ascii ds))).
  rewrite trimStart_0x. unfold Js.trimEnd.
  cbn [list_ascii_of_string rev].
  rewrite list_ascii_of_string_of_list_ascii.
  destruct (rev ds) as [|c l] eqn:E.
  { apply (f_equal List.length) in E. rewrite length_rev in E.
    simpl in E. lia. }
  assert (Hc : WalletService.isHexDigit c = true).
  { rewrite isHexDigit_spec, bool_decide_eq_true.
    apply Forall_rev in Hall. rewrite E in Hall.
    by apply Forall_cons in Hall as [? _]. }
  destruct (hex_not_space c Hc) as (H1 & H2 & H3).
  rewrite <- (app_assoc (c :: l) ["x"%char] ["0"%char]).
  set (tail := ["x"%char] ++ ["0"%char]).
  assert (Js.trimEndRev ((c :: l) ++ tail) = (c :: l) ++ tail) as ->.
  { rewrite <- app_comm_cons. cbn [Js.trimEndRev]. rewrite H1.
    destruct (l ++ tail) as [|c2 [|c3 r3]]; [done|by rewrite H2|].
    by rewrite H2, H3. }
  rewrite <- E, rev_app_distr, rev_involutive. reflexivity.
Qed.

(** ** The address-only mining target (WalletService.ts) *)

Section WalletFacts.
Variable h : Host.

Lemma writeFileSync_inv (p : Fs.path) (data : string)
    (files files' : gmap (list string) Fs.node) :
  Fs.writeFileSync p data files = Ok files' ->
  files' = <[p := Fs.File data]> files.
Proof.
  unfold Fs.writeFileSync. intros H.
  repeat case_match; by simplify_eq.
Qed.

Lemma miningAddressFile_not_log : WalletService.miningAddressFile h <> appLog h.
Proof.
  unfold WalletService.miningAddressFile, appLog, Paths.getLogsDir, Fs.join.
  intros H. apply (f_equal List.length) in H.
  rewrite !length_app in H. simpl in H. lia.
Qed.

(** A successful [setAddressOnly] leaves the address in
    [mining_address.txt]. *)
Lemma setAddressOnly_writes a w w1 :
  WalletService.setAddressOnly h a w = (Ok tt, w1) ->
  fs w1 !! WalletService.miningAddressFile h = Some (Fs.File a).
Proof.
  unfold WalletService.setAddressOnly.
  destruct (negb _); [done|]. unfold_M.
  destruct (Fs.mkdirSync _ (fs w)) as [f1|] eqn:E1; [|done]. simpl.
  destruct (Fs.writeFileSync _ _ f1) as [f2|] eqn:E2; [|done]. simpl.
  apply writeFileSync_inv in E2 as ->.
  intros H. apply log_effect in H as (_ & _ & Hkeep & _).
  apply Hkeep; [apply miningAddressFile_not_log|].
  simpl. apply lookup_insert_eq.
Qed.

(** Whenever [mining_address.txt] is a file, its trimmed content is the
    answer, whatever index is passed and whatever the keystores hold. *)
Lemma getStoredMiningAddress_prefers_file idx w c :
  fs w !! WalletService.miningAddressFile h = Some (Fs.File c) ->
  WalletService.getStoredMiningAddress h idx w = (Ok (Some (Js.trim c)), w).
Proof.
  intros H. unfold WalletService.getStoredMiningAddress. unfold_M.
  fold (WalletService.miningAddressFile h).
  unfold Fs.existsSync, Fs.readFileSync.
  unfold WalletService.miningAddressFile, Fs.join in *.
  rewrite (stat_snoc (fs w) (Paths.getMarsCreditDir h)), H. cbv beta.
  by rewrite (stat_snoc (fs w) (Paths.getMarsCreditDir h)), H.
Qed.

End WalletFacts.

(** C8.  A string that does not match [^0x[0-9a-fA-F]{40}$] is refused by
    [setAddressOnly] with the error "Invalid address", and the world is
    left exactly as it was: no directory is created and
    [mining_address.txt] is not written. *)
Theorem setAddressOnly_refuses_invalid (h : Host) (a : string) (w : World) :
  ~ matchesAddressPattern a ->
  WalletService.isValidAddress a = false
  /\ WalletService.setAddressOnly h a w = (Throw (Error "Invalid address"), w).
Proof.
  intros Hno.
  assert (Hv : WalletService.isValidAddress a = false).
  { apply not_true_is_false. intros Hv. by apply Hno, isValidAddress_spec. }
  split; [done|].
  unfold WalletService.setAddressOnly. by rewrite Hv.
Qed.

Lemma setAddressOnly_refuses_invalid_witness :
  WalletService.setAddressOnly Demo.host "0x12345" Demo.fresh
  = (Throw (Error "Invalid address"), Demo.fresh).
Proof.
  refine (proj2 (setAddressOnly_refuses_invalid Demo.host "0x12345" Demo.fresh _)).
  intros H. apply isValidAddress_spec in H. vm_compute in H. discriminate.
Defined.

(** C6.  When [setAddressOnly a] has accepted [a] and returned,
    [getStoredMiningAddress] returns exactly [a], with or without a miner
    index; and as long as [mining_address.txt] holds what was written the
    answer stays [a] in any later world, whatever keystore files exist
    there: the file takes precedence over every keystore. *)
Theorem stored_address_roundtrip (h : Host) (a : string) (w w1 : World) :
  matchesAddressPattern a ->
  WalletService.setAddressOnly h a w = (Ok tt, w1) ->
  (forall idx,
     WalletService.getStoredMiningAddress h idx w1 = (Ok (Some a), w1))
  /\ (forall w2 idx,
        fs w2 !! WalletService.miningAddressFile h
        = fs w1 !! WalletService.miningAddressFile h ->
        WalletService.getStoredMiningAddress h idx w2 = (Ok (Some a), w2)).
Proof.
  intros Hm Hset. apply isValidAddress_spec in Hm.
  pose proof (setAddressOnly_writes h a w w1 Hset) as Hfile.
  split.
  - intros idx.
    rewrite (getStoredMiningAddress_prefers_file h idx w1 a Hfile).
    by rewrite trim_valid_address.
  - intros w2 idx Heq. rewrite Hfile in Heq.
    rewrite (getStoredMiningAddress_prefers_file h idx w2 a Heq).
    by rewrite trim_valid_address.
Qed.

Lemma stored_address_roundtrip_witness :
  let w := Demo.world Demo.keystoreFiles false in
  let w1 := snd (WalletService.setAddressOnly Demo.keystoreHost Demo.deadAddress w) in
  WalletService.getStoredMiningAddress Demo.keystoreHost (Some 1) w
    = (Ok (Some "0x1111111111111111111111111111111111111111"), w)
  /\ WalletService.getStoredMiningAddress Demo.keystoreHost (Some 1) w1
    = (Ok (Some Demo.deadAddress), w1).
Proof.
  intros w w1. split; [vm_compute; reflexivity|].
  refine (proj1 (stored_address_roundtrip Demo.keystoreHost Demo.deadAddress
                   w w1 _ _) (Some 1)).
  - apply isValidAddress_spec. vm_compute. reflexivity.
  - vm_compute. reflexivity.
Defined.

(** ** weiToMars (NetworkService.ts) *)

Lemma stripTrailingZeros_length s :
  (String.length (Js.stripTrailingZeros s) <= String.length s)%nat.
Proof.
  unfold Js.stripTrailingZeros.
  assert (Hd : forall l, (List.length (Js.dropZerosRev l) <= List.length l)%nat).
  { induction l as [|c l IH]; simpl; [lia|]. destruct (Ascii.eqb c "0"); simpl; lia. }
  assert (Hl : forall l, String.length (string_of_list_ascii l) = List.length l).
  { induction l; simpl; congruence. }
  rewrite Hl, length_rev.
  etrans; [apply Hd|]. rewrite length_rev.
  rewrite <- (string_of_list_ascii_of_string s) at 2. by rewrite Hl.
Qed.

Lemma substring_length_le n : forall s,
  (String.length (String.substring 0 n s) <= n)%nat.
Proof.
  induction n as [|n IH]; intros [|c s]; simpl; try lia.
  specialize (IH s). lia.
Qed.

(** The fractional part is never empty and never longer than six digits:
    the result always contains a decimal point, so the branch of the
    source that renders a bare integer is never taken. *)
Lemma weiToMars_shape weiHex s :
  NetworkService.weiToMars weiHex = Ok s ->
  exists whole frac,
    s = whole +:+ "." +:+ frac
    /\ (1 <= String.length frac <= 6)%nat.
Proof.
  unfold NetworkService.weiToMars.
  destruct (Js.BigInt_of_string weiHex) as [wei|]; [|done].
  cbv zeta.
  set (t := Js.stripTrailingZeros _).
  assert (Ht : (String.length t <= 6)%nat).
  { subst t. etrans; [apply stripTrailingZeros_length|].
    apply substring_length_le. }
  intros H. exists (Js.String_of_number (wei `quot` 10 ^ 18)).
  unfold NetworkService.orElse in H.
  destruct t as [|c t']; simpl in H; simplify_eq.
  - exists "0". split; [done|simpl; lia].
  - exists (String c t'). split; [done|simpl in *; lia].
Qed.

(** C3, the code at the two stated inputs.  One whole MARS,
    [0xde0b6b3a7640000] = 10^18 wei, is rendered ["1.0"], not ["1"]: the
    emptied fraction is replaced by ["0"] before the test that would have
    dropped it.  A tenth, [0x16345785d8a0000], is rendered ["0.1"]. *)
Theorem weiToMars_at_claimed_inputs :
  NetworkService.weiToMars "0xde0b6b3a7640000" = Ok "1.0"
  /\ NetworkService.weiToMars "0xde0b6b3a7640000" <> Ok "1"
  /\ NetworkService.weiToMars "0x16345785d8a0000" = Ok "0.1".
Proof. split_and!; vm_compute; congruence. Qed.

(** ** The tab registry (MinerService.ts) *)

Section RegistryFacts.

Lemma insertSorted_perm x l : MinerService.insertSorted x l ≡ₚ x :: l.
Proof.
  induction l as [|y l IH]; simpl; [done|].
  destruct (Z.leb x y); [done|]. rewrite IH. apply Permutation_swap.
Qed.

Lemma sort_perm (l : list Z) :
  fold_right MinerService.insertSorted [] l ≡ₚ l.
Proof.
  induction l as [|x l IH]; simpl; [done|].
  by rewrite insertSorted_perm, IH.
Qed.

(** The indices listed are exactly the keys of the registry. *)
Lemma elem_of_getTabIndices s j :
  j ∈ MinerService.getTabIndices s <-> is_Some (instances s !! j).
Proof.
  unfold MinerService.getTabIndices. rewrite sort_perm.
  rewrite list_elem_of_fmap. split.
  - intros ([k v] & -> & Hkv). apply elem_of_map_to_list in Hkv. eauto.
  - intros [v Hv]. exists (j, v). split; [done|].
    by apply elem_of_map_to_list.
Qed.

Lemma Math_max_ge xs : forall x,
  x <= MinerService.Math_max x xs
  /\ forall y, y ∈ xs -> y <= MinerService.Math_max x xs.
Proof.
  unfold MinerService.Math_max.
  induction xs as [|z xs IH]; intros x; simpl.
  - split; [lia|]. intros y Hy. by apply elem_of_nil in Hy.
  - destruct (IH (Z.max x z)) as [H1 H2]. split; [lia|].
    intros y Hy. apply elem_of_cons in Hy as [->|Hy]; [lia|by apply H2].
Qed.

Lemma Math_max_elem xs : forall x,
  MinerService.Math_max x xs ∈ x :: xs.
Proof.
  unfold MinerService.Math_max.
  induction xs as [|z xs IH]; intros x; simpl; [by apply elem_of_cons; left|].
  pose proof (IH (Z.max x z)) as Hin. clear IH.
  rewrite !elem_of_cons in *.
  destruct (Z.max_spec x z) as [[_ Hm]|[_ Hm]];
    rewrite Hm in Hin; rewrite Hm; tauto.
Qed.

(** [addTab] returns 1 on an empty registry and one more than the largest
    index otherwise. *)
Lemma addTab_index config s :
  (instances s = ∅ -> fst (MinerService.addTab config s) = 1)
  /\ (forall k, isMaxIndex s k -> fst (MinerService.addTab config s) = k + 1).
Proof.
  unfold MinerService.addTab. cbv zeta. simpl. split.
  - intros He. unfold MinerService.getTabIndices.
    by rewrite He, map_to_list_empty.
  - intros k [Hk Hmax].
    destruct (MinerService.getTabIndices s) as [|x xs] eqn:E.
    { apply elem_of_getTabIndices in Hk. rewrite E in Hk.
      by apply elem_of_nil in Hk. }
    f_equal. apply Z.le_antisymm.
    + apply Hmax, elem_of_getTabIndices. rewrite E. apply Math_max_elem.
    + apply elem_of_getTabIndices in Hk. rewrite E in Hk.
      destruct (Math_max_ge xs x) as [H1 H2].
      apply elem_of_cons in Hk as [->|Hk]; [done|by apply H2].
Qed.

Lemma getOrCreateInstance_instances i config s j :
  is_Some (instances (snd (MinerService.getOrCreateInstance i config s)) !! j)
  <-> j = i \/ is_Some (instances s !! j).
Proof.
  unfold MinerService.getOrCreateInstance. cbv zeta. simpl.
  destruct (instances s !! i) as [inst|] eqn:E; [destruct config|]; simpl.
  - destruct (decide (j = i)) as [->|Hne].
    + rewrite lookup_insert_eq. split; eauto.
    + rewrite lookup_insert_ne by done. split; [eauto|]. by intros [?|?].
  - split; [eauto|]. intros [->|?]; [by rewrite E|done].
  - destruct (decide (j = i)) as [->|Hne].
    + rewrite lookup_insert_eq. split; eauto.
    + rewrite lookup_insert_ne by done. split; [eauto|]. by intros [?|?].
Qed.

Lemma addTab_instances config s j :
  is_Some (instances (snd (MinerService.addTab config s)) !! j)
  <-> j = fst (MinerService.addTab config s) \/ is_Some (instances s !! j).
Proof. unfold MinerService.addTab. apply getOrCreateInstance_instances. Qed.

(** From a registry holding exactly the tabs [1..n], the next calls of
    [addTab] return [n+1], [n+2], ... *)
Lemma addTabs_from configs : forall s n,
  0 <= n ->
  (forall j, is_Some (instances s !! j) <-> 1 <= j <= n) ->
  fst (addTabs configs s) = seqZ (n + 1) (Z.of_nat (List.length configs)).
Proof.
  induction configs as [|c configs IH]; intros s n Hn Hkeys; [done|].
  cbn [addTabs].
  assert (Hi : fst (MinerService.addTab c s) = n + 1).
  { destruct (decide (n = 0)) as [->|Hpos].
    - apply (proj1 (addTab_index c s)). apply map_eq. intros j.
      rewrite lookup_empty. apply eq_None_not_Some. rewrite Hkeys. lia.
    - apply (proj2 (addTab_index c s)). split; [apply Hkeys; lia|].
      intros j Hj. apply Hkeys in Hj. lia. }
  pose proof (addTab_instances c s) as Hnew. rewrite Hi in Hnew.
  destruct (MinerService.addTab c s) as [i s1]. simpl in Hi, Hnew. subst i.
  specialize (IH s1 (n + 1) ltac:(lia)).
  destruct (addTabs configs s1) as [more s2]. simpl in *.
  rewrite IH.
  - rewrite Nat2Z.inj_succ, (seqZ_cons (n + 1)) by lia.
    f_equal. f_equal; lia.
  - intros j. rewrite Hnew, Hkeys. lia.
Qed.

End RegistryFacts.

Lemma removeTab_instances h i s w :
  instances (fst (MinerService.removeTab h i s w)) = delete i (instances s).
Proof.
  unfold MinerService.removeTab.
  destruct (instances s !! i) as [inst|] eqn:E.
  - by destruct (MinerInstance.stop h inst w).
  - simpl. symmetry. by apply delete_id.
Qed.

Lemma max_index_exists s :
  instances s = ∅ \/ exists j, isMaxIndex s j.
Proof.
  destruct (MinerService.getTabIndices s) as [|x xs] eqn:E.
  - left. apply map_eq. intros j. rewrite lookup_empty.
    apply eq_None_not_Some. rewrite <- elem_of_getTabIndices, E.
    apply not_elem_of_nil.
  - right. exists (MinerService.Math_max x xs). split.
    + apply elem_of_getTabIndices. rewrite E. apply Math_max_elem.
    + intros j Hj. apply elem_of_getTabIndices in Hj. rewrite E in Hj.
      destruct (Math_max_ge xs x) as [H1 H2].
      apply elem_of_cons in Hj as [->|Hj]; [done|by apply H2].
Qed.

(** C2, as the code has it.  [addTab] allocates one more than the largest
    index present in the registry when it is called, and 1 when the
    registry is empty.  So after [removeTab k] of the largest index [k],
    [addTab] allocates one more than the largest remaining index (1 when
    none remains): never more than [k] for [k >= 1], and [k] itself again
    when [k - 1] is a tab.  From the empty registry, and without removals,
    [N] calls of [addTab] return [1, 2, ..., N] in that order. *)
Theorem addTab_after_removing_max (h : Host) (s : MinerService) (w : World)
    (k : Z) (config : option ConfigUpdates) :
  isMaxIndex s k ->
  let s' := fst (MinerService.removeTab h k s w) in
  let next := fst (MinerService.addTab config s') in
  instances s' !! k = None
  /\ (instances s' = ∅ -> next = 1)
  /\ (forall j, isMaxIndex s' j -> next = j + 1)
  /\ (1 <= k -> next <= k)
  /\ (is_Some (instances s !! (k - 1)) -> next = k)
  /\ (forall configs,
        fst (addTabs configs (MinerService.initial h))
        = seqZ 1 (Z.of_nat (List.length configs))).
Proof.
  intros [Hk Hmax] s' next.
  assert (Hs' : instances s' = delete k (instances s))
    by apply removeTab_instances.
  assert (Hlt : forall j, is_Some (instances s' !! j) -> j < k).
  { intros j. rewrite Hs'. destruct (decide (j = k)) as [->|Hne].
    - rewrite lookup_delete_eq. by intros [? ?].
    - rewrite lookup_delete_ne by done. intros Hj%Hmax. lia. }
  destruct (addTab_index config s') as [Hempty Hnext].
  split_and!.
  - rewrite Hs'. apply lookup_delete_eq.
  - done.
  - done.
  - intros Hpos. destruct (max_index_exists s') as [He|[j Hj]].
    + subst next. rewrite (Hempty He). lia.
    + subst next. rewrite (Hnext j Hj). destruct Hj as [Hj _].
      apply Hlt in Hj. lia.
  - intros Hprev. subst next. rewrite (Hnext (k - 1)); [lia|]. split.
    + rewrite Hs', lookup_delete_ne by lia. done.
    + intros j Hj%Hlt. lia.
  - intros configs. apply (addTabs_from configs _ 0); [lia|].
    intros j. simpl. rewrite lookup_empty. split; [by intros [? ?]|lia].
Qed.

Lemma twoTabs_max : isMaxIndex Demo.twoTabs 2.
Proof.
  split; [vm_compute; eauto|].
  intros j Hj. apply elem_of_getTabIndices in Hj.
  assert (E : MinerService.getTabIndices Demo.twoTabs = [1; 2])
    by (vm_compute; reflexivity).
  rewrite E, !elem_of_cons, elem_of_nil in Hj. lia.
Qed.

Lemma addTab_after_removing_max_witness :
  isMaxIndex Demo.twoTabs 2
  /\ fst (MinerService.addTab None
            (fst (MinerService.removeTab Demo.host 2 Demo.twoTabs Demo.fresh)))
     = 2.
Proof.
  split; [exact twoTabs_max|].
  refine (proj1 (proj2 (proj2 (proj2 (proj2
    (addTab_after_removing_max Demo.host Demo.twoTabs Demo.fresh 2 None
       twoTabs_max))))) _).
  vm_compute. eauto.
Defined.

(** C2 as stated fails: with tabs 1 and 2 the largest index is 2, and
    after [removeTab 2] the next [addTab] returns 2 again, not 3. *)
Lemma addTab_recycles_removed_max :
  isMaxIndex Demo.twoTabs 2
  /\ fst (MinerService.addTab None
            (fst (MinerService.removeTab Demo.host 2 Demo.twoTabs Demo.fresh)))
     = 2
  /\ fst (MinerService.addTab None
            (fst (MinerService.removeTab Demo.host 2 Demo.twoTabs Demo.fresh)))
     <> 2 + 1.
Proof.
  split; [exact twoTabs_max|]. split; vm_compute; congruence.
Qed.

(** ** Frame rules for computations on the world *)

Section Frame.
Context {R : World -> World -> Prop}.
Hypothesis R_refl : forall w, R w w.
Hypothesis R_trans : forall w1 w2 w3, R w1 w2 -> R w2 w3 -> R w1 w3.

Lemma preserves_ret {A} (a : A) : preserves R (ret a).
Proof. intros w r w' H. unfold ret in H. by simplify_eq. Qed.

Lemma preserves_throw {A} e : preserves R (@throw A e).
Proof. intros w r w' H. unfold throw in H. by simplify_eq. Qed.

Lemma preserves_bind {A B} (m : M A) (k : A -> M B) :
  preserves R m -> (forall a, preserves R (k a)) -> preserves R (bind m k).
Proof.
  intros Hm Hk w r w' H. unfold bind in H.
  destruct (m w) as [[a|e] w1] eqn:E.
  - eapply R_trans; [by eapply Hm|by eapply Hk].
  - simplify_eq. by eapply Hm.
Qed.

Lemma preserves_catch {A} (m : M A) (k : error -> M A) :
  preserves R m -> (forall e, preserves R (k e)) -> preserves R (catch m k).
Proof.
  intros Hm Hk w r w' H. unfold catch in H.
  destruct (m w) as [[a|e] w1] eqn:E.
  - simplify_eq. by eapply Hm.
  - eapply R_trans; [by eapply Hm|by eapply Hk].
Qed.

Lemma preserves_existsSync p : preserves R (existsSync p).
Proof. intros w r w' H. unfold existsSync in H. by simplify_eq. Qed.

Lemma preserves_readFs {A} (f : gmap (list string) Fs.node -> result A) :
  preserves R (readFs f).
Proof. intros w r w' H. unfold readFs in H. by simplify_eq. Qed.

Lemma preserves_if {A} (b : bool) (m1 m2 : M A) :
  preserves R m1 -> preserves R m2 -> preserves R (if b then m1 else m2).
Proof. by destruct b. Qed.

End Frame.

Lemma sameChildren_refl w : sameChildren w w.
Proof. done. Qed.

Lemma sameChildren_trans w1 w2 w3 :
  sameChildren w1 w2 -> sameChildren w2 w3 -> sameChildren w1 w3.
Proof.
  unfold sameChildren. intros (? & ? & ?) (? & ? & ?).
  split_and!; congruence.
Qed.

Lemma sameChildren_onFs f : preserves sameChildren (onFs f).
Proof.
  intros w r w' H. unfold onFs in H.
  destruct (f (fs w)); by simplify_eq.
Qed.

Lemma sameChildren_log h level msg :
  preserves sameChildren (Logger.log h level msg).
Proof.
  intros w r w' H. apply log_effect in H as (_ & (? & ? & ? & ?) & _).
  by split_and!.
Qed.

Lemma sameChildren_getGenesisPath h :
  preserves sameChildren (GenesisInit.getGenesisPath h).
Proof.
  intros w r w' H. unfold GenesisInit.getGenesisPath in H.
  repeat case_match; by simplify_eq.
Qed.

Lemma sameChildren_execGethInit h c :
  preserves sameChildren (GenesisInit.execGethInit h c).
Proof.
  intros w r w' H. unfold GenesisInit.execGethInit in H.
  repeat case_match; by simplify_eq.
Qed.

Ltac frame :=
  repeat first
    [ apply sameChildren_log
    | apply sameChildren_onFs
    | apply sameChildren_getGenesisPath
    | apply sameChildren_execGethInit
    | apply (preserves_existsSync sameChildren_refl)
    | apply (preserves_readFs sameChildren_refl)
    | apply (preserves_ret sameChildren_refl)
    | apply (preserves_throw sameChildren_refl)
    | apply (preserves_bind sameChildren_trans)
    | apply (preserves_catch sameChildren_trans)
    | apply preserves_if
    | match goal with |- forall _, preserves _ _ => intro end ].

(** Genesis initialisation spawns nothing and signals nothing. *)
Lemma sameChildren_initMinerDataDir h geth i genesis :
  preserves sameChildren (GenesisInit.initMinerDataDir h geth i genesis).
Proof.
  unfold GenesisInit.initMinerDataDir, Logger.info, Logger.debug, Logger.error.
  frame; destruct genesis; frame.
Qed.

(** Nothing that [start] calls throws out of an event handler. *)
Lemma sameUncaught_refl w : sameUncaught w w.
Proof. done. Qed.

Lemma sameUncaught_trans w1 w2 w3 :
  sameUncaught w1 w2 -> sameUncaught w2 w3 -> sameUncaught w1 w3.
Proof. unfold sameUncaught. congruence. Qed.

Lemma sameUncaught_onFs f : preserves sameUncaught (onFs f).
Proof.
  intros w r w' H. unfold onFs in H.
  destruct (f (fs w)); by simplify_eq.
Qed.

Lemma sameUncaught_log h level msg :
  preserves sameUncaught (Logger.log h level msg).
Proof. intros w r w' H. by apply log_uncaught in H. Qed.

Lemma sameUncaught_getGenesisPath h :
  preserves sameUncaught (GenesisInit.getGenesisPath h).
Proof.
  intros w r w' H. unfold GenesisInit.getGenesisPath in H.
  repeat case_match; by simplify_eq.
Qed.

Lemma sameUncaught_execGethInit h c :
  preserves sameUncaught (GenesisInit.execGethInit h c).
Proof.
  intros w r w' H. unfold GenesisInit.execGethInit in H.
  repeat case_match; by simplify_eq.
Qed.

Ltac frame_uncaught :=
  repeat first
    [ apply sameUncaught_log
    | apply sameUncaught_onFs
    | apply sameUncaught_getGenesisPath
    | apply sameUncaught_execGethInit
    | apply (preserves_existsSync sameUncaught_refl)
    | apply (preserves_readFs sameUncaught_refl)
    | apply (preserves_ret sameUncaught_refl)
    | apply (preserves_throw sameUncaught_refl)
    | apply (preserves_bind sameUncaught_trans)
    | apply (preserves_catch sameUncaught_trans)
    | apply preserves_if
    | match goal with |- forall _, preserves _ _ => intro end ].

Lemma sameUncaught_initMinerDataDir h geth i genesis :
  preserves sameUncaught (GenesisInit.initMinerDataDir h geth i genesis).
Proof.
  unfold GenesisInit.initMinerDataDir, Logger.info, Logger.debug, Logger.error.
  frame_uncaught; destruct genesis; frame_uncaught.
Qed.

(** ** Starting an instance (MinerInstance.ts) *)

(** A start on an instance that owns no process spawns at most one child,
    with the argument vector composed from the instance's configuration. *)
Lemma start_spawns h inst w :
  process inst = None ->
  let w' := snd (MinerInstance.start h inst w) in
  spawned w' = spawned w
  \/ exists c, spawned w' = spawned w ++ [c]
       /\ spawnCommand c = gethBinaryPath (config inst)
       /\ spawnArgs c
          = MinerInstance.gethArgs
              (Paths.getMinerDataDir h (minerIndex (config inst)))
              (Paths.getMinerKeystoreDir h (minerIndex (config inst)))
              (config inst).
Proof.
  intros Hp. unfold MinerInstance.start. rewrite Hp. cbv zeta.
  match goal with |- context [bind ?m ?k w] =>
    assert (Hprep : preserves sameChildren (bind m k));
    [|destruct (bind m k w) as [[[]|e] w1] eqn:E; apply Hprep in E as (Hs & _)]
  end.
  { unfold Logger.info. frame. }
  2:{ left. done. }
  right.
  match goal with |- context [?m (add_spawn ?c w1)] =>
    assert (Hw : preserves sameChildren m);
    [|destruct (m (add_spawn c w1)) as [[[]|e] w3] eqn:E';
      apply Hw in E' as (Hs' & _); simpl in *; exists c;
      rewrite Hs', Hs; done]
  end.
  destruct (assignPid _ _ _ _); [|frame].
  destruct (MinerInstance.truthyNumber _); frame.
Qed.

Lemma start_quiet h inst w :
  process inst = None ->
  let w' := snd (MinerInstance.start h inst w) in
  signalled w' = signalled w /\ killTimers w' = killTimers w.
Proof.
  intros Hp. unfold MinerInstance.start. rewrite Hp. cbv zeta.
  match goal with |- context [bind ?m ?k w] =>
    assert (Hprep : preserves sameChildren (bind m k));
    [|destruct (bind m k w) as [[[]|e] w1] eqn:E;
      apply Hprep in E as (_ & Hg & Hk)]
  end.
  { unfold Logger.info. frame. }
  2:{ done. }
  match goal with |- context [?m (add_spawn ?c w1)] =>
    assert (Hw : preserves sameChildren m);
    [|destruct (m (add_spawn c w1)) as [[[]|e] w3] eqn:E';
      apply Hw in E' as (_ & Hg' & Hk'); simpl in *;
      by rewrite Hg', Hk']
  end.
  destruct (assignPid _ _ _ _); [|frame].
  destruct (MinerInstance.truthyNumber _); frame.
Qed.

Lemma start_uncaught h inst w :
  uncaught (snd (MinerInstance.start h inst w)) = uncaught w.
Proof.
  unfold MinerInstance.start. destruct (process inst).
  { destruct (Logger.warn h _ w) as [r w'] eqn:E. simpl.
    by apply log_uncaught in E. }
  cbv zeta.
  match goal with |- context [bind ?m ?k w] =>
    assert (Hprep : preserves sameUncaught (bind m k));
    [|destruct (bind m k w) as [[[]|e] w1] eqn:E; apply Hprep in E]
  end.
  { unfold Logger.info. apply (preserves_bind sameUncaught_trans);
      [apply sameUncaught_initMinerDataDir|]. frame_uncaught. }
  2:{ done. }
  match goal with |- context [?m (add_spawn ?c w1)] =>
    assert (Hw : preserves sameUncaught m);
    [|destruct (m (add_spawn c w1)) as [[[]|e] w3] eqn:E';
      apply Hw in E'; simpl in *; unfold sameUncaught in *; simpl in *;
      congruence]
  end.
  destruct (assignPid _ _ _ _); [|frame_uncaught].
  destruct (MinerInstance.truthyNumber _); frame_uncaught.
Qed.

Lemma start_when_owned_spawned h inst proc w :
  process inst = Some proc ->
  spawned (snd (MinerInstance.start h inst w)) = spawned w.
Proof.
  intros Hp. unfold MinerInstance.start. rewrite Hp.
  destruct (Logger.warn h _ w) as [r w'] eqn:E. simpl.
  by apply log_effect in E as (_ & (_ & ? & _) & _).
Qed.

(** C7, as the code has it.  [start] on an instance that already owns a
    child process does nothing but log a warning, and returns: the
    instance is unchanged and still owns the same process, no second child
    is spawned, geth init is not run, nothing is signalled.  The call does
    not fail: it returns normally as soon as the logger has resolved its
    directory, which is the case once any [start] has spawned a child. *)
Theorem start_when_owned_returns (h : Host) (inst : MinerInstance)
    (proc : ChildProcess) (w : World) :
  process inst = Some proc ->
  let '(r, inst', w') := MinerInstance.start h inst w in
  inst' = inst
  /\ process inst' = Some proc
  /\ spawned w' = spawned w
  /\ execs w' = execs w
  /\ signalled w' = signalled w
  /\ (r, w') = Logger.warn h "MinerInstance already running" w
  /\ (logDirSet w = true -> r = Ok tt).
Proof.
  intros Hp. unfold MinerInstance.start. rewrite Hp.
  destruct (Logger.warn h _ w) as [r w'] eqn:E.
  pose proof E as E'. apply log_effect in E' as (_ & (? & ? & ? & ?) & _).
  split_and!; try done.
  intros Hs. destruct (log_returns h LWarn "MinerInstance already running" w Hs)
    as [w2 Hw2].
  unfold Logger.warn in E. congruence.
Qed.

Lemma start_when_owned_returns_witness :
  process Demo.runningInstance = Some {| pid := Some 4000; exitCode := None |}
  /\ logDirSet Demo.runningWorld = true
  /\ fst (fst (MinerInstance.start Demo.host Demo.runningInstance
                 Demo.runningWorld)) = Ok tt
  /\ spawned (snd (MinerInstance.start Demo.host Demo.runningInstance
                     Demo.runningWorld)) = spawned Demo.runningWorld.
Proof.
  assert (Hp : process Demo.runningInstance
               = Some {| pid := Some 4000; exitCode := None |})
    by (vm_compute; reflexivity).
  assert (Hs : logDirSet Demo.runningWorld = true) by (vm_compute; reflexivity).
  pose proof (start_when_owned_returns Demo.host Demo.runningInstance _
                Demo.runningWorld Hp) as H.
  destruct (MinerInstance.start Demo.host Demo.runningInstance Demo.runningWorld)
    as [[r inst'] w'].
  destruct H as (_ & _ & Hsp & _ & _ & _ & Hr).
  split_and!; [exact Hp|exact Hs|exact (Hr Hs)|exact Hsp].
Defined.

(** C7 as stated fails: miner 1 is running and owns child 4000; a second
    [start] does not fail, it returns normally. *)
Lemma start_when_owned_does_not_fail :
  process Demo.runningInstance = Some {| pid := Some 4000; exitCode := None |}
  /\ fst (fst (MinerInstance.start Demo.host Demo.runningInstance
                 Demo.runningWorld)) = Ok tt
  /\ forall e, fst (fst (MinerInstance.start Demo.host Demo.runningInstance
                           Demo.runningWorld)) <> Throw e.
Proof.
  split_and!; [vm_compute; reflexivity..|].
  intros e. vm_compute. congruence.
Qed.

(** ** Forgetting a tab (MinerService.ts) *)

Section ServiceFacts.
Variable h : Host.

Lemma getOrCreateInstance_configCache i config s :
  exists merged,
    configCache (snd (MinerService.getOrCreateInstance i config s))
    = <[i := merged]> (configCache s).
Proof.
  unfold MinerService.getOrCreateInstance. cbv zeta. simpl.
  destruct (instances s !! i); [destruct config|]; simpl; eauto.
Qed.

Lemma cacheCovered_getOrCreateInstance i config s :
  cacheCovered s ->
  cacheCovered (snd (MinerService.getOrCreateInstance i config s)).
Proof.
  intros Hc j Hj.
  destruct (getOrCreateInstance_configCache i config s) as [m ->].
  assert (Hn : ~ (j = i \/ is_Some (instances s !! j))).
  { rewrite <- getOrCreateInstance_instances, Hj. by intros [? ?]. }
  rewrite lookup_insert_ne by (intros ->; apply Hn; by left).
  apply Hc. apply eq_None_not_Some. intros ?. apply Hn. by right.
Qed.

Lemma cacheCovered_update i inst s :
  cacheCovered s ->
  cacheCovered (MinerService.set_instances (<[i := inst]> (instances s)) s).
Proof.
  intros Hc j. simpl. destruct (decide (i = j)) as [->|Hne].
  - by rewrite lookup_insert_eq.
  - rewrite lookup_insert_ne by done. apply Hc.
Qed.

Lemma cacheCovered_removeTab i s w :
  cacheCovered s -> cacheCovered (fst (MinerService.removeTab h i s w)).
Proof.
  intros Hc. unfold MinerService.removeTab.
  destruct (instances s !! i) as [inst|] eqn:E; [|done].
  destruct (MinerInstance.stop h inst w) as [inst1 w1]. simpl.
  intros j. simpl. destruct (decide (i = j)) as [->|Hne].
  - by rewrite !lookup_delete_eq.
  - rewrite !lookup_delete_ne by done. apply Hc.
Qed.

Lemma getOrCreateInstance_lookup i cfg s :
  instances (snd (MinerService.getOrCreateInstance i cfg s)) !! i
  = Some (fst (MinerService.getOrCreateInstance i cfg s))
  /\ forall j, j <> i ->
       instances (snd (MinerService.getOrCreateInstance i cfg s)) !! j
       = instances s !! j.
Proof.
  unfold MinerService.getOrCreateInstance. simpl.
  destruct (instances s !! i) as [inst|] eqn:E; [destruct cfg|]; simpl.
  - split; [by rewrite lookup_insert_eq|]. intros j Hj.
    by rewrite lookup_insert_ne.
  - done.
  - split; [by rewrite lookup_insert_eq|]. intros j Hj.
    by rewrite lookup_insert_ne.
Qed.

(** The tick of a failed spawn gives the handle its exit code, writes to
    the log and leaves one error uncaught; it changes nothing else. *)
Lemma onSpawnError_effect failure inst w :
  let '(inst', w') := MinerInstance.onSpawnError h failure inst w in
  inst' = match process inst with
          | Some p =>
              MinerInstance.set_process
                (Some {| pid := pid p; exitCode := Some (fst failure) |}) inst
          | None => inst
          end
  /\ logDirSet w' = true
  /\ sameProcesses w w'
  /\ (forall q, ~ logArea h q -> fs w' !! q = fs w !! q)
  /\ (exists e, uncaught w' = uncaught w ++ [e])
  /\ (logDirSet w = true -> uncaught w' = uncaught w ++ [snd failure]).
Proof.
  unfold MinerInstance.onSpawnError. destruct failure as [errno err].
  unfold Logger.error.
  destruct (Logger.log h LError "MinerInstance process error" w)
    as [[[]|e] w1] eqn:E.
  all: pose proof (log_uncaught h _ _ _ _ _ E) as Hu.
  all: pose proof E as E'; apply log_effect in E' as (Hl & Hsame & _ & Hfr).
  - simpl. rewrite Hu. split_and!; try done. by eexists.
  - simpl. rewrite Hu. split_and!; try done; [by eexists|].
    intros Hs. destruct (log_returns h LError "MinerInstance process error"
                           w Hs) as [w2 Hw2]. congruence.
Qed.

Lemma nextTick_effect inst w :
  let '(inst', w') := MinerInstance.nextTick h inst w in
  config inst' = config inst
  /\ healthCheckTimer inst' = healthCheckTimer inst
  /\ healthFailures inst' = healthFailures inst
  /\ MinerInstance.getPid inst' = MinerInstance.getPid inst
  /\ (process inst' = None <-> process inst = None)
  /\ sameProcesses w w'
  /\ (forall q, ~ logArea h q -> fs w' !! q = fs w !! q)
  /\ (MinerInstance.spawnErrorPending inst = false -> inst' = inst /\ w' = w)
  /\ (MinerInstance.spawnErrorPending inst = true ->
        MinerInstance.isRunning inst' = false
        /\ MinerInstance.spawnErrorPending inst' = false
        /\ exists e, uncaught w' = uncaught w ++ [e]).
Proof.
  unfold MinerInstance.nextTick.
  destruct (MinerInstance.spawnErrorPending inst) eqn:Ep.
  - pose proof (onSpawnError_effect
                  (spawnFailure h (gethBinaryPath (config inst)) w) inst w)
      as H.
    destruct (MinerInstance.onSpawnError h _ inst w) as [inst' w'].
    destruct H as (-> & _ & Hsame & Hfr & Hu & _).
    unfold MinerInstance.spawnErrorPending in Ep.
    destruct (process inst) as [p|] eqn:Hp; [|done].
    unfold MinerInstance.getPid, MinerInstance.isRunning,
      MinerInstance.spawnErrorPending. simpl. rewrite Hp.
    split_and!; try done. intros _. split_and!; try done.
    by destruct (pid p).
  - by split_and!.
Qed.

(** What [startMiner] does to the registry: the tab's entry is the
    instance [getOrCreateInstance] answered, with the same configuration;
    nothing else differs from the registry [getOrCreateInstance] left. *)
Lemma startMiner_registry i cfg s w :
  let '(inst, s1) := MinerService.getOrCreateInstance i cfg s in
  let '(r, s', w') := MinerService.startMiner h i cfg s w in
  configCache s' = configCache s1
  /\ gethPath s' = gethPath s1
  /\ (forall j, j <> i -> instances s' !! j = instances s1 !! j)
  /\ exists inst', instances s' !! i = Some inst'
                   /\ config inst' = config inst.
Proof.
  pose proof (proj1 (getOrCreateInstance_lookup i cfg s)) as Hl.
  unfold MinerService.startMiner, MinerService.startMinerBegin.
  destruct (MinerService.getOrCreateInstance i cfg s) as [inst s1].
  simpl in Hl.
  destruct (MinerInstance.isRunning inst).
  { destruct (Logger.info h _ w) as [[[]|e] w1]; split_and!; eauto. }
  pose proof (start_config h inst w) as Hc.
  destruct (MinerInstance.start h inst w) as [[[[]|e] inst1] w1];
    simpl in Hc.
  - unfold MinerService.spawnTick. simpl. rewrite lookup_insert_eq.
    pose proof (nextTick_effect inst1 w1) as Hn.
    destruct (MinerInstance.nextTick h inst1 w1) as [inst2 w2].
    destruct Hn as (Hc2 & _).
    unfold MinerService.startMinerEnd. simpl. rewrite lookup_insert_eq.
    simpl. split_and!; try done.
    + intros j Hj. by rewrite !lookup_insert_ne.
    + exists inst2. rewrite lookup_insert_eq. split; [done|congruence].
  - simpl. split_and!; try done.
    + intros j Hj. by rewrite lookup_insert_ne.
    + exists inst1. by rewrite lookup_insert_eq.
Qed.

(** [startMiner] on a tab whose instance owns no process makes at most
    one spawn call, with the command line of that instance. *)
Lemma startMiner_spawns i cfg s w :
  let inst := fst (MinerService.getOrCreateInstance i cfg s) in
  process inst = None ->
  let w' := snd (MinerService.startMiner h i cfg s w) in
  signalled w' = signalled w
  /\ killTimers w' = killTimers w
  /\ (spawned w' = spawned w
      \/ exists c, spawned w' = spawned w ++ [c]
           /\ spawnCommand c = gethBinaryPath (config inst)
           /\ spawnArgs c
              = MinerInstance.gethArgs
                  (Paths.getMinerDataDir h (minerIndex (config inst)))
                  (Paths.getMinerKeystoreDir h (minerIndex (config inst)))
                  (config inst)).
Proof.
  intros inst Hp w'. subst inst w'.
  unfold MinerService.startMiner, MinerService.startMinerBegin.
  destruct (MinerService.getOrCreateInstance i cfg s) as [inst s1].
  simpl in Hp. unfold MinerInstance.isRunning. rewrite Hp.
  pose proof (start_spawns h inst w Hp) as Hs.
  pose proof (start_quiet h inst w Hp) as [Hg Hk].
  destruct (MinerInstance.start h inst w) as [[[[]|e] inst1] w1];
    simpl in Hs, Hg, Hk; [|done].
  unfold MinerService.spawnTick. simpl. rewrite lookup_insert_eq.
  pose proof (nextTick_effect inst1 w1) as Hn.
  destruct (MinerInstance.nextTick h inst1 w1) as [inst2 w2].
  destruct Hn as (_ & _ & _ & _ & _ & (_ & Hs2 & Hg2 & Hk2) & _).
  simpl. by rewrite Hs2, Hg2, Hk2.
Qed.

Lemma cacheCovered_perform c s w :
  cacheCovered s -> cacheCovered (fst (perform h c s w)).
Proof.
  intros Hc. destruct c as [p|i cfg|cfg|i|i cfg|i|i|i reply]; simpl.
  - done.
  - by apply cacheCovered_getOrCreateInstance.
  - by apply cacheCovered_getOrCreateInstance.
  - by apply cacheCovered_removeTab.
  - pose proof (cacheCovered_getOrCreateInstance i cfg s Hc) as Hc1.
    pose proof (startMiner_registry i cfg s w) as Hr.
    destruct (MinerService.getOrCreateInstance i cfg s) as [inst s1].
    destruct (MinerService.startMiner h i cfg s w) as [[r s'] w'].
    destruct Hr as (Hcache & _ & Hother & inst' & Hi & _).
    simpl in *. intros j Hj. rewrite Hcache. apply Hc1.
    destruct (decide (j = i)) as [->|Hne]; [congruence|].
    by rewrite <- Hother.
  - unfold MinerService.stopMiner. destruct (instances s !! i); [|done].
    destruct (MinerInstance.stop _ _ _). simpl.
    by apply (cacheCovered_update i).
  - unfold MinerService.childExited. destruct (instances s !! i); [|done].
    destruct (MinerInstance.onExit _ _ _) as [[[|] ?] ?]; simpl;
      by apply (cacheCovered_update i).
  - unfold MinerService.probeAnswered. destruct (instances s !! i); [|done].
    destruct (MinerInstance.checkHealthResume _ _ _ _) as [[? ?] ?]. simpl.
    by apply (cacheCovered_update i).
Qed.

(** In every state of a session each cached configuration belongs to a
    tab that exists. *)
Lemma reachable_cacheCovered s : reachable h s -> cacheCovered s.
Proof.
  induction 1 as [|s w c _ IH]; [done|]. by apply cacheCovered_perform.
Qed.

(** With neither an instance nor a cached configuration at [i],
    [getOrCreateInstance i] without a config creates the instance from the
    defaults and caches the defaults. *)
Lemma getOrCreateInstance_fresh i s :
  instances s !! i = None ->
  configCache s !! i = None ->
  MinerService.getOrCreateInstance i None s
  = (MinerInstance.new (defaultInstanceConfig i (gethPath s)),
     MinerService.set_instances
       (<[i := MinerInstance.new (defaultInstanceConfig i (gethPath s))]>
          (instances s))
       (MinerService.set_configCache
          (<[i := MinerService.defaultConfig]> (configCache s)) s)).
Proof.
  intros Hi Hc. unfold MinerService.getOrCreateInstance. cbv zeta.
  simpl. by rewrite Hi, Hc.
Qed.

End ServiceFacts.

(** The command line composed from the defaults ends with one mining
    thread, a 4096 MB cache, and no [--miner.etherbase]. *)
Lemma gethArgs_defaults dataDir keystoreDir i path :
  drop 34 (MinerInstance.gethArgs dataDir keystoreDir
             (defaultInstanceConfig i path))
  = [ "--mine"; "--miner.threads"; "1"; "--verbosity"; "3"; "--maxpeers";
      "50"; "--cache"; "4096"; "--cache.database"; "75"; "--cache.trie";
      "25"; "--cache.gc"; "25"; "--cache.snapshot"; "10";
      "--txpool.globalslots"; "8192"; "--txpool.globalqueue"; "2048";
      "--nousb"; "--metrics"; "--allow-insecure-unlock"; "--snapshot" ].
Proof. reflexivity. Qed.

(** C10.  In any state of a session, [removeTab i] leaves neither an
    instance nor a cached configuration at [i]: [getMinerState i] is
    [null]; [getOrCreateInstance i] without a config then builds the
    instance from the defaults (1 thread, 4096 MB, no etherbase) and caches
    the defaults; and [startMiner i] without a config starts such an
    instance, so the child it spawns, if any, gets the default command line
    and the state it caches and reports is the default one. *)
Theorem removeTab_forgets_config (h : Host) (s : MinerService) (w : World)
    (i : Z) :
  reachable h s ->
  let s' := fst (MinerService.removeTab h i s w) in
  let fresh := MinerInstance.new (defaultInstanceConfig i (gethPath s')) in
  instances s' !! i = None
  /\ configCache s' !! i = None
  /\ MinerService.getMinerState i s' = None
  /\ fst (MinerService.getOrCreateInstance i None s') = fresh
  /\ configCache (snd (MinerService.getOrCreateInstance i None s')) !! i
     = Some MinerService.defaultConfig
  /\ (forall w2,
        let '(_, s2, w3) := MinerService.startMiner h i None s' w2 in
        configCache s2 !! i = Some MinerService.defaultConfig
        /\ (exists inst, instances s2 !! i = Some inst
                         /\ config inst = config fresh)
        /\ (tsConfig <$> MinerService.getMinerState i s2)
           = Some MinerService.defaultConfig
        /\ (spawned w3 = spawned w2
            \/ exists c, spawned w3 = spawned w2 ++ [c]
                 /\ spawnArgs c
                    = MinerInstance.gethArgs
                        (Paths.getMinerDataDir h i)
                        (Paths.getMinerKeystoreDir h i)
                        (config fresh))).
Proof.
  intros Hreach s' fresh.
  assert (Hcov : cacheCovered s').
  { apply cacheCovered_removeTab. by apply (reachable_cacheCovered h). }
  assert (Hi : instances s' !! i = None).
  { subst s'. rewrite removeTab_instances. apply lookup_delete_eq. }
  pose proof (Hcov i Hi) as Hc.
  pose proof (getOrCreateInstance_fresh i s' Hi Hc) as Hnew. fold fresh in Hnew.
  split_and!; try done.
  - unfold MinerService.getMinerState. by rewrite Hi.
  - by rewrite Hnew.
  - rewrite Hnew. simpl. apply lookup_insert_eq.
  - intros w2.
    pose proof (startMiner_registry h i None s' w2) as Hr.
    pose proof (startMiner_spawns h i None s' w2) as Hsp.
    rewrite Hnew in Hr, Hsp. simpl in Hsp.
    specialize (Hsp eq_refl) as (_ & _ & Hsp).
    destruct (MinerService.startMiner h i None s' w2) as [[r s2] w3].
    destruct Hr as (Hcache & _ & _ & inst' & Hi' & Hcfg). simpl in *.
    split_and!.
    + rewrite Hcache. apply lookup_insert_eq.
    + by exists inst'.
    + unfold MinerService.getMinerState. rewrite Hi', Hcache. simpl.
      by rewrite lookup_insert_eq.
    + destruct Hsp as [?|(c & ? & _ & ?)]; [by left|right; eauto].
Qed.

Lemma removeTab_forgets_config_witness :
  reachable Demo.host Demo.tunedService
  /\ configCache Demo.tunedService !! 1
     = Some {| cMinerThreads := 4; cCacheMB := 4096;
               cEtherbase := Some Demo.deadAddress |}
  /\ fst (MinerService.getOrCreateInstance 1 None
            (fst (MinerService.removeTab Demo.host 1 Demo.tunedService
                    Demo.runningWorld)))
     = MinerInstance.new
         (defaultInstanceConfig 1 "/home/miner/.marscredit/bin/geth").
Proof.
  assert (Hr : reachable Demo.host Demo.tunedService).
  { apply reachable_perform, reachable_initial. }
  split_and!; [exact Hr|vm_compute; reflexivity|].
  exact (proj1 (proj2 (proj2 (proj2
    (removeTab_forgets_config Demo.host Demo.tunedService Demo.runningWorld 1
       Hr))))).
Defined.

(** ** The health checker (MinerInstance.ts) *)

Section HealthFacts.
Variable h : Host.

Lemma removePidFile_logDirSet p w :
  logDirSet (MinerInstance.removePidFile p w) = logDirSet w.
Proof.
  unfold MinerInstance.removePidFile. by repeat case_match.
Qed.

Lemma stop_effect inst w :
  let '(inst', w') := MinerInstance.stop h inst w in
  logDirSet w' = logDirSet w
  /\ healthFailures inst' = healthFailures inst
  /\ process inst' = None
  /\ (process inst <> None -> healthCheckTimer inst' = false).
Proof.
  unfold MinerInstance.stop.
  destruct (process inst) as [proc|] eqn:Hp; [|done].
  split_and!.
  - repeat case_match; simpl; apply removePidFile_logDirSet.
  - unfold MinerInstance.stopHealthCheck. simpl. by case_match.
  - unfold MinerInstance.stopHealthCheck. simpl. by case_match.
  - intros _. unfold MinerInstance.stopHealthCheck. simpl.
    by destruct (healthCheckTimer inst) eqn:E.
Qed.

Ltac health_leaf Hrun :=
  unfold healthy; simpl;
  repeat (first [progress intros | split]);
  try (match goal with Hp : process _ <> None |- _ => destruct (Hrun Hp) end);
  try (match goal with
       | H : _ -> healthCheckTimer ?i = false |- healthCheckTimer ?i = false =>
           apply H; simpl; done
       end);
  try done; try lia; try congruence.

(** What an answered probe does, spelled out. *)
Lemma probe_answered reply m m' n :
  healthy m n ->
  Health.step h m (ProbeAnswered reply) = Some m' ->
  healthy m' (Health.count n (ProbeAnswered reply))
  /\ (Health.failed reply = false -> stopCalls m' = stopCalls m)
  /\ (stopCalls m' = S (stopCalls m) <-> 3 <= Health.count n (ProbeAnswered reply))
  /\ (stopCalls m' = stopCalls m <-> Health.count n (ProbeAnswered reply) < 3)
  /\ (stopCalls m' = S (stopCalls m) ->
        process (instance m') = None
        /\ (process (instance m) <> None ->
              healthCheckTimer (instance m') = false)).
Proof.
  intros (Hn & Hpos & Hlog & Hrun) Hstep. unfold Health.step in Hstep.
  destruct (inFlight m) as [|k]; [done|].
  unfold MinerInstance.checkHealthResume in Hstep.
  assert (Hstop : forall inst1,
    healthFailures inst1 = n + 1 ->
    3 <= n + 1 ->
    exists w1 inst2 w2,
      Logger.warn h "MinerInstance health check failed repeatedly, stopping"
        (world m) = (Ok tt, w1)
      /\ MinerInstance.stop h inst1 w1 = (inst2, w2)
      /\ logDirSet w2 = true /\ healthFailures inst2 = n + 1
      /\ process inst2 = None
      /\ (process inst1 <> None -> healthCheckTimer inst2 = false)).
  { intros inst1 Hf Hge.
    destruct (log_returns h LWarn
                "MinerInstance health check failed repeatedly, stopping"
                (world m) Hlog) as [w1 Hw1].
    pose proof (stop_effect inst1 w1) as Hst.
    destruct (MinerInstance.stop h inst1 w1) as [inst2 w2] eqn:Es.
    destruct Hst as (Hl2 & Hf2 & Hp2 & Ht2).
    pose proof Hw1 as Hl1. apply log_effect in Hl1 as (Hl1 & _).
    exists w1, inst2, w2. split_and!; try done; congruence. }
  unfold Health.count. destruct (Health.failed reply) eqn:Hfail.
  - (* a failure: the counter is incremented, then compared with 3 *)
    assert (Hstep' :
      (let inst1 := MinerInstance.set_healthFailures
                      (healthFailures (instance m) + 1) (instance m) in
       if Z.leb MinerInstance.maxHealthFailures (healthFailures inst1)
       then match Logger.warn h
                    "MinerInstance health check failed repeatedly, stopping"
                    (world m) with
            | (Ok _, w1) =>
                let '(inst2, w2) := MinerInstance.stop h inst1 w1 in
                (Ok true, inst2, w2)
            | (Throw e, w1) => (Throw e, inst1, w1)
            end
       else (Ok false, inst1, world m))
      = MinerInstance.checkHealthResume h reply (instance m) (world m)).
    { unfold MinerInstance.checkHealthResume. by destruct reply as [[]|]. }
    unfold MinerInstance.checkHealthResume in Hstep'. rewrite <- Hstep' in Hstep.
    clear Hstep'. cbv zeta in Hstep. simpl in Hstep. rewrite Hn in Hstep.
    destruct (Z.leb_spec MinerInstance.maxHealthFailures (n + 1)) as [Hge|Hlt];
      unfold MinerInstance.maxHealthFailures in *.
    + destruct (Hstop (MinerInstance.set_healthFailures (n + 1) (instance m))
                  eq_refl Hge)
        as (w1 & inst2 & w2 & Hw & Hs & Hl2 & Hf2 & Hp2 & Ht2).
      rewrite Hw, Hs in Hstep. simplify_eq. health_leaf Hrun.
    + simplify_eq. health_leaf Hrun.
  - (* a 2xx answer clears the counter *)
    destruct reply as [[]|]; try discriminate Hfail.
    simplify_eq. health_leaf Hrun.
Qed.

Lemma healthy_step e m m' n :
  healthy m n -> Health.step h m e = Some m' -> healthy m' (Health.count n e).
Proof.
  intros Hm Hstep. destruct e as [|reply| |failure].
  - destruct Hm as (Hn & Hpos & Hlog & Hrun). simpl in Hstep.
    destruct (healthCheckTimer (instance m)); [|done]. by simplify_eq.
  - by apply (probe_answered reply m m' n).
  - destruct Hm as (Hn & Hpos & Hlog & Hrun). simpl in Hstep.
    unfold MinerInstance.onExit in Hstep.
    destruct (Logger.info h _ _) as [r w2] eqn:E.
    apply log_effect in E as (Hl & _).
    simplify_eq. unfold healthy. simpl. split_and!; try done.
    all: unfold MinerInstance.stopHealthCheck; simpl; case_match; simpl;
      try done; intros Hp; by destruct Hp.
  - destruct Hm as (Hn & Hpos & Hlog & Hrun). simpl in Hstep.
    destruct (MinerInstance.spawnErrorPending (instance m)) eqn:Ep; [|done].
    pose proof (onSpawnError_effect h failure (instance m) (world m)) as He.
    destruct (MinerInstance.onSpawnError h failure (instance m) (world m))
      as [inst1 w1].
    destruct He as (-> & Hl & _). simplify_eq.
    unfold MinerInstance.spawnErrorPending in Ep.
    destruct (process (instance m)) as [p|] eqn:Hp; [|done].
    unfold healthy. simpl. split_and!; try done.
    intros _. apply Hrun. done.
Qed.

Lemma healthy_steps tr : forall m m' n,
  healthy m n -> Health.steps h m tr = Some m' ->
  healthy m' (fold_left Health.count tr n).
Proof.
  induction tr as [|e tr IH]; intros m m' n Hm Hs; simpl in *.
  - by simplify_eq.
  - destruct (Health.step h m e) as [m1|] eqn:E; [|done].
    eapply IH; [|done]. by eapply healthy_step.
Qed.

End HealthFacts.

Lemma steps_snoc h tr : forall m e,
  Health.steps h m (tr ++ [e])
  = match Health.steps h m tr with
    | Some m1 => Health.step h m1 e
    | None => None
    end.
Proof.
  induction tr as [|e' tr IH]; intros m e; simpl.
  - by destruct (Health.step h m e).
  - destruct (Health.step h m e'); [apply IH|done].
Qed.

(** A successful [start] sets the logger up and leaves the instance as the
    health checker expects it: it owns the new child, the interval is set
    and the counter is zero. *)
Lemma start_begins_health_check h inst w inst' w' :
  process inst = None ->
  MinerInstance.start h inst w = (Ok tt, inst', w') ->
  logDirSet w' = true
  /\ exists proc,
       exitCode proc = None
       /\ {| instance := inst'; world := w'; inFlight := O; stopCalls := O |}
          = Health.started (config inst) proc w' 0.
Proof.
  intros Hp. unfold MinerInstance.start. rewrite Hp. cbv zeta.
  unfold bind at 1.
  destruct (GenesisInit.initMinerDataDir _ _ _ _ w) as [[[]|e] wa]; [|done].
  unfold bind at 1.
  destruct (onFs _ wa) as [[[]|e] wb]; [|done].
  destruct (Logger.info h "Spawning Geth" wb) as [[[]|e] w1] eqn:El; [|done].
  apply log_effect in El as (Hl & _).
  match goal with |- context [?m (add_spawn ?c w1)] =>
    assert (Hw : forall w0 r w3, m w0 = (r, w3) -> logDirSet w3 = logDirSet w0);
    [|destruct (m (add_spawn c w1)) as [[[]|e] w3] eqn:E'; [|done];
      apply Hw in E']
  end.
  { intros w0 r w3. destruct (assignPid _ _ _ _) as [n|]; [|by intros [= _ <-]].
    destruct (MinerInstance.truthyNumber _); [|by intros [= _ <-]].
    unfold onFs. destruct (Fs.writeFileSync _ _ _); by intros [= _ <-]. }
  intros [= <- <-]. split; [by rewrite E'|].
  eexists. split; [|reflexivity]. done.
Qed.

(** C4.  Take an instance whose health checker has just been started on a
    live child (the logger being set up, as it is after any [start]), and
    any history [tr] of timer ticks, answered probes, child exit and
    delivery of a spawn failure, after which the machine is in state [m];
    let one more probe be answered, giving [m'].  Then: the counter is the
    number of consecutive failures at the end of the history; a 2xx answer
    resets it
    to 0 and invokes nothing; [stop] is invoked by this answer exactly when
    the count of consecutive failures is then at least 3; and while the
    instance still owns its child, [stop] has never been invoked, fewer
    than 3 consecutive failures have accumulated, and this answer invokes
    [stop] exactly when it is the third consecutive failure, after which
    the child is released and the interval cleared. *)
Theorem health_check_stops_at_three (h : Host) (c : MinerInstanceConfig)
    (proc : ChildProcess) (w : World) (pending : nat)
    (tr : list HealthEvent) (reply : ProbeReply) (m m' : Monitor) :
  logDirSet w = true ->
  Health.steps h (Health.started c proc w pending) tr = Some m ->
  Health.step h m (ProbeAnswered reply) = Some m' ->
  let before := Health.consecutiveFailures tr in
  let after := Health.consecutiveFailures (tr ++ [ProbeAnswered reply]) in
  healthFailures (instance m) = before
  /\ healthFailures (instance m') = after
  /\ (Health.failed reply = false -> after = 0 /\ stopCalls m' = stopCalls m)
  /\ (stopCalls m' = S (stopCalls m) <-> 3 <= after)
  /\ (stopCalls m' = stopCalls m <-> after < 3)
  /\ (process (instance m) <> None ->
        stopCalls m = O
        /\ before < 3
        /\ (stopCalls m' = 1%nat <-> after = 3)
        /\ (stopCalls m' = O <-> after < 3)
        /\ (stopCalls m' = 1%nat ->
              process (instance m') = None
              /\ healthCheckTimer (instance m') = false)).
Proof.
  intros Hlog Hsteps Hstep before after.
  assert (H0 : healthy (Health.started c proc w pending) 0).
  { unfold healthy, Health.started. simpl.
    split_and!; try done; intros _; split; try done; lia. }
  pose proof (healthy_steps h tr _ _ _ H0 Hsteps) as Hm.
  fold (Health.consecutiveFailures tr) in Hm. fold before in Hm.
  destruct (probe_answered h reply m m' before Hm Hstep)
    as (Hm' & Hok & Hinv & Hnot & Hrel).
  assert (Hafter : after = Health.count before (ProbeAnswered reply)).
  { subst after before. unfold Health.consecutiveFailures.
    by rewrite fold_left_app. }
  rewrite <- Hafter in *.
  destruct Hm as (Hn & Hpos & _ & Hrun).
  destruct Hm' as (Hn' & _ & _ & _).
  split_and!; try done.
  - intros Hf. split; [|by apply Hok].
    rewrite Hafter. simpl. by rewrite Hf.
  - intros Hp. destruct (Hrun Hp) as [Hz Hlt].
    assert (Hle : after <= before + 1).
    { rewrite Hafter. simpl. destruct (Health.failed reply); lia. }
    rewrite Hz in *. split_and!; try done.
    + rewrite Hinv. lia.
    + intros Hone. destruct (Hrel Hone) as [? Ht]. split; [done|by apply Ht].
Qed.

Lemma health_check_stops_at_three_witness :
  exists m m',
    Health.steps Demo.host Demo.monitored Demo.twoFailures = Some m
    /\ Health.step Demo.host m (ProbeAnswered Rejected) = Some m'
    /\ process (instance m) <> None
    /\ stopCalls m = O
    /\ Health.consecutiveFailures
         (Demo.twoFailures ++ [ProbeAnswered Rejected]) = 3
    /\ stopCalls m' = 1%nat
    /\ process (instance m') = None.
Proof.
  destruct (Health.steps Demo.host Demo.monitored Demo.twoFailures)
    as [m|] eqn:E1; [|exfalso; vm_compute in E1; discriminate E1].
  destruct (Health.step Demo.host m (ProbeAnswered Rejected))
    as [m'|] eqn:E2.
  2:{ exfalso. assert (E := E1). vm_compute in E. injection E as <-.
      vm_compute in E2. discriminate E2. }
  exists m, m'.
  assert (Hp : process (instance m) <> None).
  { assert (E := E1). vm_compute in E. injection E as <-.
    intros Hc. vm_compute in Hc. discriminate Hc. }
  assert (Ha : Health.consecutiveFailures
                 (Demo.twoFailures ++ [ProbeAnswered Rejected]) = 3)
    by reflexivity.
  destruct (health_check_stops_at_three Demo.host (Demo.config 1)
              {| pid := Some 4000; exitCode := None |} (Demo.world ∅ true)
              0 Demo.twoFailures Rejected m m' eq_refl E1 E2)
    as (_ & _ & _ & _ & _ & Hrun).
  destruct (Hrun Hp) as (Hz & _ & Hiff & _ & Hrel).
  split_and!; [done|done|exact Hp|exact Hz|exact Ha|exact (proj2 Hiff Ha)|].
  exact (proj1 (Hrel (proj2 Hiff Ha))).
Defined.

(** ** The obfuscated mnemonic store (WalletService.ts) *)

Section MnemonicFacts.

Lemma xor_involutive a b : Buffer.xor (Buffer.xor a b) b = a.
Proof.
  unfold Buffer.xor.
  destruct (Byte.to_bits a)
    as (a0 & a1 & a2 & a3 & a4 & a5 & a6 & a7) eqn:Ea.
  destruct (Byte.to_bits b)
    as (b0 & b1 & b2 & b3 & b4 & b5 & b6 & b7) eqn:Eb.
  rewrite Byte.to_bits_of_bits.
  rewrite <- (Byte.of_bits_to_bits a), Ea.
  assert (Hx : forall u v, xorb (xorb u v) v = u) by (by intros [] []).
  by rewrite !Hx.
Qed.

Lemma xorLoop_involutive key buf : forall i,
  WalletService.xorLoop key i (WalletService.xorLoop key i buf) = buf.
Proof.
  induction buf as [|b buf IH]; intros i; simpl; [done|].
  by rewrite xor_involutive, IH.
Qed.

Lemma digit_roundtrip (s : Buffer.sextet) :
  Buffer.charSextet (Buffer.sextetChar s) = Some s
  /\ Ascii.eqb (Buffer.sextetChar s) "=" = false.
Proof.
  destruct s as [[[[[[] []] []] []] []] []]; vm_compute; done.
Qed.

Lemma digits_cons s r :
  Buffer.digits (String (Buffer.sextetChar s) r) = s :: Buffer.digits r.
Proof.
  destruct (digit_roundtrip s) as [H1 H2]. simpl. by rewrite H2, H1.
Qed.

Lemma pack_four a b c d rest :
  Buffer.pack (a :: b :: c :: d :: rest)
  = Buffer.pack [a; b; c; d] ++ Buffer.pack rest.
Proof.
  destruct a as [[[[[a5 a4] a3] a2] a1] a0], b as [[[[[b5 b4] b3] b2] b1] b0],
    c as [[[[[c5 c4] c3] c2] c1] c0], d as [[[[[d5 d4] d3] d2] d1] d0].
  reflexivity.
Qed.

(** Three bytes, printed and read back. *)
Lemma base64_group x y z :
  exists a b c d,
    (forall rest, Buffer.toString_base64 (x :: y :: z :: rest)
       = String (Buffer.sextetChar a) (String (Buffer.sextetChar b)
           (String (Buffer.sextetChar c) (String (Buffer.sextetChar d)
              (Buffer.toString_base64 rest)))))
    /\ Buffer.pack [a; b; c; d] = [x; y; z].
Proof.
  destruct (Buffer.bits x)
    as (x0 & x1 & x2 & x3 & x4 & x5 & x6 & x7) eqn:Ex.
  destruct (Buffer.bits y)
    as (y0 & y1 & y2 & y3 & y4 & y5 & y6 & y7) eqn:Ey.
  destruct (Buffer.bits z)
    as (z0 & z1 & z2 & z3 & z4 & z5 & z6 & z7) eqn:Ez.
  exists (x7, x6, x5, x4, x3, x2), (x1, x0, y7, y6, y5, y4),
         (y3, y2, y1, y0, z7, z6), (z5, z4, z3, z2, z1, z0).
  split.
  - intros rest. cbn [Buffer.toString_base64]. by rewrite Ex, Ey, Ez.
  - cbn [Buffer.pack]. unfold Buffer.bits in *.
    by rewrite <- Ex, <- Ey, <- Ez, !Byte.of_bits_to_bits.
Qed.

Lemma base64_tail2 x y :
  Buffer.from_base64 (Buffer.toString_base64 [x; y]) = [x; y].
Proof.
  unfold Buffer.from_base64. cbn [Buffer.toString_base64].
  destruct (Buffer.bits x)
    as (x0 & x1 & x2 & x3 & x4 & x5 & x6 & x7) eqn:Ex.
  destruct (Buffer.bits y)
    as (y0 & y1 & y2 & y3 & y4 & y5 & y6 & y7) eqn:Ey.
  rewrite !digits_cons. cbn [Buffer.digits Ascii.eqb Bool.eqb Buffer.pack].
  unfold Buffer.bits in *.
  by rewrite <- Ex, <- Ey, !Byte.of_bits_to_bits.
Qed.

Lemma base64_tail1 x :
  Buffer.from_base64 (Buffer.toString_base64 [x]) = [x].
Proof.
  unfold Buffer.from_base64. cbn [Buffer.toString_base64].
  destruct (Buffer.bits x)
    as (x0 & x1 & x2 & x3 & x4 & x5 & x6 & x7) eqn:Ex.
  rewrite !digits_cons. cbn [Buffer.digits Ascii.eqb Bool.eqb Buffer.pack].
  unfold Buffer.bits in *.
  by rewrite <- Ex, !Byte.of_bits_to_bits.
Qed.

(** Decoding what was encoded gives the bytes back. *)
Lemma base64_roundtrip buf :
  Buffer.from_base64 (Buffer.toString_base64 buf) = buf.
Proof.
  remember (List.length buf) as n eqn:Hn.
  revert buf Hn. induction n as [n IH] using lt_wf_ind. intros buf Hn.
  destruct buf as [|x [|y [|z rest]]].
  - reflexivity.
  - apply base64_tail1.
  - apply base64_tail2.
  - destruct (base64_group x y z) as (a & b & c & d & Henc & Hdec).
    unfold Buffer.from_base64 in *. rewrite Henc, !digits_cons, pack_four.
    rewrite Hdec. simpl. do 3 f_equal.
    apply (IH (List.length rest)); [|done]. subst n. simpl. lia.
Qed.

(** Obfuscation undone with the same password gives the phrase back,
    whatever the password. *)
Lemma deobfuscate_obfuscate data password :
  WalletService.simpleDeobfuscate
    (WalletService.simpleObfuscate data password) password = data.
Proof.
  unfold WalletService.simpleDeobfuscate, WalletService.simpleObfuscate.
  rewrite base64_roundtrip, xorLoop_involutive.
  apply string_of_list_byte_of_string.
Qed.

End MnemonicFacts.

Section MnemonicStore.
Variable h : Host.

Lemma walletEnc_not_log : Paths.getWalletEncPath h <> appLog h.
Proof.
  unfold Paths.getWalletEncPath, appLog, Paths.getLogsDir, Fs.join.
  intros H. apply (f_equal List.length) in H.
  rewrite !length_app in H. simpl in H. lia.
Qed.

Lemma chmodSync_inv (p : Fs.path) (files files' : gmap (list string) Fs.node) :
  Fs.chmodSync p files = Ok files' -> files' = files.
Proof. unfold Fs.chmodSync. intros H. by repeat case_match; simplify_eq. Qed.

(** A successful [saveMnemonic] leaves the obfuscated phrase in
    [wallet.enc]. *)
Lemma saveMnemonic_writes mnemonic password w w1 :
  WalletService.saveMnemonic h mnemonic password w = (Ok tt, w1) ->
  fs w1 !! Paths.getWalletEncPath h
  = Some (Fs.File (WalletService.simpleObfuscate mnemonic password)).
Proof.
  unfold WalletService.saveMnemonic. unfold_M.
  destruct (Fs.mkdirSync _ (fs w)) as [f1|] eqn:E1; [|done]. simpl.
  destruct (Fs.writeFileSync _ _ f1) as [f2|] eqn:E2; [|done]. simpl.
  apply writeFileSync_inv in E2 as ->.
  destruct (Fs.chmodSync _ _) as [f3|] eqn:E3; [|done]. simpl.
  apply chmodSync_inv in E3 as ->.
  intros H. apply log_effect in H as (_ & _ & Hkeep & _).
  apply Hkeep; [apply walletEnc_not_log|].
  simpl. apply lookup_insert_eq.
Qed.

(** Whenever [wallet.enc] is a file, [loadMnemonic] deobfuscates its
    content. *)
Lemma loadMnemonic_reads password w encoded :
  fs w !! Paths.getWalletEncPath h = Some (Fs.File encoded) ->
  WalletService.loadMnemonic h password w
  = (Ok (Some (WalletService.simpleDeobfuscate encoded password)), w).
Proof.
  intros H. unfold WalletService.loadMnemonic. unfold_M.
  unfold Fs.existsSync, Fs.readFileSync.
  assert (Hs : Fs.stat (fs w) (Paths.getWalletEncPath h)
               = Some (Fs.File encoded)).
  { rewrite <- H. apply stat_snoc. }
  rewrite Hs. simpl. by rewrite Hs.
Qed.

End MnemonicStore.

(** C9.  For every phrase [m] and every non-empty password [p], once
    [saveMnemonic m p] has returned, [loadMnemonic p] returns [m]: the XOR
    with the password bytes, applied twice around the base64 encoding, is
    the identity on the stored phrase. *)
Theorem mnemonic_roundtrip (h : Host) (m p : string) (w w1 : World) :
  p <> "" ->
  WalletService.saveMnemonic h m p w = (Ok tt, w1) ->
  WalletService.simpleDeobfuscate (WalletService.simpleObfuscate m p) p = m
  /\ WalletService.loadMnemonic h p w1 = (Ok (Some m), w1).
Proof.
  intros _ Hsave. split; [apply deobfuscate_obfuscate|].
  rewrite (loadMnemonic_reads h p w1 _ (saveMnemonic_writes h m p w w1 Hsave)).
  by rewrite deobfuscate_obfuscate.
Qed.

Lemma mnemonic_roundtrip_witness :
  "pw" <> ""
  /\ WalletService.loadMnemonic Demo.host "pw"
       (snd (WalletService.saveMnemonic Demo.host "abandon ability able" "pw"
               Demo.fresh))
     = (Ok (Some "abandon ability able"),
        snd (WalletService.saveMnemonic Demo.host "abandon ability able" "pw"
               Demo.fresh)).
Proof.
  split; [discriminate|].
  refine (proj2 (mnemonic_roundtrip Demo.host "abandon ability able" "pw"
                   Demo.fresh _ _ _)).
  - discriminate.
  - vm_compute. reflexivity.
Defined.

(** ** Genesis initialisation (GenesisInit.ts) *)

Section GenesisFacts.
Variable h : Host.

(** When the data root and everything above it are directories, a log
    call returns. *)
Lemma log_returns_ready level msg w :
  (forall q, q `prefix_of` Paths.getMarsCreditDir h ->
             Fs.stat (fs w) q = Some Fs.Dir) ->
  exists w', Logger.log h level msg w = (Ok tt, w').
Proof.
  intros Hroot. unfold Logger.log, Logger.ensureLogDir. unfold_M.
  destruct (logDirSet w).
  { destruct (Fs.appendFileSync _ _ _); eauto. }
  simpl. destruct (Fs.existsSync (fs w) (Paths.getLogsDir h)) eqn:Ex.
  { simpl. destruct (Fs.appendFileSync _ _ _); eauto. }
  destruct (mkdirFrom_succeeds (Paths.getLogsDir h) [] (fs w)) as [f1 Hf1].
  { intros q c Hq. simpl in Hq. unfold Paths.getLogsDir, Fs.join in Hq.
    apply prefix_snoc_cases in Hq as [->|Hq].
    - unfold Fs.existsSync, Paths.getLogsDir, Fs.join in Ex.
      intros Hf. by rewrite Hf in Ex.
    - by rewrite (Hroot q Hq). }
  unfold Fs.mkdirSync. rewrite Hf1. simpl.
  destruct (Fs.appendFileSync _ _ _); eauto.
Qed.

(** In a tree-shaped filesystem whose data root is a directory, a log call
    returns. *)
Lemma log_returns_in_tree level msg w :
  treeShaped (fs w) ->
  Fs.stat (fs w) (Paths.getMarsCreditDir h) = Some Fs.Dir ->
  exists w', Logger.log h level msg w = (Ok tt, w').
Proof.
  intros Ht Hroot. apply log_returns_ready. intros q [k Hk].
  destruct k as [|a k].
  - rewrite app_nil_r in Hk. by rewrite <- Hk.
  - apply (ancestors_are_dirs (fs w) (a :: k) q Ht); [done|].
    rewrite <- Hk, Hroot. eauto.
Qed.

Lemma dataDir_not_logArea i rest :
  ~ logArea h (Paths.getMinerDataDir h i ++ rest).
Proof.
  unfold logArea, appLog, Paths.getLogsDir, Paths.getMinerDataDir, Fs.join.
  intros [H|[k H]].
  - rewrite <- !app_assoc in H. apply app_inv_head in H. discriminate H.
  - rewrite <- !app_assoc in H. apply app_inv_head in H. discriminate H.
Qed.

Lemma chaindataDir_not_log i : chaindataDir h i <> appLog h.
Proof.
  intros H. apply (dataDir_not_logArea i GenesisInit.CHAINDATA_DIR).
  left. exact H.
Qed.

Lemma chaindataDir_nonempty i : chaindataDir h i <> [].
Proof.
  unfold chaindataDir, Fs.join, GenesisInit.CHAINDATA_DIR.
  intros H. apply app_eq_nil in H as [_ H]. discriminate H.
Qed.

(** A log call keeps what exists, the log file apart. *)
Lemma log_keeps_existing level msg w r w' q :
  Logger.log h level msg w = (r, w') ->
  q <> appLog h -> q <> [] ->
  Fs.existsSync (fs w) q = true -> Fs.existsSync (fs w') q = true.
Proof.
  intros Hl Hq Hne. apply log_effect in Hl as (_ & _ & Hkeep & _).
  rewrite !existsSync_true. destruct q as [|a q]; [done|]. simpl.
  intros [x Hx]. rewrite (Hkeep _ _ Hq Hx). eauto.
Qed.

(** With the chain data in place the initialiser does what its debug log
    line does, and nothing else. *)
Lemma initMinerDataDir_initialised geth i genesis w :
  Fs.existsSync (fs w) (chaindataDir h i) = true ->
  GenesisInit.initMinerDataDir h geth i genesis w
  = Logger.debug h "Chaindata exists, skipping genesis init" w.
Proof.
  intros He. unfold GenesisInit.initMinerDataDir. unfold_M.
  fold (chaindataDir h i). by rewrite He.
Qed.

(** A run of the initialiser that returns leaves the logger set up and,
    geth behaving as expected, the chain data in place. *)
Lemma initMinerDataDir_returns geth i genesis w w1 :
  gethInitCreatesChaindata h ->
  GenesisInit.initMinerDataDir h geth i genesis w = (Ok tt, w1) ->
  logDirSet w1 = true /\ Fs.existsSync (fs w1) (chaindataDir h i) = true.
Proof.
  intros Hgeth. unfold GenesisInit.initMinerDataDir.
  fold (chaindataDir h i). unfold bind at 1. unfold existsSync at 1.
  destruct (Fs.existsSync (fs w) (chaindataDir h i)) eqn:He.
  { intros Hl. split.
    - by apply log_effect in Hl as (? & _).
    - eapply log_keeps_existing;
        [exact Hl|apply chaindataDir_not_log|apply chaindataDir_nonempty|done]. }
  unfold bind at 1.
  destruct (match genesis with Some g => ret g | None => _ end w)
    as [[g|e] wa]; [|done].
  unfold bind at 1. unfold existsSync at 1.
  destruct (negb _); [done|].
  unfold bind at 1. destruct (onFs _ wa) as [[[]|e] wb]; [|done].
  unfold bind at 1. destruct (onFs _ wb) as [[[]|e] wc]; [|done].
  unfold bind at 1. destruct (onFs _ wc) as [[[]|e] wd]; [|done].
  unfold bind at 1. destruct (Logger.info h _ wd) as [[[]|e] we]; [|done].
  unfold catch, bind at 1.
  unfold GenesisInit.execGethInit at 1.
  destruct (gethInit h _ (fs (add_exec _ we))) as [f1|e] eqn:Eg.
  2:{ unfold bind. destruct (Logger.error h _ _) as [[[]|?] ?]; done. }
  apply Hgeth in Eg. simpl in Eg. fold (chaindataDir h i) in Eg.
  destruct (Logger.info h _ (set_fs f1 _)) as [[[]|e] wf] eqn:El.
  2:{ unfold bind. destruct (Logger.error h _ _) as [[[]|?] ?]; done. }
  intros [= <-]. split.
  - by apply log_effect in El as (? & _).
  - eapply log_keeps_existing;
      [exact El|apply chaindataDir_not_log|apply chaindataDir_nonempty|done].
Qed.

End GenesisFacts.

(** C5, as the code has it.  When [miners/<i>/geth/chaindata] exists,
    [initMinerDataDir] runs no geth init, spawns and signals nothing, and
    creates or changes no file or directory outside the supervisor's own
    log: the whole [miners/<i>] tree, the chain data included, is as
    before, and the chain data is still in place.  Its one effect is the
    debug line it writes through the logger, which appends to
    [logs/app.log] and creates [logs/] on first use.  It returns normally
    whenever the logger is set up or the filesystem is tree-shaped.
    Hence, geth creating the chain data when it succeeds, a second run
    after a successful first run returns and leaves [miners/<i>] as the
    first run left it. *)
Theorem initMinerDataDir_idempotent (h : Host) (geth : string) (i : Z)
    (genesis : option Fs.path) :
  (forall w,
     Fs.existsSync (fs w) (chaindataDir h i) = true ->
     let '(r, w') := GenesisInit.initMinerDataDir h geth i genesis w in
     (r, w') = Logger.debug h "Chaindata exists, skipping genesis init" w
     /\ sameProcesses w w'
     /\ (forall q, ~ logArea h q -> fs w' !! q = fs w !! q)
     /\ (forall rest, fs w' !! (Paths.getMinerDataDir h i ++ rest)
                      = fs w !! (Paths.getMinerDataDir h i ++ rest))
     /\ Fs.existsSync (fs w') (chaindataDir h i) = true
     /\ (logDirSet w = true \/ treeShaped (fs w) -> r = Ok tt))
  /\ (gethInitCreatesChaindata h ->
      forall w0 w1,
        GenesisInit.initMinerDataDir h geth i genesis w0 = (Ok tt, w1) ->
        exists w2,
          GenesisInit.initMinerDataDir h geth i genesis w1 = (Ok tt, w2)
          /\ execs w2 = execs w1
          /\ forall rest, fs w2 !! (Paths.getMinerDataDir h i ++ rest)
                          = fs w1 !! (Paths.getMinerDataDir h i ++ rest)).
Proof.
  assert (Hmain : forall w,
     Fs.existsSync (fs w) (chaindataDir h i) = true ->
     let '(r, w') := GenesisInit.initMinerDataDir h geth i genesis w in
     (r, w') = Logger.debug h "Chaindata exists, skipping genesis init" w
     /\ sameProcesses w w'
     /\ (forall q, ~ logArea h q -> fs w' !! q = fs w !! q)
     /\ (forall rest, fs w' !! (Paths.getMinerDataDir h i ++ rest)
                      = fs w !! (Paths.getMinerDataDir h i ++ rest))
     /\ Fs.existsSync (fs w') (chaindataDir h i) = true
     /\ (logDirSet w = true \/ treeShaped (fs w) -> r = Ok tt)).
  { intros w He. rewrite (initMinerDataDir_initialised h geth i genesis w He).
    unfold Logger.debug.
    destruct (Logger.log h LDebug _ w) as [r w'] eqn:El.
    pose proof El as Heff. apply log_effect in Heff as (_ & Hsame & _ & Hframe).
    split_and!; try done.
    - intros rest. apply Hframe, dataDir_not_logArea.
    - eapply log_keeps_existing;
        [exact El|apply chaindataDir_not_log|apply chaindataDir_nonempty|done].
    - intros [Hs|Ht].
      + destruct (log_returns h LDebug
                    "Chaindata exists, skipping genesis init" w Hs) as [w2 H2].
        congruence.
      + destruct (log_returns_in_tree h LDebug
                    "Chaindata exists, skipping genesis init" w Ht) as [w2 H2];
          [|congruence].
        apply (ancestors_are_dirs (fs w)
                 ("miners" :: Js.String_of_number i :: GenesisInit.CHAINDATA_DIR));
          [done|done|].
        apply existsSync_true in He.
        unfold chaindataDir, Paths.getMinerDataDir, Fs.join in He.
        rewrite <- app_assoc in He. exact He. }
  split; [exact Hmain|].
  intros Hgeth w0 w1 Hfirst.
  destruct (initMinerDataDir_returns h geth i genesis w0 w1 Hgeth Hfirst)
    as [Hs He].
  specialize (Hmain w1 He).
  destruct (GenesisInit.initMinerDataDir h geth i genesis w1) as [r w2].
  destruct Hmain as (_ & (Hex & _) & _ & Htree & _ & Hr).
  exists w2. rewrite (Hr (or_introl Hs)). done.
Qed.

Lemma demo_geth_creates_chaindata : gethInitCreatesChaindata Demo.host.
Proof.
  intros c files files' H. simpl in H. apply mkdirSync_dir in H.
  apply existsSync_true. unfold GenesisInit.CHAINDATA_DIR. eauto.
Qed.

Lemma initMinerDataDir_idempotent_witness :
  Fs.existsSync (fs Demo.runningWorld) (chaindataDir Demo.host 1) = true
  /\ gethInitCreatesChaindata Demo.host
  /\ (exists w2,
        GenesisInit.initMinerDataDir Demo.host "geth" 1 None Demo.runningWorld
        = (Ok tt, w2)
        /\ execs w2 = execs Demo.runningWorld
        /\ fs w2 !! chaindataDir Demo.host 1 = Some Fs.Dir)
  /\ (exists w2,
        GenesisInit.initMinerDataDir Demo.host "geth" 1 None
          (snd (GenesisInit.initMinerDataDir Demo.host "geth" 1 None Demo.fresh))
        = (Ok tt, w2)).
Proof.
  assert (He : Fs.existsSync (fs Demo.runningWorld) (chaindataDir Demo.host 1)
               = true) by (vm_compute; reflexivity).
  split; [exact He|]. split; [exact demo_geth_creates_chaindata|].
  destruct (initMinerDataDir_idempotent Demo.host "geth" 1 None)
    as [Hmain Hsecond].
  split.
  - specialize (Hmain Demo.runningWorld He).
    destruct (GenesisInit.initMinerDataDir Demo.host "geth" 1 None
                Demo.runningWorld) as [r w2].
    destruct Hmain as (_ & (Hex & _) & _ & Htree & _ & Hr).
    exists w2. rewrite (Hr (or_introl eq_refl)).
    split_and!; [reflexivity|exact Hex|].
    change (chaindataDir Demo.host 1)
      with (Paths.getMinerDataDir Demo.host 1 ++ GenesisInit.CHAINDATA_DIR).
    rewrite Htree. vm_compute. reflexivity.
  - destruct (Hsecond demo_geth_creates_chaindata Demo.fresh
                (snd (GenesisInit.initMinerDataDir Demo.host "geth" 1 None
                        Demo.fresh)))
      as (w2 & H2 & _); [vm_compute; reflexivity|].
    by exists w2.
Defined.

(** C5 as stated fails: miner 1 is initialised and the supervisor has no
    [logs] directory yet; the call does not run geth init, but it does act
    on the filesystem: it creates the directory [logs] and the file
    [logs/app.log] for its debug line. *)
Lemma initMinerDataDir_creates_log_directory :
  let w' := snd (GenesisInit.initMinerDataDir Demo.host "geth" 1 None
                   Demo.synced) in
  Fs.existsSync (fs Demo.synced) (chaindataDir Demo.host 1) = true
  /\ fs Demo.synced !! Paths.getLogsDir Demo.host = None
  /\ fs w' !! Paths.getLogsDir Demo.host = Some Fs.Dir
  /\ fs w' !! appLog Demo.host
     = Some (Fs.File "Chaindata exists, skipping genesis init;")
  /\ w' <> Demo.synced.
Proof.
  cbv zeta. split_and!; try (vm_compute; reflexivity).
  intros H. apply (f_equal logDirSet) in H. vm_compute in H. discriminate H.
Qed.

(** ** When the wallet operations return *)

Section WalletReturns.
Variable h : Host.

Lemma writeFileSync_snoc (p : Fs.path) (n data : string)
    (files : gmap (list string) Fs.node) :
  Fs.stat files p = Some Fs.Dir ->
  files !! (p ++ [n]) <> Some Fs.Dir ->
  Fs.writeFileSync (p ++ [n]) data files
  = Ok (<[p ++ [n] := Fs.File data]> files).
Proof.
  intros Hp Hf. unfold Fs.writeFileSync, Fs.dirname.
  rewrite removelast_last, Hp, stat_snoc.
  destruct (p ++ [n]) as [|a l] eqn:E; [by destruct p|].
  by destruct (files !! (a :: l)) as [[|c]|].
Qed.

(** Creating the data root and writing a file directly under it succeeds
    unless a regular file is in the way of the root or the file's name is
    taken by a directory; the logger can then write too. *)
Lemma write_under_root n data w :
  (forall q c, q `prefix_of` Paths.getMarsCreditDir h ->
               Fs.stat (fs w) q <> Some (Fs.File c)) ->
  fs w !! (Paths.getMarsCreditDir h ++ [n]) <> Some Fs.Dir ->
  exists f1,
    Fs.mkdirSync (Paths.getMarsCreditDir h) (fs w) = Ok f1
    /\ Fs.writeFileSync (Paths.getMarsCreditDir h ++ [n]) data f1
       = Ok (<[Paths.getMarsCreditDir h ++ [n] := Fs.File data]> f1)
    /\ forall level msg,
         exists w', Logger.log h level msg
                      (set_fs (<[Paths.getMarsCreditDir h ++ [n]
                                 := Fs.File data]> f1) w)
                    = (Ok tt, w').
Proof.
  intros Hno Hfile.
  destruct (mkdirFrom_succeeds (Paths.getMarsCreditDir h) [] (fs w) Hno)
    as [f1 Hf1].
  exists f1. split; [exact Hf1|].
  assert (Hlen : forall q, q `prefix_of` Paths.getMarsCreditDir h ->
                           q <> Paths.getMarsCreditDir h ++ [n]).
  { intros q [k Hk] ->. apply (f_equal List.length) in Hk.
    rewrite !length_app in Hk. simpl in Hk. lia. }
  split.
  - apply writeFileSync_snoc; [by eapply mkdirSync_dir|].
    intros Hd. destruct (mkdirSync_added _ _ _ _ _ Hf1 Hd) as [?|[_ Hpre]];
      [done|by eapply Hlen].
  - intros level msg. apply log_returns_ready. simpl. intros q Hq.
    destruct q as [|a q]; [done|]. simpl.
    rewrite lookup_insert_ne by (intros E; by eapply Hlen).
    by apply (mkdirSync_prefix_dirs _ _ _ (a :: q) Hf1).
Qed.

(** [setAddressOnly] returns for every valid address unless a regular
    file is in the way of the data root or [mining_address.txt] is a
    directory. *)
Lemma setAddressOnly_returns a w :
  matchesAddressPattern a ->
  (forall q c, q `prefix_of` Paths.getMarsCreditDir h ->
               Fs.stat (fs w) q <> Some (Fs.File c)) ->
  fs w !! WalletService.miningAddressFile h <> Some Fs.Dir ->
  exists w1, WalletService.setAddressOnly h a w = (Ok tt, w1).
Proof.
  intros Hv%isValidAddress_spec Hno Hfile.
  destruct (write_under_root "mining_address.txt" a w Hno Hfile)
    as (f1 & Hm & Hw & Hl).
  unfold WalletService.setAddressOnly. rewrite Hv. unfold_M. simpl.
  unfold Fs.join. rewrite Hm. simpl. rewrite Hw. simpl. apply Hl.
Qed.

(** [saveMnemonic] returns under the same conditions on [wallet.enc]. *)
Lemma saveMnemonic_returns m p w :
  (forall q c, q `prefix_of` Paths.getMarsCreditDir h ->
               Fs.stat (fs w) q <> Some (Fs.File c)) ->
  fs w !! Paths.getWalletEncPath h <> Some Fs.Dir ->
  exists w1, WalletService.saveMnemonic h m p w = (Ok tt, w1).
Proof.
  intros Hno Hfile.
  destruct (write_under_root "wallet.enc"
              (WalletService.simpleObfuscate m p) w Hno Hfile)
    as (f1 & Hm & Hw & Hl).
  unfold WalletService.saveMnemonic. unfold_M.
  unfold Paths.getWalletEncPath, Fs.join, Fs.dirname.
  rewrite removelast_last, Hm. simpl. rewrite Hw. simpl.
  unfold Fs.chmodSync. rewrite stat_snoc, lookup_insert_eq. simpl.
  apply Hl.
Qed.

End WalletReturns.

(** ** One child per tab (MinerService.ts) *)

Lemma getOrCreateInstance_process i config s inst :
  instances s !! i = Some inst ->
  process (fst (MinerService.getOrCreateInstance i config s)) = process inst.
Proof.
  intros Hi. unfold MinerService.getOrCreateInstance. cbv zeta. simpl.
  rewrite Hi. by destruct config.
Qed.

(** [startMiner] on a tab whose instance owns a child spawns nothing,
    whether the child is still running or has an exit code already. *)
Lemma startMiner_when_owned h i config s w inst proc :
  instances s !! i = Some inst ->
  process inst = Some proc ->
  spawned (snd (MinerService.startMiner h i config s w)) = spawned w.
Proof.
  intros Hi Hp.
  unfold MinerService.startMiner, MinerService.startMinerBegin.
  pose proof (getOrCreateInstance_process i config s inst Hi) as Hproc.
  destruct (MinerService.getOrCreateInstance i config s) as [inst1 s1].
  simpl in Hproc. rewrite Hp in Hproc.
  destruct (MinerInstance.isRunning inst1).
  - destruct (Logger.info h _ w) as [r w1] eqn:E.
    apply log_effect in E as (_ & (_ & ? & _) & _). by destruct r.
  - pose proof (start_when_owned_spawned h inst1 proc w Hproc) as Hs.
    destruct (MinerInstance.start h inst1 w) as [[[[]|e] inst2] w1];
      simpl in Hs; [|done].
    unfold MinerService.spawnTick. simpl. rewrite lookup_insert_eq.
    pose proof (nextTick_effect h inst2 w1) as Hn.
    destruct (MinerInstance.nextTick h inst2 w1) as [inst3 w2].
    destruct Hn as (_ & _ & _ & _ & _ & (_ & Hs2 & _) & _).
    simpl. by rewrite Hs2.
Qed.

(** * Further properties of the code *)

(** ** Decimal numerals, paths and ports *)

Lemma String_of_number_parses n :
  NilZero.int_of_string (Js.String_of_number n) = Some (Z.to_int n).
Proof.
  unfold Js.String_of_number. apply NilZero.isi; destruct n; simpl; try done.
  all: intros [= E]; by apply DecimalPos.Unsigned.to_uint_nonnil in E.
Qed.

Lemma String_of_number_inj n m :
  Js.String_of_number n = Js.String_of_number m -> n = m.
Proof.
  intros E. apply DecimalZ.to_int_inj.
  pose proof (String_of_number_parses n) as Hn.
  rewrite E, String_of_number_parses in Hn. by injection Hn.
Qed.

Lemma dataDir_prefix h i p :
  Paths.getMinerDataDir h i `prefix_of` p ->
  exists k, p = homedir h ++ [Paths.MARS_DIR_NAME; "miners";
                              Js.String_of_number i] ++ k.
Proof.
  intros [k ->]. exists k.
  unfold Paths.getMinerDataDir, Paths.getMarsCreditDir, Fs.join.
  by rewrite <- !app_assoc.
Qed.

(** X18.  the data directories of two different miner indices are different
    and neither lies inside the other: no path is below both, so the pid
    files, keystores and log directories of two tabs never coincide; and
    nothing below a miner's data directory is the wallet file, the address
    file, or part of the supervisor's log. *)
Theorem miner_directories_disjoint (h : Host) (i j : Z) :
  i <> j ->
  (forall p, Paths.getMinerDataDir h i `prefix_of` p ->
             ~ Paths.getMinerDataDir h j `prefix_of` p)
  /\ Paths.getMinerPidPath h i <> Paths.getMinerPidPath h j
  /\ Paths.getMinerKeystoreDir h i <> Paths.getMinerKeystoreDir h j
  /\ Paths.getMinerLogsDir h i <> Paths.getMinerLogsDir h j
  /\ (forall p, Paths.getMinerDataDir h i `prefix_of` p ->
                p <> Paths.getWalletEncPath h
                /\ p <> WalletService.miningAddressFile h
                /\ ~ logArea h p).
Proof.
  intros Hij.
  assert (Hd : forall p, Paths.getMinerDataDir h i `prefix_of` p ->
                         ~ Paths.getMinerDataDir h j `prefix_of` p).
  { intros p Hi Hj.
    apply dataDir_prefix in Hi as (k & ->).
    apply dataDir_prefix in Hj as (k' & E).
    apply app_inv_head in E. injection E as E _.
    by apply String_of_number_inj in E. }
  split_and!; [exact Hd|..].
  - intros E. apply (Hd (Paths.getMinerPidPath h i)).
    + by eexists.
    + rewrite E. by eexists.
  - intros E. apply (Hd (Paths.getMinerKeystoreDir h i)).
    + by eexists.
    + rewrite E. by eexists.
  - intros E. apply (Hd (Paths.getMinerLogsDir h i)).
    + by eexists.
    + rewrite E. by eexists.
  - intros p [k ->]. split_and!.
    + unfold Paths.getWalletEncPath, Paths.getMinerDataDir, Fs.join.
      rewrite <- !app_assoc. intros E. by apply app_inv_head in E.
    + unfold WalletService.miningAddressFile, Paths.getMinerDataDir, Fs.join.
      rewrite <- !app_assoc. intros E. by apply app_inv_head in E.
    + apply dataDir_not_logArea.
Qed.

Lemma miner_directories_disjoint_witness :
  (1 : Z) <> 2
  /\ Paths.getMinerPidPath Demo.host 1 <> Paths.getMinerPidPath Demo.host 2.
Proof.
  assert (H12 : (1 : Z) <> 2) by lia.
  split; [exact H12|].
  exact (proj1 (proj2 (miner_directories_disjoint Demo.host 1 2 H12))).
Defined.

(** X1.  for the tab indices 1..10879 the ports of different tabs never
    collide: the HTTP, WebSocket and P2P ports of two tabs are six
    different numbers.  The bound is sharp: tab 10880 gets tab 1's P2P port
    as its HTTP port. *)
Theorem ports_of_tabs_disjoint (i j : Z) :
  1 <= i <= 10879 -> 1 <= j <= 10879 -> i <> j ->
  let a := MinerInstance.getPorts i in
  let b := MinerInstance.getPorts j in
  NoDup [http a; ws a; p2p a; http b; ws b; p2p b]
  /\ http (MinerInstance.getPorts 10880) = p2p (MinerInstance.getPorts 1).
Proof.
  intros Hi Hj Hij. simpl. split; [|reflexivity].
  repeat (apply NoDup_cons; split;
          [rewrite ?elem_of_cons, elem_of_nil; lia|]).
  apply NoDup_nil_2.
Qed.

Lemma ports_of_tabs_disjoint_witness :
  1 <= 1 <= 10879 /\ 1 <= 2 <= 10879 /\ (1 : Z) <> 2
  /\ NoDup [8546; 8547; 30304; 8548; 8549; 30305].
Proof.
  assert (H1 : 1 <= 1 <= 10879) by lia.
  assert (H2 : 1 <= 2 <= 10879) by lia.
  assert (H12 : (1 : Z) <> 2) by lia.
  split; [exact H1|]. split; [exact H2|]. split; [exact H12|].
  exact (proj1 (ports_of_tabs_disjoint 1 2 H1 H2 H12)).
Defined.

Lemma toString_not_flag (p : list string) :
  Fs.toString p <> "--miner.etherbase".
Proof. destruct p; simpl; done. Qed.

Lemma String_of_number_not_flag n :
  Js.String_of_number n <> "--miner.etherbase".
Proof.
  intros E. pose proof (String_of_number_parses n) as H.
  rewrite E in H. vm_compute in H. discriminate H.
Qed.

Lemma base_args_no_flag (dataDir keystoreDir : list string)
    (c : MinerInstanceConfig) :
  "--miner.etherbase"
  ∉ take 59 (MinerInstance.gethArgs dataDir keystoreDir c).
Proof.
  unfold MinerInstance.gethArgs. rewrite take_app_length' by reflexivity.
  repeat (apply (proj2 (not_elem_of_cons _ _ _)); split;
          [first [apply not_eq_sym, toString_not_flag
                 |apply not_eq_sym, String_of_number_not_flag
                 |discriminate]|]).
  apply not_elem_of_nil.
Qed.

Lemma gethArgs_split (dataDir keystoreDir : list string)
    (c : MinerInstanceConfig) :
  MinerInstance.gethArgs dataDir keystoreDir c
  = take 59 (MinerInstance.gethArgs dataDir keystoreDir c)
    ++ match etherbase c with
       | Some e => if NetworkService.truthy e
                   then ["--miner.etherbase"; e] else []
       | None => []
       end.
Proof.
  unfold MinerInstance.gethArgs. by rewrite take_app_length' by reflexivity.
Qed.

(** X2.  the argument vector contains [--miner.etherbase] exactly when a
    non-empty reward address is configured, and then the flag and the
    address are its last two entries, after the 59 arguments every miner is
    started with; no other argument can be mistaken for the flag. *)
Theorem etherbase_flag (dataDir keystoreDir : list string)
    (c : MinerInstanceConfig) :
  let args := MinerInstance.gethArgs dataDir keystoreDir c in
  let base := take 59 args in
  (("--miner.etherbase" ∈ args)
   <-> exists e, etherbase c = Some e /\ e <> "")
  /\ ("--miner.etherbase" ∉ base)
  /\ (forall e, etherbase c = Some e -> e <> "" ->
        args = base ++ ["--miner.etherbase"; e])
  /\ (etherbase c = None \/ etherbase c = Some "" -> args = base).
Proof.
  pose proof (base_args_no_flag dataDir keystoreDir c) as Hbase.
  pose proof (gethArgs_split dataDir keystoreDir c) as Hsplit.
  cbv zeta. split_and!; [|exact Hbase|..].
  - rewrite Hsplit at 1. rewrite elem_of_app. split.
    + intros [Hin|Hin]; [by apply Hbase in Hin|].
      destruct (etherbase c) as [e|]; [|by apply elem_of_nil in Hin].
      exists e. split; [done|]. intros ->. by apply elem_of_nil in Hin.
    + intros (e & -> & He). right. destruct e; [done|]. simpl. left.
  - intros e He Hne. rewrite Hsplit at 1. rewrite He.
    by destruct e.
  - intros [He|He]; rewrite Hsplit at 1; rewrite He; apply app_nil_r.
Qed.

(** ** Stopping and the exit of the child (MinerInstance.ts) *)

Lemma pidPath_nonempty h i : Paths.getMinerPidPath h i <> [].
Proof.
  unfold Paths.getMinerPidPath, Fs.join. intros E.
  by apply app_eq_nil in E as [_ ?].
Qed.

Lemma removePidFile_effect (p : list string) w :
  p <> [] ->
  let w' := MinerInstance.removePidFile p w in
  (forall c, fs w' !! p <> Some (Fs.File c))
  /\ (forall q, q <> p -> fs w' !! q = fs w !! q)
  /\ logDirSet w' = logDirSet w
  /\ sameProcesses w w'.
Proof.
  intros Hp. unfold MinerInstance.removePidFile, Fs.existsSync, Fs.unlinkSync.
  destruct p as [|a p]; [done|]. simpl.
  destruct (fs w !! (a :: p)) as [[|c]|] eqn:E; simpl.
  - split_and!; try done. all: intros c; by rewrite E.
  - split_and!; try done.
    + intros c'. by rewrite lookup_delete_eq.
    + intros q Hq. by rewrite lookup_delete_ne.
  - split_and!; try done. all: intros c; by rewrite E.
Qed.

Lemma stop_owned (h : Host) (inst : MinerInstance)
    (proc : ChildProcess) (w : World) :
  process inst = Some proc ->
  let '(inst', w') := MinerInstance.stop h inst w in
  let pidPath := Paths.getMinerPidPath h (minerIndex (config inst)) in
  process inst' = None
  /\ healthCheckTimer inst' = false
  /\ config inst' = config inst
  /\ (forall c, fs w' !! pidPath <> Some (Fs.File c))
  /\ (forall q, q <> pidPath -> fs w' !! q = fs w !! q)
  /\ (exists sig, signalled w' = signalled w ++ [(pid proc, sig)])
  /\ killTimers w' = killTimers w ++ [pid proc]
  /\ spawned w' = spawned w
  /\ execs w' = execs w.
Proof.
  intros Hp. unfold MinerInstance.stop. rewrite Hp. cbv zeta.
  pose proof (removePidFile_effect
                (Paths.getMinerPidPath h (minerIndex (config inst))) w
                (pidPath_nonempty h _)) as (Hgone & Hrest & _ & He & Hs & Hg & Hk).
  set (w1 := MinerInstance.removePidFile _ w) in *.
  assert (Hc : MinerInstance.stopHealthCheck
                 (MinerInstance.set_process None inst)
               = MinerInstance.set_healthCheckTimer false
                   (MinerInstance.set_process None inst)
               \/ (MinerInstance.stopHealthCheck
                     (MinerInstance.set_process None inst)
                   = MinerInstance.set_process None inst
                   /\ healthCheckTimer inst = false)).
  { unfold MinerInstance.stopHealthCheck. simpl.
    destruct (healthCheckTimer inst); auto. }
  split_and!.
  - by destruct Hc as [-> | [-> _]].
  - by destruct Hc as [-> | [-> ?]].
  - by destruct Hc as [-> | [-> _]].
  - intros c. repeat case_match; simpl; apply Hgone.
  - intros q Hq. repeat case_match; simpl; by apply Hrest.
  - repeat case_match; simpl; rewrite Hg; eauto.
  - repeat case_match; simpl; by rewrite Hk.
  - repeat case_match; simpl; by rewrite Hs.
  - repeat case_match; simpl; by rewrite He.
Qed.





(** ** Starting (MinerInstance.ts) *)

Lemma logsDir_not_appLog h i : Paths.getMinerLogsDir h i <> appLog h.
Proof.
  unfold Paths.getMinerLogsDir, appLog, Paths.getLogsDir, Paths.getMinerDataDir,
    Fs.join.
  rewrite <- !app_assoc. intros E. apply app_inv_head in E. done.
Qed.

Lemma pidPath_not_logsDir h i :
  Paths.getMinerPidPath h i <> Paths.getMinerLogsDir h i.
Proof.
  unfold Paths.getMinerPidPath, Paths.getMinerLogsDir, Fs.join.
  intros E. apply app_inv_head in E. done.
Qed.

Lemma start_returned (h : Host) (inst inst' : MinerInstance)
    (w w' : World) :
  process inst = None ->
  MinerInstance.start h inst w = (Ok tt, inst', w') ->
  let c := config inst in
  let dataDir := Paths.getMinerDataDir h (minerIndex c) in
  exists p,
    spawned w'
    = spawned w
      ++ [{| spawnCommand := gethBinaryPath c;
             spawnArgs := MinerInstance.gethArgs dataDir
                            (Paths.getMinerKeystoreDir h (minerIndex c)) c;
             spawnCwd := dataDir;
             spawnDetached := negb (win32 h);
             spawnPid := p |}]
    /\ inst' = {| config := c;
                  process := Some {| pid := p; exitCode := None |};
                  healthCheckTimer := true;
                  healthFailures := 0 |}
    /\ (forall n, p = Some n -> n <> 0 ->
          fs w' !! Paths.getMinerPidPath h (minerIndex c)
          = Some (Fs.File (Js.String_of_number n)))
    /\ fs w' !! Paths.getMinerLogsDir h (minerIndex c) = Some Fs.Dir
    /\ signalled w' = signalled w
    /\ killTimers w' = killTimers w.
Proof.
  intros Hp. unfold MinerInstance.start. rewrite Hp. cbv zeta.
  match goal with |- context [bind ?m ?k w] =>
    assert (Hprep : preserves sameChildren (bind m k))
  end.
  { unfold Logger.info. frame. }
  specialize (Hprep w). revert Hprep.
  unfold bind at 1 3.
  destruct (GenesisInit.initMinerDataDir _ _ _ _ w) as [[[]|e] wa] eqn:Ei;
    [|done].
  unfold bind at 1 2.
  destruct (onFs _ wa) as [[[]|e] wb] eqn:Em; [|done].
  destruct (Logger.info h "Spawning Geth" wb) as [[[]|e] w1] eqn:El; [|done].
  intros Hprep. specialize (Hprep _ _ eq_refl) as (Hs & Hg & Hk).
  assert (Hlogs : fs w1 !! Paths.getMinerLogsDir h (minerIndex (config inst))
                  = Some Fs.Dir).
  { apply log_effect in El as (_ & _ & Hkeep & _).
    apply Hkeep; [apply logsDir_not_appLog|].
    unfold onFs in Em.
    destruct (Fs.mkdirSync _ (fs wa)) as [f|] eqn:Emk; [|done].
    injection Em as <-. simpl.
    apply mkdirSync_dir in Emk.
    unfold Paths.getMinerLogsDir, Fs.join in *. by rewrite stat_snoc in Emk. }
  set (p := assignPid h _ _ w1).
  intros Hst. exists p. revert Hst.
  destruct p as [n|] eqn:Epid.
  - destruct (MinerInstance.truthyNumber (Some n)) eqn:Et.
    + unfold onFs. simpl.
      match goal with |- context [Fs.writeFileSync ?a ?b ?c] =>
        destruct (Fs.writeFileSync a b c) as [f|] eqn:Ew; [|done] end.
      intros [= <- <-]. apply writeFileSync_inv in Ew as ->. simpl.
      split_and!; try done.
      * by rewrite Hs.
      * intros n' [= <-] _. by rewrite lookup_insert_eq.
      * rewrite lookup_insert_ne; [done|apply pidPath_not_logsDir].
    + intros [= <- <-]. simpl. split_and!; try done.
      * by rewrite Hs.
      * intros n' [= <-] Hn. simpl in Et. apply negb_false_iff in Et. lia.
  - intros [= <- <-]. simpl. split_and!; try done. by rewrite Hs.
Qed.

(** X3.  when [start] returns normally on an instance without a child,
    exactly one spawn call has been made: the configured binary with the
    composed arguments, in the miner's data directory, detached unless on
    Windows.  The instance holds the handle, the health check is armed
    with its counter at zero, the miner's [logs] directory exists, no
    signal was sent.  If the spawn succeeded, the instance is running and
    the pid file holds the child's pid.  If it failed there is no child:
    the handle has no pid, and once Node has delivered the failure, on the
    next tick, the instance is not running although it still holds the
    handle and its interval, so the health check sends no probe and a
    later [start] spawns nothing; the failure itself ends as an uncaught
    error. *)
Theorem start_spawns_one_child (h : Host) (inst inst' : MinerInstance)
    (w w' : World) :
  process inst = None ->
  MinerInstance.start h inst w = (Ok tt, inst', w') ->
  let c := config inst in
  let dataDir := Paths.getMinerDataDir h (minerIndex c) in
  exists p,
    spawned w'
    = spawned w
      ++ [{| spawnCommand := gethBinaryPath c;
             spawnArgs := MinerInstance.gethArgs dataDir
                            (Paths.getMinerKeystoreDir h (minerIndex c)) c;
             spawnCwd := dataDir;
             spawnDetached := negb (win32 h);
             spawnPid := p |}]
    /\ inst' = {| config := c;
                  process := Some {| pid := p; exitCode := None |};
                  healthCheckTimer := true;
                  healthFailures := 0 |}
    /\ MinerInstance.getPid inst' = p
    /\ fs w' !! Paths.getMinerLogsDir h (minerIndex c) = Some Fs.Dir
    /\ signalled w' = signalled w
    /\ killTimers w' = killTimers w
    /\ uncaught w' = uncaught w
    /\ (forall n, p = Some n ->
          MinerInstance.isRunning inst' = true
          /\ MinerInstance.nextTick h inst' w' = (inst', w')
          /\ (n <> 0 ->
              fs w' !! Paths.getMinerPidPath h (minerIndex c)
              = Some (Fs.File (Js.String_of_number n))))
    /\ (p = None ->
          let '(inst'', w'') := MinerInstance.nextTick h inst' w' in
          MinerInstance.isRunning inst'' = false
          /\ process inst'' <> None
          /\ healthCheckTimer inst'' = true
          /\ MinerInstance.checkHealthGuard inst'' = false
          /\ (exists e, uncaught w'' = uncaught w' ++ [e])
          /\ spawned w'' = spawned w'
          /\ signalled w'' = signalled w'
          /\ spawned (snd (MinerInstance.start h inst'' w'')) = spawned w'').
Proof.
  intros Hp Hst.
  pose proof (start_uncaught h inst w) as Hu. rewrite Hst in Hu.
  destruct (start_returned h inst inst' w w' Hp Hst)
    as (p & Hs & Hi & Hpid & Hlogs & Hg & Hk).
  exists p. split_and!; try done.
  - by rewrite Hi.
  - intros n ->. rewrite Hi. split_and!; [done|done|].
    intros Hn. by apply Hpid.
  - intros ->.
    unfold MinerInstance.nextTick, MinerInstance.spawnErrorPending.
    rewrite Hi. cbn [process pid exitCode].
    match goal with |- context [MinerInstance.onSpawnError h ?f ?i0 w'] =>
      pose proof (onSpawnError_effect h f i0 w') as Ht;
      destruct (MinerInstance.onSpawnError h f i0 w') as [inst2 w2]
    end.
    destruct Ht as (-> & _ & (_ & Hs2 & Hg2 & _) & _ & Hu2 & _).
    cbn [process pid]. split_and!; try done.
    eapply start_when_owned_spawned. reflexivity.
Qed.

Lemma start_spawns_one_child_witness :
  process (MinerInstance.new (Demo.config 1)) = None
  /\ MinerInstance.start Demo.host (MinerInstance.new (Demo.config 1))
       Demo.fresh
     = (Ok tt, Demo.runningInstance, Demo.runningWorld)
  /\ MinerInstance.isRunning Demo.runningInstance = true
  /\ signalled Demo.runningWorld = signalled Demo.fresh
  /\ (let '(r, inst', w') :=
        MinerInstance.start Demo.noGeth (MinerInstance.new (Demo.config 1))
          Demo.fresh in
      r = Ok tt
      /\ MinerInstance.isRunning
           (fst (MinerInstance.nextTick Demo.noGeth inst' w')) = false).
Proof.
  assert (Hr : fst (fst (MinerInstance.start Demo.host
                           (MinerInstance.new (Demo.config 1)) Demo.fresh))
               = Ok tt) by (vm_compute; reflexivity).
  assert (Hpid : MinerInstance.getPid Demo.runningInstance = Some 4000)
    by (vm_compute; reflexivity).
  assert (E : MinerInstance.start Demo.host (MinerInstance.new (Demo.config 1))
                Demo.fresh
              = (Ok tt, Demo.runningInstance, Demo.runningWorld)).
  { unfold Demo.runningInstance, Demo.runningWorld. revert Hr.
    destruct (MinerInstance.start Demo.host (MinerInstance.new (Demo.config 1))
                Demo.fresh) as [[r i] w0].
    simpl. intros ->. reflexivity. }
  destruct (start_spawns_one_child Demo.host
              (MinerInstance.new (Demo.config 1)) _ _ _ eq_refl E)
    as (p & _ & _ & Hp & _ & Hsig & _ & _ & Hrun & _).
  rewrite Hpid in Hp.
  split_and!; [reflexivity|exact E| |exact Hsig|].
  { exact (proj1 (Hrun 4000 (eq_sym Hp))). }
  assert (Hr' : fst (fst (MinerInstance.start Demo.noGeth
                            (MinerInstance.new (Demo.config 1)) Demo.fresh))
                = Ok tt) by (vm_compute; reflexivity).
  assert (Hp' : MinerInstance.getPid
                  (snd (fst (MinerInstance.start Demo.noGeth
                               (MinerInstance.new (Demo.config 1))
                               Demo.fresh)))
                = None) by (vm_compute; reflexivity).
  revert Hr' Hp'.
  destruct (MinerInstance.start Demo.noGeth (MinerInstance.new (Demo.config 1))
              Demo.fresh) as [[r inst'] w'] eqn:E'.
  simpl. intros -> Hp'. split; [reflexivity|].
  destruct (start_spawns_one_child Demo.noGeth
              (MinerInstance.new (Demo.config 1)) _ _ _ eq_refl E')
    as (p' & _ & _ & Hgp & _ & _ & _ & _ & _ & Hfail).
  rewrite Hp' in Hgp. specialize (Hfail (eq_sym Hgp)).
  destruct (MinerInstance.nextTick Demo.noGeth inst' w') as [inst'' w''].
  exact (proj1 Hfail).
Defined.

(** X4.  when [start] throws on an instance without a child, either nothing
    was spawned and the instance is unchanged (the preparation failed), or
    the child was spawned and writing the pid file failed: then the instance
    owns the running child, but its health check was not armed. *)
Theorem start_failure (h : Host) (inst inst' : MinerInstance) (w w' : World)
    (e : error) :
  process inst = None ->
  MinerInstance.start h inst w = (Throw e, inst', w') ->
  (inst' = inst /\ sameChildren w w')
  \/ (exists c,
        spawned w' = spawned w ++ [c]
        /\ spawnCommand c = gethBinaryPath (config inst)
        /\ inst' = MinerInstance.set_process
                     (Some {| pid := spawnPid c; exitCode := None |}) inst
        /\ MinerInstance.isRunning inst' = true
        /\ healthCheckTimer inst' = healthCheckTimer inst
        /\ (exists n, spawnPid c = Some n /\ n <> 0)
        /\ Fs.writeFileSync (Paths.getMinerPidPath h (minerIndex (config inst)))
             (Js.String_of_number (default 0 (spawnPid c))) (fs w')
           = Throw e).
Proof.
  intros Hp. unfold MinerInstance.start. rewrite Hp. cbv zeta.
  match goal with |- context [bind ?m ?k w] =>
    assert (Hprep : preserves sameChildren (bind m k));
    [|destruct (bind m k w) as [[[]|e0] w1] eqn:E]
  end.
  { unfold Logger.info. frame. }
  2:{ intros [= <- <- <-]. left. split; [done|]. by apply Hprep in E. }
  apply Hprep in E as (Hs & Hg & Hk).
  set (p := assignPid h _ _ w1).
  destruct p as [n|] eqn:Epid; [|done].
  destruct (MinerInstance.truthyNumber (Some n)) eqn:Et; [|done].
  unfold onFs. simpl.
  match goal with |- context [Fs.writeFileSync ?a ?b ?c] =>
    destruct (Fs.writeFileSync a b c) as [f|e1] eqn:Ew; [done|] end.
  intros [= <- <- <-]. right. eexists. simpl.
  split; [by rewrite Hs|]. simpl. split_and!; try done.
  exists n. split; [done|]. simpl in Et. apply negb_true_iff in Et. lia.
Qed.

Lemma start_failure_witness :
  let '(r, inst', w') :=
    MinerInstance.start Demo.host (MinerInstance.new (Demo.config 1))
      (Demo.world Demo.blockedPidFiles true) in
  r = Throw (Error "EISDIR")
  /\ MinerInstance.isRunning inst' = true
  /\ healthCheckTimer inst' = false.
Proof.
  assert (Hr : fst (fst (MinerInstance.start Demo.host
                           (MinerInstance.new (Demo.config 1))
                           (Demo.world Demo.blockedPidFiles true)))
               = Throw (Error "EISDIR")) by (vm_compute; reflexivity).
  assert (Hs : List.length
                 (spawned (snd (MinerInstance.start Demo.host
                           (MinerInstance.new (Demo.config 1))
                           (Demo.world Demo.blockedPidFiles true))))
               = 1%nat) by (vm_compute; reflexivity).
  revert Hr Hs.
  destruct (MinerInstance.start Demo.host (MinerInstance.new (Demo.config 1))
              (Demo.world Demo.blockedPidFiles true))
    as [[r inst'] w'] eqn:E.
  simpl. intros -> Hs.
  destruct (start_failure Demo.host (MinerInstance.new (Demo.config 1))
              inst' (Demo.world Demo.blockedPidFiles true) w' _ eq_refl E)
    as [[_ (Hsame & _)] | (c & _ & _ & Hi & Hrun & Ht & _)].
  - exfalso. rewrite Hsame in Hs. discriminate Hs.
  - split_and!; [reflexivity|exact Hrun|exact Ht].
Defined.

(** ** The registry of tabs (MinerService) *)

Lemma insertSorted_sorted x l :
  StronglySorted Z.le l -> StronglySorted Z.le (MinerService.insertSorted x l).
Proof.
  induction 1 as [|y l Hl IH Hy]; simpl.
  - by repeat constructor.
  - destruct (Z.leb_spec x y).
    + constructor; [by constructor|]. constructor; [done|].
      eapply Forall_impl; [exact Hy|]. simpl. lia.
    + constructor; [done|].
      rewrite insertSorted_perm. constructor; [lia|done].
Qed.

Lemma sorted_strict (l : list Z) :
  StronglySorted Z.le l -> NoDup l -> StronglySorted Z.lt l.
Proof.
  induction 1 as [|x l Hl IH Hx]; [constructor|].
  rewrite NoDup_cons. intros [Hn Hd]. constructor; [by apply IH|].
  rewrite Forall_forall in Hx |- *. intros y Hy.
  assert (x <> y) by (by intros ->). specialize (Hx y Hy). lia.
Qed.

(** X8.  [getTabIndices] lists the registry's tab indices in strictly
    ascending order: every tab once, nothing else, however the tabs were
    created and removed. *)
Theorem getTabIndices_ascending (s : MinerService) :
  StronglySorted Z.lt (MinerService.getTabIndices s)
  /\ NoDup (MinerService.getTabIndices s)
  /\ (forall j, j ∈ MinerService.getTabIndices s
                <-> is_Some (instances s !! j))
  /\ List.length (MinerService.getTabIndices s) = size (instances s).
Proof.
  assert (Hp : MinerService.getTabIndices s
               ≡ₚ (map_to_list (instances s)).*1) by apply sort_perm.
  assert (Hd : NoDup (MinerService.getTabIndices s)).
  { rewrite Hp. apply NoDup_fst_map_to_list. }
  split_and!.
  - apply sorted_strict; [|done]. unfold MinerService.getTabIndices.
    clear Hp Hd.
    induction ((map_to_list (instances s)).*1) as [|x l IH]; simpl.
    + constructor.
    + by apply insertSorted_sorted.
  - done.
  - apply elem_of_getTabIndices.
  - rewrite Hp, length_fmap. apply length_map_to_list.
Qed.

(** *** Every instance is stored under its own index *)

Lemma getOrCreateInstance_index i cfg s :
  keyedByIndex s ->
  (forall u, cfg = Some u -> uMinerIndex u = None \/ uMinerIndex u = Some i) ->
  minerIndex (config (fst (MinerService.getOrCreateInstance i cfg s))) = i.
Proof.
  intros Hk Hu. unfold MinerService.getOrCreateInstance. simpl.
  destruct (instances s !! i) as [inst|] eqn:E; [destruct cfg as [u|]|]; simpl;
    try done.
  - rewrite (Hk _ _ E). by destruct (Hu u eq_refl) as [-> | ->].
  - by apply Hk.
Qed.

Lemma getOrCreateInstance_new_index i cfg s :
  instances s !! i = None ->
  minerIndex (config (fst (MinerService.getOrCreateInstance i cfg s))) = i.
Proof.
  intros Hi. unfold MinerService.getOrCreateInstance. simpl. by rewrite Hi.
Qed.

Lemma addTab_fresh cfg s :
  instances s !! fst (MinerService.addTab cfg s) = None.
Proof.
  pose proof (addTab_index cfg s) as [Hempty Hmax].
  apply eq_None_not_Some. intros Hs.
  destruct (max_index_exists s) as [He|[k Hk]].
  - destruct Hs as [x Hx]. by rewrite He, lookup_empty in Hx.
  - rewrite (Hmax k Hk) in Hs. apply Hk in Hs. lia.
Qed.

Lemma keyedByIndex_insert i inst s :
  keyedByIndex s ->
  minerIndex (config inst) = i ->
  keyedByIndex (MinerService.set_instances (<[i := inst]> (instances s)) s).
Proof.
  intros Hk Hc j inst1. simpl.
  destruct (decide (j = i)) as [->|Hne].
  - rewrite lookup_insert_eq. by intros [= <-].
  - rewrite lookup_insert_ne by done. apply Hk.
Qed.

Lemma keyedByIndex_registry i inst s s1 :
  keyedByIndex s ->
  (forall j, j <> i -> instances s1 !! j = instances s !! j) ->
  instances s1 !! i = Some inst ->
  minerIndex (config inst) = i ->
  keyedByIndex s1.
Proof.
  intros Hk Hother Hi Hc j inst1.
  destruct (decide (j = i)) as [->|Hne].
  - rewrite Hi. by intros [= <-].
  - rewrite (Hother _ Hne). apply Hk.
Qed.

Lemma keyedByIndex_getOrCreateInstance i cfg s :
  keyedByIndex s ->
  minerIndex (config (fst (MinerService.getOrCreateInstance i cfg s))) = i ->
  keyedByIndex (snd (MinerService.getOrCreateInstance i cfg s)).
Proof.
  intros Hk Hc.
  destruct (getOrCreateInstance_lookup i cfg s) as [Hi Hj].
  by eapply keyedByIndex_registry.
Qed.

Lemma keyedByIndex_update i inst inst0 s :
  keyedByIndex s ->
  instances s !! i = Some inst0 ->
  config inst = config inst0 ->
  keyedByIndex (MinerService.set_instances (<[i := inst]> (instances s)) s).
Proof.
  intros Hk H0 Hc. apply keyedByIndex_insert; [done|].
  rewrite Hc. by apply Hk.
Qed.

Lemma onExit_config h inst w :
  config (snd (fst (MinerInstance.onExit h inst w))) = config inst.
Proof.
  unfold MinerInstance.onExit, MinerInstance.stopHealthCheck.
  destruct (Logger.info _ _ _). simpl. by case_match.
Qed.

Lemma checkHealthResume_config h reply inst w :
  config (snd (fst (MinerInstance.checkHealthResume h reply inst w)))
  = config inst.
Proof.
  unfold MinerInstance.checkHealthResume.
  destruct reply as [[]|]; simpl; try done.
  all: case_match; [|done].
  all: destruct (Logger.warn _ _ _) as [[] ?]; [|done].
  all: match goal with |- context [MinerInstance.stop ?h ?i ?w] =>
         pose proof (stop_config h i w) as Hs;
         destruct (MinerInstance.stop h i w) end; simpl in *; by rewrite Hs.
Qed.

Lemma keyedByIndex_perform h c s w :
  keyedByIndex s -> keepsIndex c -> keyedByIndex (fst (perform h c s w)).
Proof.
  intros Hk Hc. destruct c as [p|i cfg|cfg|i|i cfg|i|i|i reply]; simpl.
  - done.
  - apply keyedByIndex_getOrCreateInstance; [done|].
    apply getOrCreateInstance_index; [done|]. by intros u ->.
  - unfold MinerService.addTab. simpl.
    apply keyedByIndex_getOrCreateInstance; [done|].
    apply getOrCreateInstance_new_index. exact (addTab_fresh cfg s).
  - unfold MinerService.removeTab.
    destruct (instances s !! i) as [inst|] eqn:E; [|done].
    destruct (MinerInstance.stop h inst w). simpl.
    intros j inst1. simpl. intros Hj.
    apply lookup_delete_Some in Hj as [_ Hj]. by apply Hk.
  - assert (Hi : minerIndex
                   (config (fst (MinerService.getOrCreateInstance i cfg s)))
                 = i).
    { apply getOrCreateInstance_index; [done|]. by intros u ->. }
    pose proof (keyedByIndex_getOrCreateInstance i cfg s Hk Hi) as Hk1.
    pose proof (startMiner_registry h i cfg s w) as Hr.
    destruct (MinerService.getOrCreateInstance i cfg s) as [inst s1].
    destruct (MinerService.startMiner h i cfg s w) as [[r s'] w'].
    destruct Hr as (_ & _ & Hother & inst' & Hi' & Hcfg). simpl in *.
    eapply keyedByIndex_registry; [exact Hk1|exact Hother|exact Hi'|].
    by rewrite Hcfg.
  - unfold MinerService.stopMiner.
    destruct (instances s !! i) as [inst|] eqn:E; [|done].
    pose proof (stop_config h inst w) as Hcfg.
    destruct (MinerInstance.stop h inst w) as [inst1 w1]. simpl in *.
    by eapply (keyedByIndex_update i inst1 inst s).
  - unfold MinerService.childExited.
    destruct (instances s !! i) as [inst|] eqn:E; [|done].
    pose proof (onExit_config h inst w) as Hcfg.
    destruct (MinerInstance.onExit h inst w) as [[r inst1] w1]. simpl in *.
    assert (Hk2 : keyedByIndex
                    (MinerService.set_instances
                       (<[i := inst1]> (instances s)) s))
      by (by eapply keyedByIndex_update).
    by destruct r.
  - unfold MinerService.probeAnswered.
    destruct (instances s !! i) as [inst|] eqn:E; [|done].
    pose proof (checkHealthResume_config h reply inst w) as Hcfg.
    destruct (MinerInstance.checkHealthResume h reply inst w)
      as [[r inst1] w1]. simpl in *.
    by eapply (keyedByIndex_update i inst1 inst s).
Qed.

Lemma reachable_keyedByIndex h s : reachableBy h keepsIndex s -> keyedByIndex s.
Proof.
  induction 1 as [|s w c _ IH Hc].
  - intros i inst. simpl. by rewrite lookup_empty.
  - by apply keyedByIndex_perform.
Qed.

Lemma rpcUrl_inj inst1 inst2 :
  MinerInstance.rpcUrl inst1 = MinerInstance.rpcUrl inst2 ->
  minerIndex (config inst1) = minerIndex (config inst2).
Proof.
  unfold MinerInstance.rpcUrl, MinerInstance.httpPort. simpl.
  intros E. injection E as E. apply String_of_number_inj in E. lia.
Qed.

(** X10.  in every state the service reaches through calls that leave the
    tabs their indices, the state reported for a tab [i] of the usual
    range carries the index [i] and the URL
    [http://localhost:<8546+2(i-1)>], which is also what [getRpcUrl]
    answers, and no other such tab reports the same URL.  The condition on
    the calls is needed: [getOrCreateInstance] for tab [i] with an object
    that carries [minerIndex: j] makes tab [i] report the index and the
    URL of tab [j]. *)
Theorem state_reports_own_index (h : Host) (s : MinerService) (i : Z)
    (st : MinerTabState) :
  reachableBy h keepsIndex s ->
  safeIndex i ->
  MinerService.getMinerState i s = Some st ->
  tsMinerIndex st = i
  /\ tsRpcUrl st = "http://localhost:" +:+ Js.String_of_number (8546 + 2 * (i - 1))
  /\ MinerService.getRpcUrl i s = Some (tsRpcUrl st)
  /\ (forall j st', safeIndex j ->
        MinerService.getMinerState j s = Some st' ->
        tsRpcUrl st' = tsRpcUrl st -> j = i)
  /\ (forall u j, safeIndex j -> uMinerIndex u = Some j ->
        exists st',
          MinerService.getMinerState i
            (snd (MinerService.getOrCreateInstance i (Some u) s)) = Some st'
          /\ tsMinerIndex st' = j
          /\ tsRpcUrl st'
             = "http://localhost:" +:+ Js.String_of_number (8546 + 2 * (j - 1))).
Proof.
  intros Hr _. apply reachable_keyedByIndex in Hr.
  unfold MinerService.getMinerState at 1, MinerService.getRpcUrl.
  destruct (instances s !! i) as [inst|] eqn:E; [|done].
  intros [= <-]. simpl. pose proof (Hr _ _ E) as Hi.
  split_and!.
  - exact Hi.
  - unfold MinerInstance.rpcUrl, MinerInstance.httpPort. rewrite Hi. simpl.
    do 2 f_equal. lia.
  - done.
  - intros j st' _. unfold MinerService.getMinerState.
    destruct (instances s !! j) as [inst'|] eqn:E'; [|done].
    intros [= <-]. simpl. intros Hu. apply rpcUrl_inj in Hu.
    rewrite (Hr _ _ E'), Hi in Hu. done.
  - intros u j _ Hu. unfold MinerService.getMinerState.
    pose proof (proj1 (getOrCreateInstance_lookup i (Some u) s)) as Hl.
    rewrite Hl. eexists. split; [reflexivity|]. simpl.
    assert (Hj : minerIndex
                   (config (fst (MinerService.getOrCreateInstance i (Some u) s)))
                 = j).
    { unfold MinerService.getOrCreateInstance. simpl. rewrite E. simpl.
      by rewrite Hu. }
    split; [exact Hj|].
    unfold MinerInstance.rpcUrl, MinerInstance.httpPort. rewrite Hj. simpl.
    do 2 f_equal. lia.
Qed.

Lemma state_reports_own_index_witness :
  reachableBy Demo.host keepsIndex Demo.tunedService
  /\ safeIndex 1
  /\ MinerService.getRpcUrl 1 Demo.tunedService = Some "http://localhost:8546".
Proof.
  assert (Hr : reachableBy Demo.host keepsIndex Demo.tunedService).
  { apply reachableBy_perform; [apply reachableBy_initial|].
    left. reflexivity. }
  assert (Hs : safeIndex 1).
  { unfold safeIndex, Js.MAX_SAFE_INTEGER. lia. }
  split; [exact Hr|]. split; [exact Hs|].
  destruct (MinerService.getMinerState 1 Demo.tunedService) as [st|] eqn:E;
    [|exfalso; vm_compute in E; discriminate E].
  destruct (state_reports_own_index Demo.host Demo.tunedService 1 st Hr Hs E)
    as (_ & Hu & Hg & _).
  rewrite Hg, Hu. reflexivity.
Defined.

(** *** Stopping, starting and removing tabs *)

(** X12.  [stopMiner] on an existing tab leaves the tab in the registry, not
    running and without a pid; its remembered configuration, the other tabs
    and the set of tab indices are unchanged, and exactly one
    [running: false] event is emitted.  On an unknown index it does
    nothing. *)
Theorem stopMiner_stops (h : Host) (i : Z) (s : MinerService) (w : World)
    (inst : MinerInstance) :
  instances s !! i = Some inst ->
  let '(s', w') := MinerService.stopMiner h i s w in
  (exists st, MinerService.getMinerState i s' = Some st
              /\ tsRunning st = false
              /\ tsPid st = None
              /\ Some (tsConfig st) = tsConfig <$> MinerService.getMinerState i s
              /\ Some (tsRpcUrl st) = MinerService.getRpcUrl i s)
  /\ configCache s' = configCache s
  /\ (forall j, j <> i -> instances s' !! j = instances s !! j)
  /\ (forall j, is_Some (instances s' !! j) <-> is_Some (instances s !! j))
  /\ emitted s' = emitted s ++ [Stopped i]
  /\ (forall k, instances s !! k = None ->
                MinerService.stopMiner h k s w = (s, w)).
Proof.
  intros Hi. unfold MinerService.stopMiner at 1. rewrite Hi.
  pose proof (stop_effect h inst w) as He.
  pose proof (stop_config h inst w) as Hc.
  destruct (MinerInstance.stop h inst w) as [inst1 w1].
  destruct He as (_ & _ & Hp & _). simpl in Hc.
  split_and!.
  - unfold MinerService.getMinerState, MinerService.getRpcUrl. simpl.
    rewrite lookup_insert_eq, Hi. eexists. split; [reflexivity|]. simpl.
    unfold MinerInstance.isRunning, MinerInstance.getPid,
      MinerInstance.rpcUrl, MinerInstance.httpPort.
    by rewrite Hp, Hc.
  - done.
  - intros j Hj. simpl. by rewrite lookup_insert_ne.
  - intros j. simpl. destruct (decide (j = i)) as [->|Hj].
    + by rewrite lookup_insert_eq, Hi.
    + by rewrite lookup_insert_ne.
  - done.
  - intros k Hk. unfold MinerService.stopMiner. by rewrite Hk.
Qed.

Lemma stopMiner_stops_witness :
  (exists inst, instances Demo.tunedService !! 1 = Some inst)
  /\ emitted (fst (MinerService.stopMiner Demo.host 1 Demo.tunedService
                     Demo.runningWorld))
     = emitted Demo.tunedService ++ [Stopped 1].
Proof.
  destruct (instances Demo.tunedService !! 1) as [inst|] eqn:E;
    [|exfalso; vm_compute in E; discriminate E].
  split; [by exists inst|].
  pose proof (stopMiner_stops Demo.host 1 Demo.tunedService Demo.runningWorld
                inst E) as H.
  destruct (MinerService.stopMiner Demo.host 1 Demo.tunedService
              Demo.runningWorld) as [s' w'].
  exact (proj1 (proj2 (proj2 (proj2 (proj2 H))))).
Defined.

Lemma startMiner_started (h : Host) (i : Z) (cfg : option ConfigUpdates)
    (s s' : MinerService) (w w' : World) :
  (forall inst, instances s !! i = Some inst -> process inst = None) ->
  MinerService.startMiner h i cfg s w = (Ok tt, s', w') ->
  exists c inst',
    spawned w' = spawned w ++ [c]
    /\ instances s' !! i = Some inst'
    /\ config inst' = config (fst (MinerService.getOrCreateInstance i cfg s))
    /\ spawnCommand c = gethBinaryPath (config inst')
    /\ spawnArgs c
       = MinerInstance.gethArgs
           (Paths.getMinerDataDir h (minerIndex (config inst')))
           (Paths.getMinerKeystoreDir h (minerIndex (config inst')))
           (config inst')
    /\ MinerInstance.getPid inst' = spawnPid c
    /\ process inst' <> None
    /\ (is_Some (spawnPid c) ->
          MinerInstance.isRunning inst' = true /\ uncaught w' = uncaught w)
    /\ (spawnPid c = None ->
          MinerInstance.isRunning inst' = false
          /\ exists e, uncaught w' = uncaught w ++ [e])
    /\ emitted s'
       = emitted s
         ++ [Started i (MinerInstance.getPid inst') (MinerInstance.rpcUrl inst')
               (MinerService.nullish (configCache s' !! i)
                  MinerService.defaultConfig)].
Proof.
  intros Hnone.
  unfold MinerService.startMiner, MinerService.startMinerBegin.
  assert (Hp : process (fst (MinerService.getOrCreateInstance i cfg s)) = None).
  { destruct (instances s !! i) as [inst0|] eqn:E.
    - rewrite (getOrCreateInstance_process i cfg s inst0 E). by apply Hnone.
    - unfold MinerService.getOrCreateInstance. simpl. by rewrite E. }
  assert (He : emitted (snd (MinerService.getOrCreateInstance i cfg s))
               = emitted s).
  { unfold MinerService.getOrCreateInstance. simpl. by repeat case_match. }
  destruct (MinerService.getOrCreateInstance i cfg s) as [inst s1].
  simpl in *.
  unfold MinerInstance.isRunning at 1. rewrite Hp.
  pose proof (start_uncaught h inst w) as Hu.
  destruct (MinerInstance.start h inst w) as [[r inst1] w1] eqn:Es.
  simpl in Hu.
  destruct r as [[]|e]; [|done].
  destruct (start_returned h inst inst1 w w1 Hp Es) as (p & Hs & -> & _).
  unfold MinerService.spawnTick. simpl. rewrite lookup_insert_eq.
  unfold MinerInstance.nextTick, MinerInstance.spawnErrorPending. simpl.
  destruct p as [n|].
  - (* the spawn succeeded *)
    intros [= <- <-]. unfold MinerService.startMinerEnd. simpl.
    rewrite !lookup_insert_eq. simpl.
    eexists _, _. split; [exact Hs|]. simpl. rewrite !lookup_insert_eq.
    split; [reflexivity|]. simpl. split_and!; try done.
    by rewrite He.
  - (* the spawn failed: the tick runs before the function goes on *)
    match goal with |- context [MinerInstance.onSpawnError h ?f ?i0 w1] =>
      pose proof (onSpawnError_effect h f i0 w1) as Ht;
      destruct (MinerInstance.onSpawnError h f i0 w1) as [inst2 w2]
    end.
    destruct Ht as (-> & _ & (_ & Hs2 & _) & _ & (e & Hu2) & _). simpl.
    intros [= <- <-]. unfold MinerService.startMinerEnd. simpl.
    rewrite !lookup_insert_eq. simpl.
    eexists _, _. rewrite Hs2. split; [exact Hs|]. simpl.
    rewrite !lookup_insert_eq.
    split; [reflexivity|]. simpl. split_and!; try done.
    + intros _. split; [done|]. exists e. by rewrite Hu2, Hu.
    + by rewrite He.
Qed.

(** X11.  when [startMiner], awaited, returns normally for a tab that has no
    child, one spawn call has been made, with the tab's binary and
    arguments.  If the spawn succeeded, the state then reported for the
    tab is running, with the pid of the child.  If it failed, the tab is
    reported as not running and without a pid, the instance keeps the dead
    handle, and the failure has surfaced as one uncaught error.  In both
    cases the event emitted says [running: true], with the pid, URL and
    configuration of the reported state. *)
Theorem startMiner_reports (h : Host) (i : Z) (cfg : option ConfigUpdates)
    (s s' : MinerService) (w w' : World) :
  (forall inst, instances s !! i = Some inst -> process inst = None) ->
  MinerService.startMiner h i cfg s w = (Ok tt, s', w') ->
  exists c st inst',
    spawned w' = spawned w ++ [c]
    /\ instances s' !! i = Some inst'
    /\ spawnCommand c = gethBinaryPath (config inst')
    /\ spawnArgs c
       = MinerInstance.gethArgs
           (Paths.getMinerDataDir h (minerIndex (config inst')))
           (Paths.getMinerKeystoreDir h (minerIndex (config inst')))
           (config inst')
    /\ MinerService.getMinerState i s' = Some st
    /\ tsPid st = spawnPid c
    /\ (is_Some (spawnPid c) ->
          tsRunning st = true /\ uncaught w' = uncaught w)
    /\ (spawnPid c = None ->
          tsRunning st = false
          /\ process inst' <> None
          /\ exists e, uncaught w' = uncaught w ++ [e])
    /\ emitted s'
       = emitted s ++ [Started i (tsPid st) (tsRpcUrl st) (tsConfig st)].
Proof.
  intros Hnone Hst.
  destruct (startMiner_started h i cfg s s' w w' Hnone Hst)
    as (c & inst' & Hs & Hi & _ & Hcmd & Hargs & Hpid & Hp & Hok & Hfail & He).
  unfold MinerService.getMinerState. rewrite Hi.
  eexists c, _, inst'. split_and!; try done; simpl.
  - intros Hn. destruct (Hfail Hn) as [Hrun Hu]. by split_and!.
  - rewrite He.
    by destruct (MinerService.nullish (configCache s' !! i)
                   MinerService.defaultConfig).
Qed.

Lemma startMiner_reports_witness :
  (let r := MinerService.startMiner Demo.host 1 (Some Demo.tuned)
              (MinerService.initial Demo.host) Demo.fresh in
   fst (fst r) = Ok tt
   /\ exists st, MinerService.getMinerState 1 (snd (fst r)) = Some st
                 /\ tsRunning st = true)
  /\ (let r := MinerService.startMiner Demo.noGeth 1 None
                 (MinerService.initial Demo.noGeth) Demo.fresh in
      fst (fst r) = Ok tt
      /\ exists st, MinerService.getMinerState 1 (snd (fst r)) = Some st
                    /\ tsRunning st = false).
Proof.
  assert (Hn : forall (h : Host) inst,
             instances (MinerService.initial h) !! 1 = Some inst ->
             process inst = None).
  { intros h inst H. simpl in H. rewrite lookup_empty in H. discriminate H. }
  split; intros r.
  - assert (Hr : fst (fst r) = Ok tt) by (vm_compute; reflexivity).
    assert (Hp : (spawnPid <$> spawned (snd r)) = [Some 4000])
      by (vm_compute; reflexivity).
    split; [exact Hr|]. revert Hr Hp. subst r.
    destruct (MinerService.startMiner Demo.host 1 (Some Demo.tuned)
                (MinerService.initial Demo.host) Demo.fresh)
      as [[r0 s'] w'] eqn:E.
    simpl. intros -> Hp.
    destruct (startMiner_reports Demo.host 1 (Some Demo.tuned) _ s' _ w'
                (Hn Demo.host) E)
      as (c & st & inst' & Hs & _ & _ & _ & Hst & _ & Hrun & _).
    exists st. split; [exact Hst|]. apply Hrun.
    rewrite Hs in Hp. simpl in Hp. injection Hp as Hp. rewrite Hp.
    by eexists.
  - assert (Hr : fst (fst r) = Ok tt) by (vm_compute; reflexivity).
    assert (Hp : (spawnPid <$> spawned (snd r)) = [None])
      by (vm_compute; reflexivity).
    split; [exact Hr|]. revert Hr Hp. subst r.
    destruct (MinerService.startMiner Demo.noGeth 1 None
                (MinerService.initial Demo.noGeth) Demo.fresh)
      as [[r0 s'] w'] eqn:E.
    simpl. intros -> Hp.
    destruct (startMiner_reports Demo.noGeth 1 None _ s' _ w'
                (Hn Demo.noGeth) E)
      as (c & st & inst' & Hs & _ & _ & _ & Hst & _ & _ & Hfail & _).
    exists st. split; [exact Hst|]. apply Hfail.
    rewrite Hs in Hp. simpl in Hp. by injection Hp as Hp.
Defined.

(** X15.  a configuration property passed explicitly as [undefined] clears
    the instance's own value but not the remembered one: after such a call
    for an existing tab whose remembered reward address is [e], the tab's
    reported configuration still shows [e], while the instance has no
    reward address and its argument vector has no [--miner.etherbase]. *)
Theorem undefined_clears_instance_only (i : Z) (s : MinerService)
    (inst : MinerInstance) (cached : CachedConfig) (e : string) :
  instances s !! i = Some inst ->
  configCache s !! i = Some cached ->
  cEtherbase cached = Some e ->
  let u := {| uMinerIndex := None; uGethBinaryPath := None;
              uMinerThreads := Absent; uCacheMB := Absent;
              uEtherbase := Present None |} in
  let '(inst', s') := MinerService.getOrCreateInstance i (Some u) s in
  instances s' !! i = Some inst'
  /\ etherbase (config inst') = None
  /\ (forall dataDir keystoreDir,
        "--miner.etherbase"
        ∉ MinerInstance.gethArgs dataDir keystoreDir (config inst'))
  /\ configCache s' !! i = Some cached
  /\ (cEtherbase <$> (tsConfig <$> MinerService.getMinerState i s'))
     = Some (Some e).
Proof.
  intros Hi Hc He u.
  pose proof (proj1 (getOrCreateInstance_lookup i (Some u) s)) as Hl.
  unfold MinerService.getOrCreateInstance in *. simpl in *.
  rewrite Hi, Hc in *. simpl in *. rewrite He.
  split_and!.
  - exact Hl.
  - done.
  - intros d k Hin. rewrite gethArgs_split in Hin.
    apply elem_of_app in Hin as [Hin|Hin];
      [by apply base_args_no_flag in Hin|].
    simpl in Hin. by apply elem_of_nil in Hin.
  - rewrite lookup_insert_eq. f_equal. destruct cached. simpl in *. by subst.
  - unfold MinerService.getMinerState. simpl.
    by rewrite !lookup_insert_eq.
Qed.

Lemma undefined_clears_instance_only_witness :
  let u := {| uMinerIndex := None; uGethBinaryPath := None;
              uMinerThreads := Absent; uCacheMB := Absent;
              uEtherbase := Present None |} in
  let r := MinerService.getOrCreateInstance 1 (Some u) Demo.tunedService in
  etherbase (config (fst r)) = None
  /\ (cEtherbase <$> configCache (snd r) !! 1) = Some (Some Demo.deadAddress).
Proof.
  intros u r.
  destruct (instances Demo.tunedService !! 1) as [inst|] eqn:Ei;
    [|exfalso; vm_compute in Ei; discriminate Ei].
  assert (Hc : configCache Demo.tunedService !! 1
               = Some {| cMinerThreads := 4; cCacheMB := 4096;
                         cEtherbase := Some Demo.deadAddress |})
    by (vm_compute; reflexivity).
  pose proof (undefined_clears_instance_only 1 Demo.tunedService inst _
                Demo.deadAddress Ei Hc eq_refl) as H.
  subst r u. cbv zeta in H.
  destruct (MinerService.getOrCreateInstance 1 _ Demo.tunedService)
    as [inst' s'].
  destruct H as (_ & He & _ & Hcache & _).
  split; [exact He|]. simpl. rewrite Hcache. reflexivity.
Defined.

(** X16.  [setGethPath] changes the binary of tabs created afterwards only.
    When [startMiner] succeeds for a stopped tab after [setGethPath(p)]:
    a tab created by the call is started with [p], whatever the
    configuration object of the call carries; a tab that already exists
    is started with the binary path of its instance, unless the object
    carries [gethBinaryPath], which then replaces it.  With the object
    the ['miner:start'] handler is declared to pass (threads, cache and
    reward address only) an existing tab keeps its binary. *)
Theorem setGethPath_reaches_new_tabs_only (h : Host) (i : Z)
    (cfg : option ConfigUpdates) (path : string) (s s' : MinerService)
    (w w' : World) :
  (forall inst, instances s !! i = Some inst -> process inst = None) ->
  MinerService.startMiner h i cfg (MinerService.setGethPath path s) w
  = (Ok tt, s', w') ->
  exists c,
    spawned w' = spawned w ++ [c]
    /\ spawnCommand c
       = match instances s !! i with
         | Some inst =>
             default (gethBinaryPath (config inst)) (cfg ≫= uGethBinaryPath)
         | None => path
         end
    /\ (forall inst, instances s !! i = Some inst ->
          cfg ≫= uGethBinaryPath = None ->
          spawnCommand c = gethBinaryPath (config inst)).
Proof.
  intros Hnone Hst.
  destruct (startMiner_started h i cfg (MinerService.setGethPath path s) s'
              w w' Hnone Hst)
    as (c & inst' & Hs & Hi & Hcfg & Hcmd & _).
  assert (Hb : gethBinaryPath
                 (config (fst (MinerService.getOrCreateInstance i cfg
                                 (MinerService.setGethPath path s))))
               = match instances s !! i with
                 | Some inst =>
                     default (gethBinaryPath (config inst))
                       (cfg ≫= uGethBinaryPath)
                 | None => path
                 end).
  { unfold MinerService.getOrCreateInstance. simpl.
    destruct (instances s !! i) as [inst0|]; [destruct cfg|]; done. }
  exists c. split; [exact Hs|]. rewrite Hcmd, Hcfg, Hb. split; [done|].
  intros inst -> ->. done.
Qed.

Lemma setGethPath_reaches_new_tabs_only_witness :
  let r := MinerService.startMiner Demo.host 1 None
             (MinerService.setGethPath "/opt/geth"
                (MinerService.initial Demo.host)) Demo.fresh in
  fst (fst r) = Ok tt
  /\ (spawnCommand <$> spawned (snd r)) = ["/opt/geth"].
Proof.
  intros r.
  assert (Hr : fst (fst r) = Ok tt) by (vm_compute; reflexivity).
  split; [exact Hr|]. revert Hr. subst r.
  destruct (MinerService.startMiner Demo.host 1 None
              (MinerService.setGethPath "/opt/geth"
                 (MinerService.initial Demo.host)) Demo.fresh)
    as [[r0 s'] w'] eqn:E.
  simpl. intros ->.
  assert (Hn : forall inst,
             instances (MinerService.initial Demo.host) !! 1 = Some inst ->
             process inst = None).
  { intros inst H. simpl in H. rewrite lookup_empty in H. discriminate H. }
  destruct (setGethPath_reaches_new_tabs_only Demo.host 1 None "/opt/geth"
              _ s' _ w' Hn E) as (c & Hs & Hc & _).
  rewrite Hs. simpl in Hc. rewrite lookup_empty in Hc. simpl.
  by rewrite Hc.
Defined.

(** X9.  [addTab] always allocates an index that is not in use and lies
    above every tab of the registry; the new tab is created stopped, with
    the service's current binary path; no other tab is touched and nothing
    is emitted. *)
Theorem addTab_allocates_unused (cfg : option ConfigUpdates)
    (s : MinerService) :
  let '(i, s') := MinerService.addTab cfg s in
  instances s !! i = None
  /\ (forall j, is_Some (instances s !! j) -> j < i)
  /\ (exists inst, instances s' !! i = Some inst
                   /\ process inst = None
                   /\ MinerInstance.isRunning inst = false
                   /\ minerIndex (config inst) = i
                   /\ gethBinaryPath (config inst) = gethPath s)
  /\ (forall j, j <> i -> instances s' !! j = instances s !! j)
  /\ (forall j, j ∈ MinerService.getTabIndices s'
                <-> j = i \/ j ∈ MinerService.getTabIndices s)
  /\ emitted s' = emitted s.
Proof.
  pose proof (addTab_index cfg s) as [Hempty Hmax].
  pose proof (addTab_instances cfg s) as Hkeys.
  assert (Habove : forall j, is_Some (instances s !! j) ->
                             j < fst (MinerService.addTab cfg s)).
  { destruct (max_index_exists s) as [He|[k Hk]].
    - intros j [x Hj]. rewrite He, lookup_empty in Hj. done.
    - rewrite (Hmax k Hk). intros j Hj. apply Hk in Hj. lia. }
  assert (Hnone : instances s !! fst (MinerService.addTab cfg s) = None).
  { apply eq_None_not_Some. intros Hs. apply Habove in Hs. lia. }
  unfold MinerService.addTab in *. simpl in *.
  set (i := match MinerService.getTabIndices s with
            | [] => 1
            | x :: xs => MinerService.Math_max x xs + 1
            end) in *.
  destruct (getOrCreateInstance_lookup i cfg s) as [Hi Hj].
  split_and!; try done.
  - eexists. split; [exact Hi|].
    unfold MinerService.getOrCreateInstance. simpl. rewrite Hnone. done.
  - intros j. rewrite !elem_of_getTabIndices. apply Hkeys.
  - unfold MinerService.getOrCreateInstance. simpl. by rewrite Hnone.
Qed.

(** X13.  [removeTab] on a tab that owns a child signals that child once and
    arms its forced-kill timer, then forgets the tab: no state is reported
    for it, its index is no longer listed, and its remembered configuration
    is gone.  Every other tab and its remembered configuration stay as they
    were, and no event is emitted by the call. *)
Theorem removeTab_stops_and_forgets (h : Host) (i : Z) (s : MinerService)
    (w : World) (inst : MinerInstance) (proc : ChildProcess) :
  instances s !! i = Some inst ->
  process inst = Some proc ->
  let '(s', w') := MinerService.removeTab h i s w in
  MinerService.getMinerState i s' = None
  /\ MinerService.getRpcUrl i s' = None
  /\ (i ∉ MinerService.getTabIndices s')
  /\ configCache s' !! i = None
  /\ (exists sig, signalled w' = signalled w ++ [(pid proc, sig)])
  /\ killTimers w' = killTimers w ++ [pid proc]
  /\ spawned w' = spawned w
  /\ (forall j, j <> i ->
        instances s' !! j = instances s !! j
        /\ configCache s' !! j = configCache s !! j)
  /\ emitted s' = emitted s.
Proof.
  intros Hi Hp. unfold MinerService.removeTab. rewrite Hi.
  pose proof (stop_owned h inst proc w Hp) as H.
  destruct (MinerInstance.stop h inst w) as [inst1 w1].
  destruct H as (_ & _ & _ & _ & _ & Hsig & Hk & Hs & _).
  unfold MinerService.getMinerState, MinerService.getRpcUrl.
  rewrite elem_of_getTabIndices. simpl. rewrite !lookup_delete_eq.
  split_and!; try done.
  intros j Hj. by rewrite !lookup_delete_ne.
Qed.

Lemma removeTab_stops_and_forgets_witness :
  (exists inst, instances Demo.tunedService !! 1 = Some inst
                /\ process inst = Some {| pid := Some 4000; exitCode := None |})
  /\ killTimers (snd (MinerService.removeTab Demo.host 1 Demo.tunedService
                        Demo.runningWorld))
     = killTimers Demo.runningWorld ++ [Some 4000].
Proof.
  assert (Hp0 : (process <$> instances Demo.tunedService !! 1)
                = Some (Some {| pid := Some 4000; exitCode := None |}))
    by (vm_compute; reflexivity).
  destruct (instances Demo.tunedService !! 1) as [inst|] eqn:E;
    [|discriminate Hp0].
  injection Hp0 as Hp.
  split; [exists inst; split; [reflexivity|exact Hp]|].
  pose proof (removeTab_stops_and_forgets Demo.host 1 Demo.tunedService
                Demo.runningWorld inst _ E Hp) as H.
  destruct (MinerService.removeTab Demo.host 1 Demo.tunedService
              Demo.runningWorld) as [s' w'].
  exact (proj1 (proj2 (proj2 (proj2 (proj2 (proj2 H)))))).
Defined.

(** *** Stopping every tab *)

Lemma elem_of_getRunningMinerIndices order s i :
  i ∈ MinerService.getRunningMinerIndices order s
  <-> i ∈ order
      /\ exists inst, instances s !! i = Some inst
                      /\ MinerInstance.isRunning inst = true.
Proof.
  unfold MinerService.getRunningMinerIndices, MinerService.entries.
  rewrite list_elem_of_fmap. split.
  - intros ([j inst] & -> & Hin). simpl.
    apply list_elem_of_In, filter_In in Hin as [Hin Hrun].
    apply list_elem_of_In, list_elem_of_omap in Hin as (k & Hk & Hl).
    destruct (instances s !! k) as [inst'|] eqn:E; [|done].
    simpl in Hl. injection Hl as <- <-. eauto.
  - intros (Hin & inst & Hi & Hrun). exists (i, inst). split; [done|].
    apply list_elem_of_In, filter_In. split; [|done].
    apply list_elem_of_In, list_elem_of_omap. exists i. split; [done|].
    by rewrite Hi.
Qed.

Lemma stop_signals h inst w :
  let w' := snd (MinerInstance.stop h inst w) in
  spawned w' = spawned w
  /\ (forall x, x ∈ signalled w -> x ∈ signalled w')
  /\ (forall proc, process inst = Some proc ->
        exists sig, (pid proc, sig) ∈ signalled w').
Proof.
  destruct (process inst) as [proc|] eqn:Hp.
  - pose proof (stop_owned h inst proc w Hp) as H.
    destruct (MinerInstance.stop h inst w) as [inst1 w1]. simpl.
    destruct H as (_ & _ & _ & _ & _ & [sig Hsig] & _ & Hs & _).
    split_and!; [done| |].
    + intros x Hx. rewrite Hsig, elem_of_app. by left.
    + intros proc' [= <-]. exists sig. rewrite Hsig, elem_of_app. right.
      by apply list_elem_of_singleton.
  - unfold MinerInstance.stop. rewrite Hp. simpl. by split_and!.
Qed.

Lemma stopAll_effect h order : forall s w,
  NoDup order ->
  (forall i, i ∈ order -> is_Some (instances s !! i)) ->
  let '(s', w') := MinerService.stopAll h order s w in
  (forall i, i ∈ order ->
     exists inst0 inst, instances s !! i = Some inst0
                        /\ instances s' !! i = Some inst
                        /\ process inst = None
                        /\ config inst = config inst0)
  /\ (forall i, i ∉ order -> instances s' !! i = instances s !! i)
  /\ configCache s' = configCache s
  /\ gethPath s' = gethPath s
  /\ emitted s' = emitted s ++ (Stopped <$> order)
  /\ spawned w' = spawned w
  /\ (forall x, x ∈ signalled w -> x ∈ signalled w')
  /\ (forall i inst proc, i ∈ order -> instances s !! i = Some inst ->
        process inst = Some proc ->
        exists sig, (pid proc, sig) ∈ signalled w').
Proof.
  induction order as [|idx rest IH]; intros s w Hnd Hin; simpl.
  { split_and!; try done.
    - intros i Hi. by apply elem_of_nil in Hi.
    - by rewrite app_nil_r.
    - intros i inst proc Hi. by apply elem_of_nil in Hi. }
  apply NoDup_cons in Hnd as [Hidx Hnd].
  destruct (Hin idx) as [inst0 H0]; [by left|]. rewrite H0.
  pose proof (stop_effect h inst0 w) as He.
  pose proof (stop_config h inst0 w) as Hc.
  pose proof (stop_signals h inst0 w) as (Hsp & Hmono & Hsig).
  destruct (MinerInstance.stop h inst0 w) as [inst1 w1].
  destruct He as (_ & _ & Hp1 & _). simpl in Hc, Hsp, Hmono, Hsig.
  set (s1 := MinerService.emit (Stopped idx)
               (MinerService.set_instances
                  (<[idx := inst1]> (instances s)) s)).
  assert (Hin1 : forall i, i ∈ rest -> is_Some (instances s1 !! i)).
  { intros i Hi. simpl. destruct (decide (i = idx)) as [->|Hne].
    - by rewrite lookup_insert_eq.
    - rewrite lookup_insert_ne by done. apply Hin. by right. }
  specialize (IH s1 w1 Hnd Hin1).
  destruct (MinerService.stopAll h rest s1 w1) as [s' w'].
  destruct IH as (Hstopped & Hother & Hcache & Hpath & Hem & Hspw & Hmono'
                  & Hsig').
  split_and!.
  - intros i Hi. apply elem_of_cons in Hi as [->|Hi].
    + exists inst0, inst1. rewrite (Hother _ Hidx). simpl.
      by rewrite lookup_insert_eq.
    + destruct (Hstopped i Hi) as (i0 & i1 & Hi0 & Hi1 & Hp & Hcfg).
      exists i0, i1. split_and!; try done.
      simpl in Hi0. rewrite lookup_insert_ne in Hi0; [done|].
      by intros <-.
  - intros i Hi. apply not_elem_of_cons in Hi as [Hne Hi].
    rewrite (Hother _ Hi). simpl. by rewrite lookup_insert_ne.
  - done.
  - done.
  - rewrite Hem. simpl. by rewrite <- app_assoc.
  - by rewrite Hspw.
  - auto.
  - intros i inst proc Hi Hl Hp. apply elem_of_cons in Hi as [->|Hi].
    + rewrite H0 in Hl. injection Hl as <-.
      destruct (Hsig _ Hp) as [sig Hs]. exists sig. by apply Hmono'.
    + apply (Hsig' i inst proc Hi); [|done]. simpl.
      rewrite lookup_insert_ne; [done|]. by intros <-.
Qed.

(** X14.  [stopAll], visiting every tab of the registry once, leaves no tab
    running: every instance has released its child, every child that was
    owned has been sent a signal, and [getRunningMinerIndices] then answers
    the empty list.  One [running: false] event per tab is emitted, in the
    order of the visit; the tabs themselves and their remembered
    configurations stay, and nothing is spawned.  Before the call,
    [getRunningMinerIndices] lists exactly the tabs whose instance is
    running. *)
Theorem stopAll_stops_every_tab (h : Host) (order : list Z)
    (s : MinerService) (w : World) :
  enumerates order s ->
  let '(s', w') := MinerService.stopAll h order s w in
  (forall i inst, instances s' !! i = Some inst ->
     process inst = None /\ MinerInstance.isRunning inst = false)
  /\ MinerService.getRunningMinerIndices order s' = []
  /\ (forall i, i ∈ MinerService.getRunningMinerIndices order s
                <-> exists inst, instances s !! i = Some inst
                                 /\ MinerInstance.isRunning inst = true)
  /\ (forall i inst proc, instances s !! i = Some inst ->
        process inst = Some proc ->
        exists sig, (pid proc, sig) ∈ signalled w')
  /\ (forall i, is_Some (instances s' !! i) <-> is_Some (instances s !! i))
  /\ configCache s' = configCache s
  /\ emitted s' = emitted s ++ (Stopped <$> order)
  /\ spawned w' = spawned w.
Proof.
  intros [Hnd Hen].
  pose proof (stopAll_effect h order s w Hnd (fun i => proj1 (Hen i))) as H.
  destruct (MinerService.stopAll h order s w) as [s' w'].
  destruct H as (Hstopped & Hother & Hcache & _ & Hem & Hspw & _ & Hsig).
  assert (Hkeys : forall i, is_Some (instances s' !! i)
                            <-> is_Some (instances s !! i)).
  { intros i. destruct (decide (i ∈ order)) as [Hi|Hi].
    - destruct (Hstopped i Hi) as (i0 & i1 & -> & -> & _). by split.
    - by rewrite (Hother _ Hi). }
  assert (Hnone : forall i inst, instances s' !! i = Some inst ->
                                 process inst = None).
  { intros i inst Hi.
    assert (Hio : i ∈ order) by (apply Hen, Hkeys; by rewrite Hi).
    destruct (Hstopped i Hio) as (i0 & i1 & _ & Hi1 & Hp & _).
    rewrite Hi in Hi1. by injection Hi1 as ->. }
  split_and!; try done.
  - intros i inst Hi. unfold MinerInstance.isRunning.
    by rewrite (Hnone _ _ Hi).
  - apply elem_of_nil_inv. intros i Hi.
    apply elem_of_getRunningMinerIndices in Hi as (_ & inst & Hi & Hrun).
    unfold MinerInstance.isRunning in Hrun. by rewrite (Hnone _ _ Hi) in Hrun.
  - intros i. rewrite elem_of_getRunningMinerIndices. split.
    + by intros (_ & H).
    + intros (inst & Hi & Hrun). split; [|by eauto].
      apply Hen. by rewrite Hi.
  - intros i inst proc Hi Hp. apply (Hsig i inst proc); [|done..].
    apply Hen. by rewrite Hi.
Qed.

Lemma twoTabs_enumerated : enumerates [2; 1] Demo.twoTabs.
Proof.
  split.
  - apply NoDup_cons. split; [|apply NoDup_singleton].
    intros H. apply list_elem_of_singleton in H. discriminate H.
  - intros i. rewrite <- elem_of_getTabIndices.
    assert (E : MinerService.getTabIndices Demo.twoTabs = [1; 2])
      by (vm_compute; reflexivity).
    rewrite E, !elem_of_cons, !elem_of_nil. tauto.
Qed.

Lemma stopAll_stops_every_tab_witness :
  enumerates [2; 1] Demo.twoTabs
  /\ emitted (fst (MinerService.stopAll Demo.host [2; 1] Demo.twoTabs
                     Demo.fresh))
     = emitted Demo.twoTabs ++ [Stopped 2; Stopped 1].
Proof.
  split; [exact twoTabs_enumerated|].
  pose proof (stopAll_stops_every_tab Demo.host [2; 1] Demo.twoTabs Demo.fresh
                twoTabs_enumerated) as H.
  destruct (MinerService.stopAll Demo.host [2; 1] Demo.twoTabs Demo.fresh)
    as [s' w'].
  exact (proj1 (proj2 (proj2 (proj2 (proj2 (proj2 (proj2 H))))))).
Defined.

(** ** Sleep and wake (main.ts) *)









(** ** The logger (utils/logger.ts) *)

(** X19.  a call of [log] stays inside the supervisor's log: it leaves every
    file outside [logs/app.log] and the directories leading to it as it
    was, deletes nothing, and touches no process.  It can throw only the
    first time it is called in a session (when the log directory cannot be
    created): after any call, whatever its outcome, every later call
    returns normally. *)
Theorem log_is_confined (h : Host) (level level' : LogLevel)
    (msg msg' : string) (w : World) :
  let '(r, w1) := Logger.log h level msg w in
  (forall q, ~ logArea h q -> fs w1 !! q = fs w !! q)
  /\ (forall q x, q <> appLog h -> fs w !! q = Some x -> fs w1 !! q = Some x)
  /\ sameProcesses w w1
  /\ (logDirSet w = true -> r = Ok tt)
  /\ exists w2, Logger.log h level' msg' w1 = (Ok tt, w2).
Proof.
  destruct (Logger.log h level msg w) as [r w1] eqn:E.
  pose proof (log_effect h _ _ _ _ _ E) as (Hset & Hsame & Hkeep & Hframe).
  split_and!; try done.
  - intros Hs. destruct (log_returns h level msg w Hs) as [w' E'].
    rewrite E in E'. by injection E' as ->.
  - by apply log_returns.
Qed.

(** X20.  once the logger has resolved its directory it never creates it
    again: while [logs] is not a directory every line is dropped silently,
    the call returning normally without changing anything. *)
Theorem log_drops_lines_without_directory (h : Host) (level : LogLevel)
    (msg : string) (w : World) :
  logDirSet w = true ->
  Fs.stat (fs w) (Paths.getLogsDir h) <> Some Fs.Dir ->
  Logger.log h level msg w = (Ok tt, w).
Proof.
  intros Hs Hd. unfold Logger.log, Logger.ensureLogDir. unfold_M.
  rewrite Hs. unfold Fs.appendFileSync. simpl.
  assert (Hdir : Fs.dirname (Fs.join (Paths.getLogsDir h) ["app.log"])
                 = Paths.getLogsDir h).
  { unfold Fs.dirname, Fs.join. apply removelast_last. }
  destruct (Fs.join (Paths.getLogsDir h) ["app.log"]) as [|a p] eqn:Ep.
  { unfold Fs.join in Ep. by apply app_eq_nil in Ep as [_ ?]. }
  rewrite Hdir.
  destruct (Fs.stat (fs w) (Paths.getLogsDir h)) as [[|c]|]; done.
Qed.

Lemma log_drops_lines_without_directory_witness :
  Logger.log Demo.host LInfo "started" (Demo.world Demo.freshFiles true)
  = (Ok tt, Demo.world Demo.freshFiles true).
Proof.
  apply log_drops_lines_without_directory; [reflexivity|].
  vm_compute. discriminate.
Defined.

(** ** The wallet store (WalletService.ts) *)

Lemma walletEnc_nonempty h : Paths.getWalletEncPath h <> [].
Proof.
  unfold Paths.getWalletEncPath, Fs.join. intros E.
  by apply app_eq_nil in E as [_ ?].
Qed.


Lemma xor_zero b : Buffer.xor b x00 = b.
Proof.
  unfold Buffer.xor.
  destruct (Byte.to_bits b)
    as (b0 & b1 & b2 & b3 & b4 & b5 & b6 & b7) eqn:Eb.
  change (Byte.to_bits x00)
    with (false, (false, (false, (false, (false, (false, (false, false))))))).
  cbv iota beta. rewrite !xorb_false_r, <- Eb. apply Byte.of_bits_to_bits.
Qed.

Lemma xorLoop_empty_key buf : forall i, WalletService.xorLoop [] i buf = buf.
Proof.
  induction buf as [|b buf IH]; intros i; simpl; [done|].
  rewrite IH. f_equal. destruct i; apply xor_zero.
Qed.

Lemma nth_cycle (key : list byte) i :
  nth (i mod List.length (key ++ key)) (key ++ key) x00
  = nth (i mod List.length key) key x00.
Proof.
  destruct key as [|k0 key']; [by destruct i|].
  set (key := k0 :: key').
  assert (Hn : (0 < List.length key)%nat) by (simpl; lia).
  rewrite length_app.
  set (n := List.length key) in *.
  assert (Hm : ((i mod (n + n)) mod n = i mod n)%nat).
  { replace (n + n)%nat with (n * 2)%nat by lia.
    rewrite Nat.Div0.mod_mul_r, (Nat.mul_comm n), Nat.Div0.mod_add.
    apply Nat.Div0.mod_mod. }
  assert (Hlt : (i mod (n + n) < n + n)%nat) by (apply Nat.mod_upper_bound; lia).
  destruct (Nat.lt_ge_cases (i mod (n + n)) n) as [Hl|Hg].
  - rewrite app_nth1 by done. rewrite <- Hm.
    by rewrite (Nat.mod_small _ _ Hl).
  - rewrite app_nth2 by done. fold n. rewrite <- Hm. f_equal.
    rewrite (Nat.Div0.mod_eq _ n).
    assert (Hd : ((i mod (n + n)) / n = 1)%nat).
    { symmetry. apply Nat.div_unique with (r := (i mod (n + n) - n)%nat); lia. }
    rewrite Hd. lia.
Qed.

Lemma xorLoop_cycle key buf : forall i,
  WalletService.xorLoop (key ++ key) i buf = WalletService.xorLoop key i buf.
Proof.
  induction buf as [|b buf IH]; intros i; simpl; [done|].
  by rewrite IH, nth_cycle.
Qed.

Lemma from_utf8_app a b :
  Buffer.from_utf8 (a +:+ b) = Buffer.from_utf8 a ++ Buffer.from_utf8 b.
Proof.
  unfold Buffer.from_utf8, list_byte_of_string.
  induction a as [|c a IH]; simpl; [done|]. by rewrite IH.
Qed.

(** X27.  the obfuscation gives no protection by itself: with the empty
    password the stored text is the plain base64 form of the phrase, and a
    password written twice in a row obfuscates every phrase exactly as the
    password itself, so either of the two reads what the other wrote. *)
Theorem obfuscation_keys (data password : string) :
  WalletService.simpleObfuscate data ""
  = Buffer.toString_base64 (Buffer.from_utf8 data)
  /\ WalletService.simpleDeobfuscate
       (Buffer.toString_base64 (Buffer.from_utf8 data)) "" = data
  /\ WalletService.simpleObfuscate data (password +:+ password)
     = WalletService.simpleObfuscate data password
  /\ WalletService.simpleDeobfuscate
       (WalletService.simpleObfuscate data password) (password +:+ password)
     = data.
Proof.
  pose proof (from_utf8_app password password) as Hk.
  assert (He : WalletService.simpleObfuscate data ""
               = Buffer.toString_base64 (Buffer.from_utf8 data)).
  { unfold WalletService.simpleObfuscate. simpl.
    by rewrite xorLoop_empty_key. }
  assert (Hc : WalletService.simpleObfuscate data (password +:+ password)
               = WalletService.simpleObfuscate data password).
  { unfold WalletService.simpleObfuscate. by rewrite Hk, xorLoop_cycle. }
  split_and!; [exact He| |exact Hc|].
  - rewrite <- He. apply deobfuscate_obfuscate.
  - rewrite <- Hc. apply deobfuscate_obfuscate.
Qed.

(** ** Genesis (GenesisInit.ts) *)

Lemma getGenesisPath_first_existing h w :
  GenesisInit.getGenesisPath h w
  = match List.find (Fs.existsSync (fs w)) (genesisCandidates h) with
    | Some p => (Ok p, w)
    | None => (Throw (Error "genesis.json not found in resources"), w)
    end.
Proof.
  unfold GenesisInit.getGenesisPath, genesisCandidates.
  destruct (isPackaged h), (resourcesPath h) as [r|]; simpl.
  all: repeat (match goal with |- context [Fs.existsSync ?f ?p] =>
                 destruct (Fs.existsSync f p) eqn:? end; simpl); done.
Qed.

Lemma initMinerDataDir_missing h geth i genesis w :
  Fs.existsSync (fs w) (chaindataDir h i) = false ->
  (forall g, genesis = Some g -> Fs.existsSync (fs w) g = false) ->
  (genesis = None ->
   forall p, p ∈ genesisCandidates h -> Fs.existsSync (fs w) p = false) ->
  GenesisInit.initMinerDataDir h geth i genesis w
  = (Throw (Error match genesis with
                  | Some g => "Genesis file not found: " +:+ Fs.toString g
                  | None => "genesis.json not found in resources"
                  end), w).
Proof.
  intros Hc Hsome Hnone. unfold GenesisInit.initMinerDataDir. unfold_M.
  fold (chaindataDir h i). rewrite Hc.
  destruct genesis as [g|].
  - by rewrite (Hsome g eq_refl).
  - rewrite getGenesisPath_first_existing.
    destruct (List.find _ _) as [p|] eqn:Ef; [|done].
    apply find_some in Ef as [Hin He].
    apply list_elem_of_In in Hin. by rewrite (Hnone eq_refl p Hin) in He.
Qed.

(** X21.  a missing genesis file is detected before anything is touched: on
    a miner without chain data, [initMinerDataDir] given a genesis path
    that does not exist, or given none when no [genesis.json] can be found
    in any of the places [getGenesisPath] looks, throws and leaves the
    world exactly as it was: no directory is created and geth is not run.
    [start] on an instance without a child then throws the same error,
    spawns nothing and leaves the instance unchanged. *)
Theorem missing_genesis_fails_clean (h : Host) (geth : string) (i : Z)
    (genesis : option (list string)) (w : World) :
  Fs.existsSync (fs w) (chaindataDir h i) = false ->
  (forall g, genesis = Some g -> Fs.existsSync (fs w) g = false) ->
  (forall p, p ∈ genesisCandidates h -> Fs.existsSync (fs w) p = false) ->
  GenesisInit.initMinerDataDir h geth i genesis w
  = (Throw (Error match genesis with
                  | Some g => "Genesis file not found: " +:+ Fs.toString g
                  | None => "genesis.json not found in resources"
                  end), w)
  /\ GenesisInit.getGenesisPath h w
     = (Throw (Error "genesis.json not found in resources"), w)
  /\ (forall inst,
        process inst = None -> minerIndex (config inst) = i ->
        MinerInstance.start h inst w
        = (Throw (Error "genesis.json not found in resources"), inst, w)).
Proof.
  intros Hc Hsome Hnone. split_and!.
  - apply initMinerDataDir_missing; auto.
  - rewrite getGenesisPath_first_existing.
    destruct (List.find _ _) as [p|] eqn:Ef; [|done].
    apply find_some in Ef as [Hin He].
    apply list_elem_of_In in Hin. by rewrite (Hnone p Hin) in He.
  - intros inst Hp Hi. unfold MinerInstance.start. rewrite Hp. cbv zeta.
    unfold bind at 1. rewrite Hi.
    rewrite (initMinerDataDir_missing h _ i None w Hc); [done|done|auto].
Qed.

Lemma missing_genesis_fails_clean_witness :
  MinerInstance.start Demo.host (MinerInstance.new (Demo.config 1))
    (Demo.world ∅ false)
  = (Throw (Error "genesis.json not found in resources"),
     MinerInstance.new (Demo.config 1), Demo.world ∅ false).
Proof.
  assert (Hc : Fs.existsSync (fs (Demo.world ∅ false))
                 (chaindataDir Demo.host 1) = false)
    by (vm_compute; reflexivity).
  assert (Hs : forall g : list string,
             None = Some g ->
             Fs.existsSync (fs (Demo.world ∅ false)) g = false)
    by (intros g H; discriminate H).
  assert (Hn : forall p, p ∈ genesisCandidates Demo.host ->
                         Fs.existsSync (fs (Demo.world ∅ false)) p = false).
  { intros p Hp. unfold Fs.existsSync, Fs.stat. simpl.
    destruct p; [|by rewrite lookup_empty].
    exfalso. vm_compute in Hp.
    apply elem_of_cons in Hp as [Hp|Hp]; [discriminate Hp|].
    apply elem_of_cons in Hp as [Hp|Hp]; [discriminate Hp|].
    by apply elem_of_nil in Hp. }
  apply (proj2 (proj2 (missing_genesis_fails_clean Demo.host "geth" 1 None
                         (Demo.world ∅ false) Hc Hs Hn))); reflexivity.
Defined.

Lemma onFs_execs f w r w' : onFs f w = (r, w') -> execs w' = execs w.
Proof. unfold onFs. destruct (f (fs w)); by intros [= _ <-]. Qed.

Lemma log_execs h level msg w r w' :
  Logger.log h level msg w = (r, w') -> execs w' = execs w.
Proof. intros H. by apply log_effect in H as (_ & (? & _) & _). Qed.

Lemma resolve_genesis h (genesis : option (list string)) w rg w0 :
  match genesis with
  | Some g => ret g
  | None => GenesisInit.getGenesisPath h
  end w = (rg, w0) ->
  w0 = w
  /\ forall g, rg = Ok g ->
       match genesis with
       | Some g0 => g = g0
       | None => g ∈ genesisCandidates h
       end.
Proof.
  destruct genesis as [g0|].
  - intros [= <- <-]. split; [done|]. by intros g [= <-].
  - rewrite getGenesisPath_first_existing.
    destruct (List.find _ _) as [p|] eqn:Ef; intros [= <- <-]; [|done].
    split; [done|]. intros g [= <-].
    apply find_some in Ef as [Hin _]. by apply list_elem_of_In.
Qed.

(** X22.  one call of [initMinerDataDir] runs [geth init] at most once, and
    only on a miner without chain data, with the given binary, the miner's
    data directory and a genesis file that exists: the given one, or one
    of the places [getGenesisPath] looks.  When the call returns normally
    on such a miner, geth has been run.  The call never spawns or signals
    a child. *)
Theorem initMinerDataDir_runs_geth_once (h : Host) (geth : string) (i : Z)
    (genesis : option (list string)) (w : World) :
  genesis <> Some [] ->
  let '(r, w') := GenesisInit.initMinerDataDir h geth i genesis w in
  (execs w' = execs w
   \/ exists g,
        execs w' = execs w ++ [{| initBinary := geth;
                                  initDataDir := Paths.getMinerDataDir h i;
                                  initGenesis := g |}]
        /\ Fs.existsSync (fs w) g = true
        /\ Fs.existsSync (fs w) (chaindataDir h i) = false
        /\ match genesis with
           | Some g0 => g = g0
           | None => g ∈ genesisCandidates h
           end)
  /\ (Fs.existsSync (fs w) (chaindataDir h i) = true -> execs w' = execs w)
  /\ (r = Ok tt -> Fs.existsSync (fs w) (chaindataDir h i) = false ->
      execs w' <> execs w)
  /\ sameChildren w w'.
Proof.
  intros _.
  destruct (GenesisInit.initMinerDataDir h geth i genesis w) as [r w'] eqn:E.
  assert (Hsc : sameChildren w w') by (by eapply sameChildren_initMinerDataDir).
  revert E. unfold GenesisInit.initMinerDataDir.
  unfold bind at 1. unfold existsSync at 1. fold (chaindataDir h i).
  destruct (Fs.existsSync (fs w) (chaindataDir h i)) eqn:Hc.
  { intros E. apply log_execs in E. split_and!; auto. }
  unfold bind at 1.
  destruct (match genesis with
            | Some g => ret g
            | None => GenesisInit.getGenesisPath h
            end w) as [[g|e] w0] eqn:Eg;
    apply resolve_genesis in Eg as [-> Hg];
    [|intros [= <- <-]; split_and!; auto; done].
  specialize (Hg g eq_refl).
  unfold bind at 1. unfold existsSync at 1.
  destruct (Fs.existsSync (fs w) g) eqn:Hex; simpl;
    [|intros [= <- <-]; split_and!; auto; done].
  unfold bind at 1.
  destruct (onFs _ w) as [[[]|e] w1] eqn:E1; apply onFs_execs in E1;
    [|intros [= <- <-]; split_and!; auto; done].
  unfold bind at 1.
  destruct (onFs _ w1) as [[[]|e] w2] eqn:E2; apply onFs_execs in E2;
    [|intros [= <- <-]; split_and!; [left; congruence|done..]].
  unfold bind at 1.
  destruct (onFs _ w2) as [[[]|e] w3] eqn:E3; apply onFs_execs in E3;
    [|intros [= <- <-]; split_and!; [left; congruence|done..]].
  unfold bind at 1.
  destruct (Logger.info h _ w3) as [[[]|e] w4] eqn:E4; apply log_execs in E4;
    [|intros [= <- <-]; split_and!; [left; congruence|done..]].
  assert (H4 : execs w4 = execs w) by congruence.
  unfold catch, bind, throw, GenesisInit.execGethInit.
  set (c := {| initBinary := geth; initDataDir := Paths.getMinerDataDir h i;
               initGenesis := g |}).
  assert (Hne : forall l : list InitCall, l ++ [c] <> l).
  { intros l Hl. apply (f_equal List.length) in Hl.
    rewrite length_app in Hl. simpl in Hl. lia. }
  assert (Hend : forall w5 : World,
             execs w5 = execs w ++ [c] ->
             (execs w5 = execs w
              \/ exists g1,
                   execs w5 = execs w ++ [{| initBinary := geth;
                                  initDataDir := Paths.getMinerDataDir h i;
                                  initGenesis := g1 |}]
                   /\ Fs.existsSync (fs w) g1 = true
                   /\ false = false
                   /\ match genesis with
                      | Some g0 => g1 = g0
                      | None => g1 ∈ genesisCandidates h
                      end)
             /\ (false = true -> execs w5 = execs w)
             /\ (r = Ok tt -> false = false -> execs w5 <> execs w)).
  { intros w5 He. split_and!; [right; by exists g|done|].
    intros _ _. rewrite He. apply Hne. }
  destruct (gethInit h c (fs (add_exec c w4))) as [f|e]; simpl.
  - destruct (Logger.info h _ _) as [[[]|e5] w5] eqn:E5;
      apply log_execs in E5; simpl in E5.
    + intros [= <- <-]. split_and!; [..|done]; apply Hend; by rewrite E5, H4.
    + destruct (Logger.error h _ _) as [[[]|e6] w6] eqn:E6;
        apply log_execs in E6; intros [= <- <-].
      all: split_and!; [..|done]; apply Hend; by rewrite E6, E5, H4.
  - destruct (Logger.error h _ _) as [[[]|e5] w5] eqn:E5;
      apply log_execs in E5; simpl in E5; intros [= <- <-].
    all: split_and!; [..|done]; apply Hend; by rewrite E5, H4.
Qed.

Lemma initMinerDataDir_runs_geth_once_witness :
  (None : option (list string)) <> Some []
  /\ List.length
       (execs (snd (GenesisInit.initMinerDataDir Demo.host "geth" 1 None
                      Demo.fresh)))
     = 1%nat.
Proof.
  assert (Hn : (None : option (list string)) <> Some []) by discriminate.
  split; [exact Hn|].
  assert (Hr : fst (GenesisInit.initMinerDataDir Demo.host "geth" 1 None
                      Demo.fresh) = Ok tt) by (vm_compute; reflexivity).
  assert (Hc : Fs.existsSync (fs Demo.fresh) (chaindataDir Demo.host 1)
               = false) by (vm_compute; reflexivity).
  pose proof (initMinerDataDir_runs_geth_once Demo.host "geth" 1 None
                Demo.fresh Hn) as H.
  revert Hr H.
  destruct (GenesisInit.initMinerDataDir Demo.host "geth" 1 None Demo.fresh)
    as [r w'].
  simpl. intros -> ([He|(g & -> & _)] & _ & Hrun & _).
  - exfalso. by apply (Hrun eq_refl Hc).
  - reflexivity.
Defined.

(** *** The stored address and the wallet info *)

Lemma miningAddressFile_nonempty h : WalletService.miningAddressFile h <> [].
Proof.
  unfold WalletService.miningAddressFile, Fs.join. intros E.
  by apply app_eq_nil in E as [_ ?].
Qed.

Lemma existsSync_lookup files (p : list string) :
  p <> [] ->
  Fs.existsSync files p
  = match files !! p with Some _ => true | None => false end.
Proof. unfold Fs.existsSync. by destruct p. Qed.

Lemma canonical_prefixed a b :
  WalletService.canonical a = Some b -> Js.startsWith b "0x" = true.
Proof.
  unfold WalletService.canonical. destruct a as [a|]; [|done].
  destruct (NetworkService.truthy a); [|done].
  destruct (Js.startsWith a "0x") eqn:E; intros [= <-]; [done|].
  unfold Js.startsWith. simpl. by destruct a.
Qed.

Lemma getStoredMiningAddress_reads h idx :
  preserves eq (WalletService.getStoredMiningAddress h idx).
Proof.
  unfold WalletService.getStoredMiningAddress.
  assert (Hrefl : forall w : World, w = w) by done.
  assert (Htrans : forall w1 w2 w3 : World, w1 = w2 -> w2 = w3 -> w1 = w3)
    by (intros; congruence).
  repeat first
    [ apply (preserves_existsSync Hrefl)
    | apply (preserves_readFs Hrefl)
    | apply (preserves_ret Hrefl)
    | apply (preserves_bind Htrans)
    | apply preserves_if
    | match goal with |- forall _, preserves _ _ => intro end
    | match goal with |- preserves _ (match ?x with _ => _ end) =>
        destruct x end
    | (intros w r w'; by intros [= _ <-]) ].
Qed.

(** X23.  [getStoredMiningAddress] only reads.  When there is no
    [mining_address.txt] it answers [null] unless a miner index is given
    and that miner's keystore directory exists; an address it does answer
    comes from a [UTC--] file of that keystore and always starts with
    [0x]. *)
Theorem stored_address_from_keystore (h : Host) (idx : option Z) (w w' : World)
    (r : result (option string)) :
  fs w !! WalletService.miningAddressFile h = None ->
  WalletService.getStoredMiningAddress h idx w = (r, w') ->
  w' = w
  /\ (idx = None -> r = Ok None)
  /\ (forall i, idx = Some i ->
        Fs.existsSync (fs w) (Paths.getMinerKeystoreDir h i) = false ->
        r = Ok None)
  /\ (forall a, r = Ok (Some a) ->
        Js.startsWith a "0x" = true
        /\ exists i first content address,
             idx = Some i
             /\ Js.startsWith first "UTC--" = true
             /\ fs w !! (Paths.getMinerKeystoreDir h i ++ [first])
                = Some (Fs.File content)
             /\ jsonAddress h content = Ok address
             /\ WalletService.canonical address = Some a).
Proof.
  intros Hno Hget.
  assert (Hw : w' = w) by (symmetry; by eapply getStoredMiningAddress_reads).
  subst w'. split; [done|]. revert Hget.
  unfold WalletService.getStoredMiningAddress. unfold_M.
  fold (WalletService.miningAddressFile h).
  rewrite existsSync_lookup, Hno by apply miningAddressFile_nonempty.
  destruct idx as [i|]; [|intros [= <-]; split_and!;
      [done|intros ? [= <-] ?; congruence|done]].
  destruct (Fs.existsSync (fs w) (Paths.getMinerKeystoreDir h i)) eqn:Eks;
    [|intros [= <-]; split_and!;
      [done|intros ? [= <-] ?; congruence|done]].
  destruct (Fs.readdirSync _ (fs w)) as [names|e] eqn:Er;
    [|intros [= <-]; split_and!;
      [done|intros ? [= <-] ?; congruence|done]].
  destruct (List.filter _ names) as [|first rest] eqn:Ef;
    [intros [= <-]; split_and!;
      [done|intros ? [= <-] ?; congruence|done]|].
  assert (Hfirst : Js.startsWith first "UTC--" = true).
  { assert (Hin : In first (List.filter
                              (fun f => Js.startsWith f "UTC--") names))
      by (rewrite Ef; by left).
    by apply filter_In in Hin as [_ ?]. }
  unfold Fs.readFileSync, Fs.join. rewrite stat_snoc.
  destruct (fs w !! (Paths.getMinerKeystoreDir h i ++ [first]))
    as [[|content]|] eqn:Ec; try (intros [= <-]; split_and!;
      [done|intros ? [= <-] ?; congruence|done]).
  destruct (jsonAddress h content) as [address|e] eqn:Ej;
    [|intros [= <-]; split_and!;
      [done|intros ? [= <-] ?; congruence|done]].
  intros [= <-]. split_and!; [done|intros ? [= <-] ?; congruence|].
  intros a [= Ha]. split; [by eapply canonical_prefixed|].
  by exists i, first, content, address.
Qed.

Lemma stored_address_from_keystore_witness :
  fs Demo.keystoreWorld !! WalletService.miningAddressFile Demo.keystoreHost = None
  /\ WalletService.getStoredMiningAddress Demo.keystoreHost (Some 1)
       Demo.keystoreWorld
     = (Ok (Some "0x1111111111111111111111111111111111111111"), Demo.keystoreWorld)
  /\ Js.startsWith "0x1111111111111111111111111111111111111111" "0x" = true.
Proof.
  assert (Hno : fs Demo.keystoreWorld
                !! WalletService.miningAddressFile Demo.keystoreHost
                = None) by (vm_compute; reflexivity).
  assert (Hget : WalletService.getStoredMiningAddress Demo.keystoreHost
                   (Some 1) Demo.keystoreWorld
                 = (Ok (Some "0x1111111111111111111111111111111111111111"),
                    Demo.keystoreWorld))
    by (vm_compute; reflexivity).
  split; [exact Hno|]. split; [exact Hget|].
  destruct (stored_address_from_keystore Demo.keystoreHost (Some 1)
              Demo.keystoreWorld Demo.keystoreWorld _ Hno Hget) as (_ & _ & _ & Ha).
  exact (proj1 (Ha _ eq_refl)).
Defined.

Lemma mkdirSync_frame p files files' (q : list string) :
  Fs.mkdirSync p files = Ok files' ->
  ~ q `prefix_of` p -> files' !! q = files !! q.
Proof.
  intros Hm Hq. destruct (files' !! q) as [x|] eqn:E.
  - destruct (mkdirSync_added _ _ _ _ _ Hm E) as [?|[_ ?]]; done.
  - destruct (files !! q) as [x|] eqn:E'; [|done].
    eapply lookup_weaken in E'; [|by eapply mkdirSync_subseteq]. congruence.
Qed.

Lemma setAddressOnly_frame h a w w1 (q : list string) :
  WalletService.setAddressOnly h a w = (Ok tt, w1) ->
  q <> WalletService.miningAddressFile h ->
  ~ logArea h q ->
  ~ q `prefix_of` Paths.getMarsCreditDir h ->
  fs w1 !! q = fs w !! q.
Proof.
  unfold WalletService.setAddressOnly.
  destruct (negb _); [done|]. unfold_M.
  destruct (Fs.mkdirSync _ (fs w)) as [f1|] eqn:E1; [|done]. simpl.
  destruct (Fs.writeFileSync _ _ f1) as [f2|] eqn:E2; [|done]. simpl.
  apply writeFileSync_inv in E2 as ->.
  intros H Hq Hl Hp. apply log_effect in H as (_ & _ & _ & Hframe).
  rewrite (Hframe _ Hl). simpl. rewrite lookup_insert_ne by done.
  by eapply mkdirSync_frame.
Qed.

Lemma walletEnc_outside h :
  Paths.getWalletEncPath h <> WalletService.miningAddressFile h
  /\ ~ logArea h (Paths.getWalletEncPath h)
  /\ ~ Paths.getWalletEncPath h `prefix_of` Paths.getMarsCreditDir h.
Proof.
  unfold Paths.getWalletEncPath, WalletService.miningAddressFile, logArea,
    appLog, Paths.getLogsDir, Fs.join.
  split_and!.
  - intros E. by apply app_inv_head in E.
  - intros [E|[k E]].
    + apply (f_equal List.length) in E. rewrite !length_app in E.
      simpl in E. lia.
    + rewrite <- app_assoc in E. by apply app_inv_head in E.
  - intros [k E]. apply (f_equal List.length) in E.
    rewrite !length_app in E. simpl in E. lia.
Qed.

Lemma keystoreDir_outside h i :
  Paths.getMinerKeystoreDir h i <> WalletService.miningAddressFile h
  /\ ~ logArea h (Paths.getMinerKeystoreDir h i)
  /\ ~ Paths.getMinerKeystoreDir h i `prefix_of` Paths.getMarsCreditDir h
  /\ Paths.getMinerKeystoreDir h i <> [].
Proof.
  split_and!.
  - unfold Paths.getMinerKeystoreDir, Paths.getMinerDataDir,
      WalletService.miningAddressFile, Fs.join.
    rewrite <- !app_assoc. intros E. by apply app_inv_head in E.
  - apply dataDir_not_logArea.
  - unfold Paths.getMinerKeystoreDir, Paths.getMinerDataDir, Fs.join.
    intros [k E]. apply (f_equal List.length) in E.
    rewrite !length_app in E. simpl in E. lia.
  - unfold Paths.getMinerKeystoreDir, Fs.join. intros E.
    by apply app_eq_nil in E as [_ ?].
Qed.

Lemma valid_address_truthy a :
  WalletService.isValidAddress a = true -> NetworkService.truthy a = true.
Proof. by destruct a. Qed.

(** X24.  after [setAddressOnly(a)] on a machine without [wallet.enc], the
    wallet info shown to the user is the address [a] in mode
    [address_only], with neither a mnemonic nor a private key; the same is
    reported for a miner whose keystore directory does not exist. *)
Theorem address_only_wallet_info (h : Host) (a : string) (w w1 : World) :
  matchesAddressPattern a ->
  WalletService.setAddressOnly h a w = (Ok tt, w1) ->
  fs w !! Paths.getWalletEncPath h = None ->
  let info := {| wiAddress := a; wiMode := address_only;
                 wiHasMnemonic := false; wiHasPrivateKey := false |} in
  WalletService.getWalletInfo h None w1 = (Ok (Some info), w1)
  /\ (forall i, fs w !! Paths.getMinerKeystoreDir h i = None ->
        WalletService.getWalletInfo h (Some i) w1 = (Ok (Some info), w1)).
Proof.
  intros Ha Hset Hno info.
  assert (Hv : WalletService.isValidAddress a = true)
    by (by apply isValidAddress_spec).
  assert (Hget : forall idx,
             WalletService.getStoredMiningAddress h idx w1
             = (Ok (Some a), w1)).
  { intros idx. pose proof (setAddressOnly_writes h _ _ _ Hset) as Hf.
    rewrite (getStoredMiningAddress_prefers_file h idx w1 a Hf).
    by rewrite trim_valid_address. }
  destruct (walletEnc_outside h) as (He1 & He2 & He3).
  assert (Henc : Fs.existsSync (fs w1) (Paths.getWalletEncPath h) = false).
  { rewrite existsSync_lookup by apply walletEnc_nonempty.
    by rewrite (setAddressOnly_frame h a w w1 _ Hset He1 He2 He3), Hno. }
  split.
  - unfold WalletService.getWalletInfo. unfold bind at 1. rewrite Hget.
    rewrite (valid_address_truthy a Hv). simpl. unfold_M. by rewrite Henc.
  - intros i Hi. destruct (keystoreDir_outside h i) as (Hk1 & Hk2 & Hk3 & Hk4).
    unfold WalletService.getWalletInfo. unfold bind at 1. rewrite Hget.
    rewrite (valid_address_truthy a Hv). simpl. unfold_M. rewrite Henc.
    rewrite existsSync_lookup by done.
    by rewrite (setAddressOnly_frame h a w w1 _ Hset Hk1 Hk2 Hk3), Hi.
Qed.

Lemma address_only_wallet_info_witness :
  matchesAddressPattern Demo.deadAddress
  /\ fs Demo.fresh !! Paths.getWalletEncPath Demo.host = None
  /\ exists w1,
       WalletService.setAddressOnly Demo.host Demo.deadAddress Demo.fresh
       = (Ok tt, w1)
       /\ WalletService.getWalletInfo Demo.host None w1
          = (Ok (Some {| wiAddress := Demo.deadAddress;
                         wiMode := address_only;
                         wiHasMnemonic := false;
                         wiHasPrivateKey := false |}), w1).
Proof.
  assert (Ha : matchesAddressPattern Demo.deadAddress).
  { apply isValidAddress_spec. reflexivity. }
  assert (Hno : fs Demo.fresh !! Paths.getWalletEncPath Demo.host = None)
    by (vm_compute; reflexivity).
  split; [exact Ha|]. split; [exact Hno|].
  assert (Hr : fst (WalletService.setAddressOnly Demo.host Demo.deadAddress
                      Demo.fresh) = Ok tt) by (vm_compute; reflexivity).
  revert Hr.
  destruct (WalletService.setAddressOnly Demo.host Demo.deadAddress Demo.fresh)
    as [r w1] eqn:E.
  simpl. intros ->. exists w1. split; [reflexivity|].
  exact (proj1 (address_only_wallet_info Demo.host _ _ w1 Ha E Hno)).
Defined.

(** X25.  [getWalletInfo] only reads.  When it answers, the address is the
    stored mining address and is not empty, [hasMnemonic] tells whether
    [wallet.enc] exists, and the mode is [address_only] exactly when there
    is neither a mnemonic nor a keystore file; in particular, after
    [saveMnemonic] every answer is in mode [full]. *)
Theorem wallet_info_reflects_store (h : Host) (idx : option Z) (w w' : World)
    (info : WalletInfo) :
  WalletService.getWalletInfo h idx w = (Ok (Some info), w') ->
  w' = w
  /\ WalletService.getStoredMiningAddress h idx w
     = (Ok (Some (wiAddress info)), w)
  /\ wiAddress info <> ""
  /\ wiHasMnemonic info = Fs.existsSync (fs w) (Paths.getWalletEncPath h)
  /\ (wiMode info = address_only
      <-> wiHasMnemonic info = false /\ wiHasPrivateKey info = false)
  /\ (idx = None -> wiHasPrivateKey info = false)
  /\ (forall m p w0,
        WalletService.saveMnemonic h m p w0 = (Ok tt, w) ->
        wiMode info = full /\ wiHasMnemonic info = true).
Proof.
  unfold WalletService.getWalletInfo. unfold bind at 1.
  destruct (WalletService.getStoredMiningAddress h idx w) as [[[a|]|e] w1]
    eqn:Eg; [|done..].
  apply getStoredMiningAddress_reads in Eg as Hw. subst w1.
  destruct (NetworkService.truthy a) eqn:Et; [|done]. simpl.
  unfold bind at 1. unfold existsSync at 1.
  set (hasMnemonic := Fs.existsSync (fs w) (Paths.getWalletEncPath h)).
  assert (Hks : exists k,
    (match idx with
     | Some i =>
         do present <- existsSync (Paths.getMinerKeystoreDir h i);
         if present
         then do names <- readFs (Fs.readdirSync (Paths.getMinerKeystoreDir h i));
              ret (existsb (fun f => Js.startsWith f "UTC--") names)
         else ret false
     | None => ret false
     end) w = (k, w) /\ (idx = None -> k = Ok false)).
  { destruct idx as [i|]; [|eexists; split; [reflexivity|done]]. unfold_M.
    destruct (Fs.existsSync (fs w) (Paths.getMinerKeystoreDir h i));
      [|eexists; split; [reflexivity|done]].
    destruct (Fs.readdirSync _ _); eexists; (split; [reflexivity|done]). }
  destruct Hks as (k & Hk & Hnone). unfold bind at 1. rewrite Hk.
  destruct k as [hasKeystore|e]; [|done].
  intros [= <- <-]. simpl. split_and!; try done.
  - by destruct a.
  - destruct hasKeystore, hasMnemonic; simpl; split; try done; by intros [].
  - intros ->. by injection (Hnone eq_refl).
  - intros m p w0 Hsave.
    assert (Hm : hasMnemonic = true).
    { unfold hasMnemonic.
      rewrite existsSync_lookup by apply walletEnc_nonempty.
      by rewrite (saveMnemonic_writes h _ _ _ _ Hsave). }
    rewrite Hm. by destruct hasKeystore.
Qed.

Lemma wallet_info_reflects_store_witness :
  let w := snd (WalletService.saveMnemonic Demo.host "abandon ability able"
                  "pw"
                  (snd (WalletService.setAddressOnly Demo.host Demo.deadAddress
                          Demo.fresh))) in
  exists info,
    WalletService.getWalletInfo Demo.host None w = (Ok (Some info), w)
    /\ wiAddress info = Demo.deadAddress
    /\ wiMode info = full.
Proof.
  intros w.
  assert (Hg : WalletService.getWalletInfo Demo.host None w
               = (Ok (Some {| wiAddress := Demo.deadAddress; wiMode := full;
                              wiHasMnemonic := true;
                              wiHasPrivateKey := false |}), w)).
  { assert (Hr : fst (WalletService.getWalletInfo Demo.host None w)
                 = Ok (Some {| wiAddress := Demo.deadAddress; wiMode := full;
                               wiHasMnemonic := true;
                               wiHasPrivateKey := false |}))
      by (vm_compute; reflexivity).
    revert Hr.
    destruct (WalletService.getWalletInfo Demo.host None w) as [r w'] eqn:E.
    simpl. intros ->.
    by destruct (wallet_info_reflects_store Demo.host None w w' _ E)
      as (-> & _). }
  eexists. split; [exact Hg|]. split; reflexivity.
Defined.

(** ** The JSON-RPC client (NetworkService) *)

Section NetworkFacts.
Variable fetch : list NetworkService.RpcRequest ->
                 NetworkService.RpcRequest -> NetworkService.FetchOutcome.

Lemma rpc_effect url method params n :
  let n' := snd (NetworkService.rpc fetch url method params n) in
  NetworkService.rpcId n' = NetworkService.rpcId n + 1
  /\ NetworkService.sent n'
     = NetworkService.sent n
       ++ [{| NetworkService.reqUrl := url;
              NetworkService.reqMethod := method;
              NetworkService.reqParams := params;
              NetworkService.reqId := NetworkService.rpcId n + 1 |}].
Proof.
  unfold NetworkService.rpc. by repeat case_match.
Qed.

Lemma idsConsecutive_rpc url method params n :
  idsConsecutive n ->
  idsConsecutive (snd (NetworkService.rpc fetch url method params n)).
Proof.
  intros [Hids Hlen].
  destruct (rpc_effect url method params n) as [Hid Hsent].
  split.
  - rewrite Hsent, Hid, fmap_app, Hids.
    rewrite (seqZ_app 1 (NetworkService.rpcId n) 1) by lia.
    f_equal. rewrite seqZ_cons by lia. rewrite seqZ_nil by lia.
    simpl. f_equal. lia.
  - rewrite Hsent, Hid, length_app. simpl. lia.
Qed.

Lemma call_effect c n :
  idsConsecutive n ->
  let n' := snd (NetworkService.call fetch c n) in
  idsConsecutive n'
  /\ (List.length (NetworkService.sent n) + 1
      <= List.length (NetworkService.sent n')
      <= List.length (NetworkService.sent n) + 2)%nat.
Proof.
  intros Hn.
  assert (Hone : forall url method params,
             let n' := snd (NetworkService.rpc fetch url method params n) in
             idsConsecutive n'
             /\ (List.length (NetworkService.sent n) + 1
                 <= List.length (NetworkService.sent n')
                 <= List.length (NetworkService.sent n) + 2)%nat).
  { intros url method params. split; [by apply idsConsecutive_rpc|].
    destruct (rpc_effect url method params n) as [_ ->].
    rewrite length_app. simpl. lia. }
  assert (Hvoid : forall r, snd (NetworkService.void r) = snd r)
    by (by intros [[?|?] ?]).
  destruct c; simpl;
    unfold NetworkService.minerStart, NetworkService.minerStop;
    rewrite ?Hvoid; try apply Hone.
  unfold NetworkService.getBalancePreferLocal, NetworkService.ethGetBalance.
  destruct localRpcUrl as [url|]; [|apply Hone].
  destruct (NetworkService.truthy url); [|apply Hone].
  pose proof (Hone url "eth_getBalance"
                [NetworkService.JString address;
                 NetworkService.JString "latest"]) as [H1 L0].
  pose proof (rpc_effect url "eth_getBalance"
                [NetworkService.JString address;
                 NetworkService.JString "latest"] n) as [_ L1].
  apply (f_equal List.length) in L1. rewrite length_app in L1.
  destruct (NetworkService.rpc fetch url _ _ n) as [[wei|e] n1]; [done|].
  simpl in H1, L1. split; [by apply idsConsecutive_rpc|].
  match goal with |- context [NetworkService.rpc fetch ?u ?m ?p n1] =>
    destruct (rpc_effect u m p n1) as [_ ->] end.
  rewrite length_app. simpl. lia.
Qed.

Lemma session_effect cs : forall n,
  idsConsecutive n ->
  idsConsecutive (NetworkService.session fetch cs n)
  /\ (List.length (NetworkService.sent n) + List.length cs
      <= List.length (NetworkService.sent (NetworkService.session fetch cs n))
      <= List.length (NetworkService.sent n) + 2 * List.length cs)%nat.
Proof.
  induction cs as [|c cs IH]; intros n Hn; simpl.
  - split; [done|lia].
  - destruct (call_effect c n Hn) as [H1 L1].
    destruct (IH _ H1) as [H2 L2]. split; [done|lia].
Qed.

End NetworkFacts.

(** X29.  in a session of calls made one after the other, the requests sent
    carry the ids 1, 2, 3, ... in the order in which they were sent: no two
    requests share an id and [rpcId] is the number of requests sent.  Every
    call sends one request, except [getBalancePreferLocal], which sends one
    or two. *)
Theorem request_ids_consecutive
    (fetch : list NetworkService.RpcRequest ->
             NetworkService.RpcRequest -> NetworkService.FetchOutcome)
    (cs : list NetworkService.ApiCall) :
  Z.of_nat (List.length cs) < 2 ^ 52 ->
  let n := NetworkService.session fetch cs NetworkService.initialNet in
  NetworkService.reqId <$> NetworkService.sent n
  = seqZ 1 (Z.of_nat (List.length (NetworkService.sent n)))
  /\ NetworkService.rpcId n = Z.of_nat (List.length (NetworkService.sent n))
  /\ NoDup (NetworkService.reqId <$> NetworkService.sent n)
  /\ (List.length cs <= List.length (NetworkService.sent n)
      <= 2 * List.length cs)%nat
  /\ NetworkService.rpcId n < 2 ^ 53.
Proof.
  intros Hbound.
  assert (H0 : idsConsecutive NetworkService.initialNet) by done.
  destruct (session_effect fetch cs NetworkService.initialNet H0)
    as [[Hids Hlen] Hn].
  simpl in Hn. split_and!.
  - by rewrite Hids, Hlen.
  - done.
  - rewrite Hids. apply NoDup_seqZ.
  - lia.
  - lia.
  - rewrite Hlen. lia.
Qed.

Lemma request_ids_consecutive_witness :
  let cs := [NetworkService.GetBalancePreferLocal
               (Some "http://localhost:8546") Demo.deadAddress;
             NetworkService.EthBlockNumber NetworkService.REMOTE_RPC] in
  Z.of_nat (List.length cs) < 2 ^ 52
  /\ NetworkService.reqId
       <$> NetworkService.sent
             (NetworkService.session Demo.remoteOnly cs
                NetworkService.initialNet)
     = [1; 2; 3].
Proof.
  intros cs.
  assert (Hb : Z.of_nat (List.length cs) < 2 ^ 52) by (vm_compute; reflexivity).
  split; [exact Hb|].
  destruct (request_ids_consecutive Demo.remoteOnly cs Hb) as (Hids & _).
  rewrite Hids. vm_compute. reflexivity.
Defined.

(** X30.  [getBalancePreferLocal] asks the local node first when a non-empty
    local URL is given, and its answer is final when it is a result: the
    remote endpoint is then not contacted.  When the local call fails in
    any way, its error is dropped and the call becomes the same request to
    the remote endpoint, sent with the next id; without a local URL only
    the remote endpoint is asked.  Every request is [eth_getBalance] of the
    address at [latest]. *)
Theorem balance_prefers_local
    (fetch : list NetworkService.RpcRequest ->
             NetworkService.RpcRequest -> NetworkService.FetchOutcome)
    (address : string) (n : NetworkService.Net) :
  let request url id :=
    {| NetworkService.reqUrl := url;
       NetworkService.reqMethod := "eth_getBalance";
       NetworkService.reqParams := [NetworkService.JString address;
                                    NetworkService.JString "latest"];
       NetworkService.reqId := id |} in
  let remote := NetworkService.ethGetBalance fetch NetworkService.REMOTE_RPC
                  address in
  (forall url wei n1,
     url <> "" ->
     NetworkService.ethGetBalance fetch url address n = (Ok wei, n1) ->
     NetworkService.getBalancePreferLocal fetch (Some url) address n
     = (Ok wei, n1)
     /\ NetworkService.sent n1
        = NetworkService.sent n ++ [request url (NetworkService.rpcId n + 1)])
  /\ (forall url e n1,
        url <> "" ->
        NetworkService.ethGetBalance fetch url address n = (Throw e, n1) ->
        NetworkService.getBalancePreferLocal fetch (Some url) address n
        = remote n1
        /\ NetworkService.sent (snd (remote n1))
           = NetworkService.sent n
             ++ [request url (NetworkService.rpcId n + 1);
                 request NetworkService.REMOTE_RPC
                   (NetworkService.rpcId n + 2)])
  /\ NetworkService.getBalancePreferLocal fetch None address n = remote n
  /\ NetworkService.getBalancePreferLocal fetch (Some "") address n = remote n
  /\ NetworkService.sent (snd (remote n))
     = NetworkService.sent n
       ++ [request NetworkService.REMOTE_RPC (NetworkService.rpcId n + 1)].
Proof.
  intros request remote.
  assert (Ht : forall url, url <> "" -> NetworkService.truthy url = true)
    by (by intros []).
  split_and!.
  - intros url wei n1 Hu He.
    unfold NetworkService.getBalancePreferLocal. rewrite (Ht url Hu), He.
    split; [done|].
    pose proof (rpc_effect fetch url "eth_getBalance"
                  [NetworkService.JString address;
                   NetworkService.JString "latest"] n) as [_ Hs].
    unfold NetworkService.ethGetBalance in He. rewrite He in Hs. exact Hs.
  - intros url e n1 Hu He.
    unfold NetworkService.getBalancePreferLocal. rewrite (Ht url Hu), He.
    split; [done|].
    pose proof (rpc_effect fetch url "eth_getBalance"
                  [NetworkService.JString address;
                   NetworkService.JString "latest"] n) as [Hi Hs].
    unfold NetworkService.ethGetBalance in He. rewrite He in Hi, Hs.
    simpl in Hi, Hs.
    pose proof (rpc_effect fetch NetworkService.REMOTE_RPC "eth_getBalance"
                  [NetworkService.JString address;
                   NetworkService.JString "latest"] n1) as [_ Hs'].
    unfold remote, NetworkService.ethGetBalance. rewrite Hs', Hs, Hi.
    rewrite <- app_assoc. simpl. unfold request. do 4 f_equal. lia.
  - done.
  - done.
  - apply rpc_effect.
Qed.

(** ** Formatting balances (NetworkService) *)

Lemma dropZerosRev_head l c r : Js.dropZerosRev l = c :: r -> c <> "0"%char.
Proof.
  induction l as [|a l IH]; simpl; [done|].
  destruct (Ascii.eqb a "0") eqn:E; [done|].
  intros [= <- _]. by apply Ascii.eqb_neq.
Qed.

Lemma list_ascii_app a b :
  list_ascii_of_string (a +:+ b)
  = list_ascii_of_string a ++ list_ascii_of_string b.
Proof. induction a as [|c a IH]; simpl; [done|]. by rewrite IH. Qed.

Lemma stripTrailingZeros_no_zero s t : Js.stripTrailingZeros s <> t +:+ "0".
Proof.
  unfold Js.stripTrailingZeros. intros E.
  apply (f_equal list_ascii_of_string) in E.
  rewrite list_ascii_of_string_of_list_ascii, list_ascii_app in E.
  apply (f_equal (@rev ascii)) in E.
  rewrite rev_involutive, rev_app_distr in E. simpl in E.
  by apply dropZerosRev_head in E.
Qed.

(** X28.  [weiToMars] throws exactly when its argument is not a BigInt
    literal.  Otherwise the result is the whole number of MARS (the
    quotient by 10^18, truncated), a dot, and one to six further
    characters: there is always a fractional part, which is ["0"] or does
    not end in a zero. *)
Theorem weiToMars_format (weiHex : string) :
  match Js.BigInt_of_string weiHex with
  | None => exists e, NetworkService.weiToMars weiHex = Throw e
  | Some wei =>
      exists frac,
        NetworkService.weiToMars weiHex
        = Ok (Js.String_of_number (Z.quot wei (10 ^ 18)) +:+ "." +:+ frac)
        /\ (1 <= String.length frac <= 6)%nat
        /\ (frac = "0" \/ forall t, frac <> t +:+ "0")
  end.
Proof.
  unfold NetworkService.weiToMars.
  destruct (Js.BigInt_of_string weiHex) as [wei|]; [|by eexists].
  cbv zeta.
  set (t := Js.stripTrailingZeros _).
  assert (Ht : (String.length t <= 6)%nat).
  { subst t. etrans; [apply stripTrailingZeros_length|].
    apply substring_length_le. }
  assert (Hz : forall u, t <> u +:+ "0")
    by (intros u; apply stripTrailingZeros_no_zero).
  unfold NetworkService.orElse.
  destruct t as [|c t']; simpl.
  - exists "0". split_and!; [done|simpl; lia|simpl; lia|by left].
  - exists (String c t'). split_and!; [done|simpl; lia|simpl in *; lia|].
    by right.
Qed.

(** ** Restarting (MinerInstance.ts) *)

(** X7.  stopping a running instance and starting it again: when both
    spawns succeed, the second child is spawned with the same binary,
    arguments and working directory as the first; the first child, and
    only it, has been signalled; and the instance owns the second child
    and is running, with its health counter back at zero and its
    configuration unchanged. *)
Theorem restart_spawns_same_command (h : Host)
    (inst inst1 inst2 inst3 : MinerInstance) (w w1 w2 w3 : World)
    (n1 n3 : Z) :
  process inst = None ->
  MinerInstance.start h inst w = (Ok tt, inst1, w1) ->
  MinerInstance.getPid inst1 = Some n1 ->
  MinerInstance.stop h inst1 w1 = (inst2, w2) ->
  MinerInstance.start h inst2 w2 = (Ok tt, inst3, w3) ->
  MinerInstance.getPid inst3 = Some n3 ->
  exists c1 c2 sig,
    spawned w3 = spawned w ++ [c1; c2]
    /\ spawnPid c1 = Some n1
    /\ spawnPid c2 = Some n3
    /\ spawnCommand c2 = spawnCommand c1
    /\ spawnArgs c2 = spawnArgs c1
    /\ spawnCwd c2 = spawnCwd c1
    /\ signalled w3 = signalled w ++ [(Some n1, sig)]
    /\ killTimers w3 = killTimers w ++ [Some n1]
    /\ process inst3 = Some {| pid := Some n3; exitCode := None |}
    /\ MinerInstance.isRunning inst3 = true
    /\ healthFailures inst3 = 0
    /\ config inst3 = config inst.
Proof.
  intros Hp H1 Hn1 H2 H3 Hn3.
  destruct (start_returned h inst inst1 w w1 Hp H1)
    as (p1 & Hs1 & Hi1 & _ & _ & Hg1 & Hk1).
  assert (Hp1 : process inst1 = Some {| pid := p1; exitCode := None |})
    by (by rewrite Hi1).
  assert (E1 : p1 = Some n1).
  { unfold MinerInstance.getPid in Hn1. by rewrite Hp1 in Hn1. }
  pose proof (stop_owned h inst1 _ w1 Hp1) as Hstop. rewrite H2 in Hstop.
  destruct Hstop as (Hp2 & _ & Hc2 & _ & _ & (sig & Hg2) & Hk2 & Hs2 & _).
  destruct (start_returned h inst2 inst3 w2 w3 Hp2 H3)
    as (p2 & Hs3 & Hi3 & _ & _ & Hg3 & Hk3).
  assert (E3 : p2 = Some n3).
  { unfold MinerInstance.getPid in Hn3. by rewrite Hi3 in Hn3. }
  assert (Hc : config inst2 = config inst) by (by rewrite Hc2, Hi1).
  subst p1 p2.
  eexists _, _, sig. split_and!.
  - rewrite Hs3, Hs2, Hs1, <- app_assoc. simpl. reflexivity.
  - done.
  - done.
  - simpl. by rewrite Hc.
  - simpl. by rewrite Hc.
  - simpl. by rewrite Hc.
  - rewrite Hg3, Hg2, Hg1. reflexivity.
  - rewrite Hk3, Hk2, Hk1. reflexivity.
  - by rewrite Hi3.
  - by rewrite Hi3.
  - by rewrite Hi3.
  - by rewrite Hi3.
Qed.

Lemma restart_spawns_same_command_witness :
  exists inst2 w2 inst3 w3,
    MinerInstance.start Demo.host (MinerInstance.new (Demo.config 1))
      Demo.fresh
    = (Ok tt, Demo.runningInstance, Demo.runningWorld)
    /\ MinerInstance.getPid Demo.runningInstance = Some 4000
    /\ MinerInstance.stop Demo.host Demo.runningInstance Demo.runningWorld
       = (inst2, w2)
    /\ MinerInstance.start Demo.host inst2 w2 = (Ok tt, inst3, w3)
    /\ MinerInstance.getPid inst3 = Some 4001
    /\ List.length (spawned w3) = 2%nat
    /\ MinerInstance.isRunning inst3 = true.
Proof.
  assert (Hr1 : fst (fst (MinerInstance.start Demo.host
                            (MinerInstance.new (Demo.config 1)) Demo.fresh))
                = Ok tt) by (vm_compute; reflexivity).
  assert (Hn1 : MinerInstance.getPid Demo.runningInstance = Some 4000)
    by (vm_compute; reflexivity).
  assert (E1 : MinerInstance.start Demo.host (MinerInstance.new (Demo.config 1))
                 Demo.fresh
               = (Ok tt, Demo.runningInstance, Demo.runningWorld)).
  { unfold Demo.runningInstance, Demo.runningWorld. revert Hr1.
    destruct (MinerInstance.start Demo.host (MinerInstance.new (Demo.config 1))
                Demo.fresh) as [[r i] w0].
    simpl. intros ->. reflexivity. }
  assert (Hr3 : fst (fst (MinerInstance.start Demo.host
                  (fst (MinerInstance.stop Demo.host Demo.runningInstance
                          Demo.runningWorld))
                  (snd (MinerInstance.stop Demo.host Demo.runningInstance
                          Demo.runningWorld))))
                = Ok tt) by (vm_compute; reflexivity).
  assert (Hn3 : MinerInstance.getPid
                  (snd (fst (MinerInstance.start Demo.host
                    (fst (MinerInstance.stop Demo.host Demo.runningInstance
                            Demo.runningWorld))
                    (snd (MinerInstance.stop Demo.host Demo.runningInstance
                            Demo.runningWorld)))))
                = Some 4001) by (vm_compute; reflexivity).
  revert Hr3 Hn3.
  destruct (MinerInstance.stop Demo.host Demo.runningInstance
              Demo.runningWorld) as [inst2 w2] eqn:E2.
  simpl.
  destruct (MinerInstance.start Demo.host inst2 w2) as [[r3 inst3] w3] eqn:E3.
  simpl. intros -> Hn3.
  exists inst2, w2, inst3, w3.
  destruct (restart_spawns_same_command Demo.host
              (MinerInstance.new (Demo.config 1)) _ _ _ _ _ _ _ 4000 4001
              eq_refl E1 Hn1 E2 E3 Hn3)
    as (c1 & c2 & sig & Hs & _ & _ & _ & _ & _ & _ & _ & _ & Hrun & _).
  split_and!; [exact E1|exact Hn1|reflexivity|exact E3|exact Hn3| |exact Hrun].
  rewrite Hs. reflexivity.
Defined.
